(** * SevenNet [sevenn/util.py]: a shallow embedding and its properties

    The Python module is embedded function by function.  Python exceptions
    are values of [exn]; a computation that may raise is a [result]; the
    checkpoint loader, which also prints and warns, runs in the logging
    monad [M].  Python dictionaries are insertion-ordered association lists
    with unique keys.  Floating-point numbers are kept abstract behind the
    class [FloatOps]: no theorem below depends on how they round, except
    where a theorem states the laws it needs as hypotheses. *)

From Stdlib Require Import String Ascii DecimalString.
From Stdlib Require Import ZArith QArith Qround Qabs Lia Bool Arith.
From Stdlib Require Import List Sorted Permutation.
Import ListNotations.

Local Open Scope string_scope.
Local Open Scope list_scope.

Set Implicit Arguments.
Set Warnings "-register-all".

(** ** Python exceptions and fallible computations *)

(** [Unmodelled] is not a Python exception: it marks an input on which
    the embedding does not follow the interpreter (a use of the tensor
    engine outside the shapes and types the module documents). *)
Inductive exn : Type :=
| ValueError (msg : string)
| KeyError (key : string)
| AssertionError (msg : string)
| TypeError (msg : string)
| IndexError
| RuntimeError (msg : string)
| AttributeError (msg : string)
| ZeroDivisionError
| Unmodelled (what : string).

Definition result (A : Type) : Type := (exn + A)%type.

Definition ok {A} (a : A) : result A := inr a.
Definition raise {A} (e : exn) : result A := inl e.

Definition rbind {A B} (m : result A) (k : A -> result B) : result B :=
  match m with
  | inl e => inl e
  | inr a => k a
  end.

Notation "x <- m ;; k" := (rbind m (fun x => k))
  (at level 61, m at next level, right associativity).
Notation "' pat <- m ;; k" := (rbind m (fun x => match x with pat => k end))
  (at level 61, pat pattern, m at next level, right associativity).

Definition is_ok {A} (r : result A) : bool :=
  match r with inr _ => true | inl _ => false end.

(** ** Numbers

    [F] stands for the floating-point numbers of Python and torch.  [nan] is
    [np.nan], [of_int] the int-to-float conversion that [/] and [*] apply to
    an integer operand, [TO_KB] the literal [1602.1766208].  [fadd] is the
    addition of two Python floats; [tsum] is [t.sum().item()] on the
    elements of a tensor [t]: the reduction of the tensor engine, which
    adds and rounds in the element type of the tensor and in an order of
    its own, read back as a Python float. *)

Class FloatOps (F : Type) : Type := {
  fzero : F;
  fadd : F -> F -> F;
  fmul : F -> F -> F;
  fdiv : F -> F -> F;
  of_int : Z -> F;
  fis_zero : F -> bool;
  nan : F;
  TO_KB : F;
  tsum : list F -> F
}.

(** Exact rationals extended with a not-a-number element: the instance the
    concrete evaluations below run on. *)
Inductive xrat : Type :=
| Fin (q : Q)
| NaN.

Definition xlift2 (f : Q -> Q -> Q) (a b : xrat) : xrat :=
  match a, b with
  | Fin x, Fin y => Fin (f x y)
  | _, _ => NaN
  end.

Definition xdiv (a b : xrat) : xrat :=
  match a, b with
  | Fin x, Fin y => if Qeq_bool y 0 then NaN else Fin (x / y)
  | _, _ => NaN
  end.

#[export] Instance xrat_ops : FloatOps xrat := {
  fzero := Fin 0;
  fadd := xlift2 Qplus;
  fmul := xlift2 Qmult;
  fdiv := xdiv;
  of_int := fun z => Fin (inject_Z z);
  fis_zero := fun a => match a with Fin q => Qeq_bool q 0 | NaN => false end;
  nan := NaN;
  TO_KB := Fin (16021766208 # 10000000);
  tsum := fold_right (xlift2 Qplus) (Fin 0)
}.





(** ** Dictionaries

    A Python [dict] keeps its keys in insertion order; assigning to a key
    that is present replaces the value in place. *)

Section Dict.
Context {K V : Type} (eqb : K -> K -> bool).

Definition dict : Type := list (K * V).

Fixpoint dict_get (k : K) (d : dict) : option V :=
    match d with
    | [] => None
    | (k', v) :: d' => if eqb k k' then Some v else dict_get k d'
    end.

Definition dict_mem (k : K) (d : dict) : bool :=
    match dict_get k d with Some _ => true | None => false end.

Fixpoint dict_set (k : K) (v : V) (d : dict) : dict :=
    match d with
    | [] => [(k, v)]
    | (k', v') :: d' =>
        if eqb k k' then (k', v) :: d' else (k', v') :: dict_set k v d'
    end.

Definition keys (d : dict) : list K := map fst d.
End Dict.

Arguments dict : clear implicits.

Definition sdict (V : Type) : Type := dict string V.
Definition sget {V} (k : string) (d : sdict V) : option V := dict_get String.eqb k d.
Definition sset {V} (k : string) (v : V) (d : sdict V) : sdict V :=
  dict_set String.eqb k v d.
Definition smem {V} (k : string) (d : sdict V) : bool := dict_mem (V:=V) String.eqb k d.

(** [d[k]] on a dictionary with string keys. *)
Definition getitem {V} (d : sdict V) (k : string) : result V :=
  match sget k d with
  | Some v => ok v
  | None => raise (KeyError k)
  end.

(** ** Tensors

    A tensor is its shape and its elements in row-major order; a well-formed
    tensor has [length data = numel_of_shape shape], so that [numel], the
    number of elements, is read off the data. *)

Record tensor (A : Type) : Type := mkTensor {
  shape : list nat;
  data : list A
}.

Definition numel_of_shape (s : list nat) : nat := fold_right Nat.mul 1%nat s.

(** [t.numel()] *)
Definition numel {A} (t : tensor A) : nat := List.length (data t).

(** ** Running statistics accumulator (util.py, lines 12-32) *)

Module AverageNumber.
Section WithFloats.
Context {F : Type} {FO : FloatOps F}.

Record t : Type := mk {
  _sum : F;
  _count : Z
}.

(** [__init__] *)
Definition init : t := {| _sum := fzero; _count := 0 |}.

(** [values.sum().item()]: the sum of all elements of the tensor, as the
    tensor engine computes it. *)
Definition tensor_sum (values : tensor F) : F :=
  tsum (data values).

(** [update] *)
Definition update (self : t) (values : tensor F) : t :=
  {| _sum := fadd (_sum self) (tensor_sum values);
     _count := _count self + Z.of_nat (numel values) |}.

(** Python's [x / n] for a float [x] and an int [n]: a zero divisor
    raises. *)
Definition py_truediv (x : F) (n : Z) : result F :=
  if (n =? 0)%Z then raise ZeroDivisionError else ok (fdiv x (of_int n)).

(** [get] *)
Definition get (self : t) : result F :=
  if (_count self =? 0)%Z then ok nan
  else py_truediv (_sum self) (_count self).

(** The accumulator after a sequence of [update] calls. *)
Definition run (batches : list (tensor F)) : t :=
  fold_left update batches init.

(** All the values ingested, in order, and their arithmetic mean. *)
Definition ingested (batches : list (tensor F)) : list F :=
  concat (map (@data F) batches).

End WithFloats.
End AverageNumber.

(** ** Keys and loss types *)

(** Modelled from the spec: the key constants of [sevenn._keys], a module
    of the repository that is not under src/.  The functions below only use
    them as dictionary keys; what matters is that they are strings and
    pairwise distinct. *)
Module KEY.
Definition NUM_ATOMS : string := "num_atoms".
Definition ENERGY : string := "total_energy".
Definition FORCE : string := "force_of_atoms".
Definition STRESS : string := "stress".
Definition PRED_TOTAL_ENERGY : string := "inferred_total_energy".
Definition PRED_FORCE : string := "inferred_force".
Definition PRED_STRESS : string := "inferred_stress".
Definition ATOMIC_ENERGY : string := "atomic_energy".
Definition USER_LABEL : string := "user_label".
Definition OPTIMIZE_BY_REDUCE : string := "optimize_by_reduce".
Definition CUTOFF_FUNCTION : string := "cutoff_function".
Definition CUTOFF_FUNCTION_NAME : string := "cutoff_function_name".
Definition SELF_CONNECTION_TYPE : string := "self_connection_type".
End KEY.

(** Modelled from the spec: the enumeration [LossType] of [sevenn._const]
    (not under src/), "an enumerated tag {ENERGY, FORCE, STRESS}". *)
Module LossType.
Inductive t : Type := ENERGY | FORCE | STRESS.

Definition eqb (a b : t) : bool :=
  match a, b with
  | ENERGY, ENERGY | FORCE, FORCE | STRESS, STRESS => true
  | _, _ => false
  end.
End LossType.

(** A hashable Python object used as a loss type or as a key of the results
    dictionary: a member of the enumeration, or a string.  A member of a
    plain enumeration is equal to itself only, never to a string. *)
Inductive hashable : Type :=
| KLoss (l : LossType.t)
| KStr (s : string).

Definition hashable_eqb (a b : hashable) : bool :=
  match a, b with
  | KLoss x, KLoss y => LossType.eqb x y
  | KStr x, KStr y => String.eqb x y
  | _, _ => false
  end.

Definition hashable_eq_dec (a b : hashable) : {a = b} + {a <> b}.
Proof.
  decide equality; [decide equality | apply string_dec].
Defined.

(** ** The tensor engine (torch), as far as the module uses it *)

Section Torch.
Context {F : Type} {FO : FloatOps F}.

(** A tensor with its element type: integer or floating point. *)
Inductive tval : Type :=
| TInt (t : tensor Z)
| TFloat (t : tensor F).

Definition tshape (t : tval) : list nat :=
  match t with TInt x => shape x | TFloat x => shape x end.

(** The elements as floats (the promotion an arithmetic operation with a
    float operand applies). *)
Definition as_floats (t : tval) : list F :=
  match t with
  | TInt x => map of_int (data x)
  | TFloat x => data x
  end.

Definition shape_eqb (s1 s2 : list nat) : bool :=
  if list_eq_dec Nat.eq_dec s1 s2 then true else false.

Fixpoint map2 {A B C} (f : A -> B -> C) (l1 : list A) (l2 : list B) : list C :=
  match l1, l2 with
  | x :: l1', y :: l2' => f x y :: map2 f l1' l2'
  | _, _ => []
  end.

(** [a / b]: true division, elementwise on operands of one shape.  The
    module divides per-structure energies by per-structure atom counts,
    both of shape (num_batch); broadcasting of unequal shapes is left out. *)
Definition torch_div (a b : tval) : result tval :=
  if shape_eqb (tshape a) (tshape b)
  then ok (TFloat {| shape := tshape a;
                     data := map2 fdiv (as_floats a) (as_floats b) |})
  else raise (Unmodelled "division of tensors of unequal shapes").

(** [t * c] for a Python float [c]. *)
Definition torch_mul_scalar (t : tval) (c : F) : tval :=
  TFloat {| shape := tshape t; data := map (fun x => fmul x c) (as_floats t) |}.

(** [torch.reshape(t, (-1,))] *)
Definition reshape_flat (t : tval) : tval :=
  match t with
  | TInt x => TInt {| shape := [numel x]; data := data x |}
  | TFloat x => TFloat {| shape := [numel x]; data := data x |}
  end.

(** A Python slice bound, normalised against a length [n]. *)
Definition slice_bound (i n : Z) : Z :=
  let i' := if (i <? 0)%Z then (i + n)%Z else i in
  Z.max 0 (Z.min i' n).

Definition slice_tensor {A} (i j : Z) (t : tensor A) : result (tensor A) :=
  match shape t with
  | [] => raise IndexError
  | n :: rest =>
      let lo := Z.to_nat (slice_bound i (Z.of_nat n)) in
      let hi := Z.to_nat (slice_bound j (Z.of_nat n)) in
      let stride := numel_of_shape rest in
      ok {| shape := (hi - lo)%nat :: rest;
            data := firstn ((hi - lo) * stride) (skipn (lo * stride) (data t)) |}
  end.

(** [t[i:j]]: a slice along the first dimension. *)
Definition tslice (i j : Z) (t : tval) : result tval :=
  match t with
  | TInt x => y <- slice_tensor i j x ;; ok (TInt y)
  | TFloat x => y <- slice_tensor i j x ;; ok (TFloat y)
  end.

(** Consecutive pieces of [sizes] rows, each row [stride] elements. *)
Fixpoint pieces {A} (sizes : list nat) (stride : nat) (l : list A) : list (list A) :=
  match sizes with
  | [] => []
  | n :: sizes' =>
      firstn (n * stride) l :: pieces sizes' stride (skipn (n * stride) l)
  end.

Definition split_tensor {A} (t : tensor A) (sizes : list Z) : result (list (tensor A)) :=
  match shape t with
  | [] => raise (RuntimeError "split expects at least a 1-dimensional tensor")
  | n :: rest =>
      if forallb (fun z => (0 <=? z)%Z) sizes
         && (fold_right Z.add 0%Z sizes =? Z.of_nat n)%Z
      then
        let ns := map Z.to_nat sizes in
        ok (map2 (fun k d => {| shape := k :: rest; data := d |})
                 ns (pieces ns (numel_of_shape rest) (data t)))
      else raise (RuntimeError "split_with_sizes expects split_sizes to sum exactly to the size of the dimension")
  end.

(** [torch.split(t, sizes)] along the first dimension. *)
Definition torch_split (t : tval) (sizes : list Z) : result (list tval) :=
  match t with
  | TInt x => l <- split_tensor x sizes ;; ok (map TInt l)
  | TFloat x => l <- split_tensor x sizes ;; ok (map TFloat l)
  end.

Definition unbind_tensor {A} (t : tensor A) : result (list (tensor A)) :=
  match shape t with
  | [] => raise (RuntimeError "Dimension specified as 0 but tensor has no dimensions")
  | n :: rest =>
      ok (map (fun d => {| shape := rest; data := d |})
              (pieces (repeat 1%nat n) (numel_of_shape rest) (data t)))
  end.

(** [torch.unbind(t)]: the slices along the first dimension, that
    dimension removed. *)
Definition torch_unbind (t : tval) : result (list tval) :=
  match t with
  | TInt x => l <- unbind_tensor x ;; ok (map TInt l)
  | TFloat x => l <- unbind_tensor x ;; ok (map TFloat l)
  end.

(** [torch.unsqueeze(t, 0)] *)
Definition torch_unsqueeze0 (t : tval) : tval :=
  match t with
  | TInt x => TInt {| shape := 1%nat :: shape x; data := data x |}
  | TFloat x => TFloat {| shape := 1%nat :: shape x; data := data x |}
  end.

(** [t.tolist()] of the per-structure atom counts: a list of Python ints
    for a 1-dimensional integer tensor, the only form a batch carries. *)
Definition tolist_counts (t : tval) : result (list Z) :=
  match t with
  | TInt x =>
      match shape x with
      | [_] => ok (data x)
      | _ => raise (Unmodelled "atom counts that are not 1-dimensional")
      end
  | TFloat _ => raise (Unmodelled "atom counts that are not integers")
  end.

(** ** Batched outputs *)

(** A value of the model's output mapping: a tensor, or the list of
    per-structure labels. *)
Inductive oval : Type :=
| OTensor (t : tval)
| OLabels (labels : list string).

Definition output_t : Type := sdict oval.

Definition get_tensor (output : output_t) (k : string) : result tval :=
  v <- getitem output k ;;
  match v with
  | OTensor t => ok t
  | OLabels _ => raise (Unmodelled "a label list used as a tensor")
  end.

Definition get_labels (output : output_t) (k : string) : result (list string) :=
  v <- getitem output k ;;
  match v with
  | OLabels l => ok l
  | OTensor _ => raise (Unmodelled "a tensor used as the label list")
  end.

(** ** Output postprocessor (util.py, lines 131-168) *)

Definition triple : Type := (tval * tval * Z)%type.
Definition results_t : Type := dict hashable triple.

(** The body of the loop over [loss_types]: the triple stored for one loss
    type. *)
Definition postprocess_one (output : output_t) (loss_type : hashable) : result triple :=
  match loss_type with
  | KLoss LossType.ENERGY =>
      num_atoms <- get_tensor output KEY.NUM_ATOMS ;;
      e <- get_tensor output KEY.PRED_TOTAL_ENERGY ;;
      pred <- torch_div e num_atoms ;;
      e' <- get_tensor output KEY.ENERGY ;;
      ref <- torch_div e' num_atoms ;;
      ok (pred, ref, 1%Z)
  | KLoss LossType.FORCE =>
      f <- get_tensor output KEY.PRED_FORCE ;;
      f' <- get_tensor output KEY.FORCE ;;
      ok (reshape_flat f, reshape_flat f', 3%Z)
  | KLoss LossType.STRESS =>
      s <- get_tensor output KEY.PRED_STRESS ;;
      s' <- get_tensor output KEY.STRESS ;;
      ok (reshape_flat (torch_mul_scalar s TO_KB),
          reshape_flat (torch_mul_scalar s' TO_KB), 6%Z)
  | KStr s => raise (ValueError ("Unknown loss type: " ++ s)%string)
  end.

Fixpoint postprocess_loop (output : output_t) (loss_types : list hashable)
    (results : results_t) : result results_t :=
  match loss_types with
  | [] => ok results
  | loss_type :: rest =>
      entry <- postprocess_one output loss_type ;;
      postprocess_loop output rest (dict_set hashable_eqb loss_type entry results)
  end.

Definition postprocess_output (output : output_t) (loss_types : list hashable)
    : result results_t :=
  postprocess_loop output loss_types [].

(** ** Label partition (util.py, lines 109-128) *)

Definition labeled_t : Type := sdict (dict hashable (tval * tval)).

(** [t.item()] where a Python int is needed afterwards (a slice bound). *)
Definition item_int (t : tval) : result Z :=
  match t with
  | TInt x =>
      match data x with
      | [n] => ok n
      | _ => raise (RuntimeError "a Tensor with several elements cannot be converted to Scalar")
      end
  | TFloat x =>
      match data x with
      | [_] => raise (TypeError "slice indices must be integers")
      | _ => raise (RuntimeError "a Tensor with several elements cannot be converted to Scalar")
      end
  end.

(** [results[KEY.NUM_ATOMS][idx].item()], line 123: the lookup is made in
    [results], whose entries are (pred, ref, vdim) tuples. *)
Definition results_num_atoms (results : results_t) (idx : nat) : result Z :=
  match dict_get hashable_eqb (KStr KEY.NUM_ATOMS) results with
  | None => raise (KeyError KEY.NUM_ATOMS)
  | Some (pred, ref, _) =>
      match idx with
      | 0%nat => item_int pred
      | 1%nat => item_int ref
      | 2%nat => raise (AttributeError "'int' object has no attribute 'item'")
      | _ => raise IndexError
      end
  end.

(** [{k: {} for k in set(batched_label)}] *)
Definition empty_labeled (batched_label : list string) : labeled_t :=
  fold_left (fun acc k => sset k [] acc) batched_label [].

(** The loop over [enumerate(batched_label)] for one loss type: [idx] is
    the index of the next structure, [i_from] the cursor. *)
Fixpoint label_loop (results : results_t) (loss_type : hashable)
    (pred ref : tval) (vdim : Z) (batched_label : list string)
    (idx : nat) (i_from : Z) (labeled : labeled_t) : result labeled_t :=
  match batched_label with
  | [] => ok labeled
  | label :: rest =>
      i_to <- match loss_type with
              | KLoss LossType.FORCE =>
                  n <- results_num_atoms results idx ;;
                  ok (i_from + vdim * n)%Z
              | _ => ok (i_from + vdim)%Z
              end ;;
      p <- tslice i_from i_to pred ;;
      r <- tslice i_from i_to ref ;;
      inner <- getitem labeled label ;;
      label_loop results loss_type pred ref vdim rest (S idx) i_to
        (sset label (dict_set hashable_eqb loss_type (p, r) inner) labeled)
  end.

(** The loop over [results.items()]. *)
Fixpoint loss_loop (results : results_t) (items : list (hashable * triple))
    (batched_label : list string) (labeled : labeled_t) : result labeled_t :=
  match items with
  | [] => ok labeled
  | (loss_type, (pred, ref, vdim)) :: items' =>
      labeled' <- label_loop results loss_type pred ref vdim batched_label
                    0%nat 0%Z labeled ;;
      loss_loop results items' batched_label labeled'
  end.

Definition postprocess_output_with_label (output : output_t)
    (loss_types : list hashable) : result labeled_t :=
  results <- postprocess_output output loss_types ;;
  batched_label <- get_labels output KEY.USER_LABEL ;;
  loss_loop results results batched_label (empty_labeled batched_label).

(** ** Batch-to-list splitter (util.py, lines 35-67) *)

(** A batched graph of the graph-batching collaborator: its fields, and the
    records its own [to_data_list()] returns. *)
Record batch : Type := mkBatch {
  fields : output_t;
  to_data_list : list output_t
}.

(** [tuple[i]] *)
Definition tuple_get {A} (l : list A) (i : nat) : result A :=
  match nth_error l i with
  | Some x => ok x
  | None => raise IndexError
  end.

(** The loop over [enumerate(data_list)], lines 60-66. *)
Fixpoint assign_loop (data_list : list output_t) (i : nat)
    (atomic_energy_list inferred_total_energy_list inferred_force_list : list tval)
    (inferred_stress_list : option (list tval)) : result (list output_t) :=
  match data_list with
  | [] => ok []
  | data :: rest =>
      ae <- tuple_get atomic_energy_list i ;;
      let data := sset KEY.ATOMIC_ENERGY (OTensor ae) data in
      te <- tuple_get inferred_total_energy_list i ;;
      let data := sset KEY.PRED_TOTAL_ENERGY (OTensor te) data in
      f <- tuple_get inferred_force_list i ;;
      let data := sset KEY.PRED_FORCE (OTensor f) data in
      data <- match inferred_stress_list with
              | Some l =>
                  s <- tuple_get l i ;;
                  ok (sset KEY.PRED_STRESS (OTensor (torch_unsqueeze0 s)) data)
              | None => ok data
              end ;;
      rest' <- assign_loop rest (S i) atomic_energy_list
                 inferred_total_energy_list inferred_force_list
                 inferred_stress_list ;;
      ok (data :: rest')
  end.


Definition to_atom_graph_list (atom_graph_batch : batch) : result (list output_t) :=
  let is_stress := smem KEY.PRED_STRESS (fields atom_graph_batch) in
  let data_list := to_data_list atom_graph_batch in
  n <- get_tensor (fields atom_graph_batch) KEY.NUM_ATOMS ;;
  indices <- tolist_counts n ;;
  ae <- get_tensor (fields atom_graph_batch) KEY.ATOMIC_ENERGY ;;
  atomic_energy_list <- torch_split ae indices ;;
  te <- get_tensor (fields atom_graph_batch) KEY.PRED_TOTAL_ENERGY ;;
  inferred_total_energy_list <- torch_unbind te ;;
  f <- get_tensor (fields atom_graph_batch) KEY.PRED_FORCE ;;
  inferred_force_list <- torch_split f indices ;;
  inferred_stress_list <-
    (if is_stress
     then s <- get_tensor (fields atom_graph_batch) KEY.PRED_STRESS ;;
          l <- torch_unbind s ;; ok (Some l)
     else ok None) ;;
  assign_loop data_list 0%nat atomic_energy_list inferred_total_energy_list
    inferred_force_list inferred_stress_list.
End Torch.

(** ** Python strings *)

(** [s.split(sep)] for a one-character separator: never empty. *)
Fixpoint str_split (sep : ascii) (s : string) : list string :=
  match s with
  | EmptyString => [EmptyString]
  | String c s' =>
      if Ascii.eqb c sep then EmptyString :: str_split sep s'
      else match str_split sep s' with
           | [] => [String c EmptyString]
           | w :: ws => String c w :: ws
           end
  end.

(** [sep.join(parts)] *)
Fixpoint str_join (sep : string) (parts : list string) : string :=
  match parts with
  | [] => EmptyString
  | [w] => w
  | w :: ws => (w ++ sep ++ str_join sep ws)%string
  end.

(** [c in s] for a character [c]. *)
Fixpoint str_has (c : ascii) (s : string) : bool :=
  match s with
  | EmptyString => false
  | String c' s' => Ascii.eqb c' c || str_has c s'
  end.

(** [sub in s] *)
Fixpoint str_contains (sub s : string) : bool :=
  String.prefix sub s
  || match s with
     | EmptyString => false
     | String _ s' => str_contains sub s'
     end.

(** [s.replace(old, new)] for a non-empty [old]: occurrences are replaced
    from the left, without overlap; [skip] counts the characters of an
    occurrence still to be dropped. *)
Fixpoint str_replace_from (old new : string) (skip : nat) (s : string) : string :=
  match s with
  | EmptyString => EmptyString
  | String c s' =>
      match skip with
      | S n => str_replace_from old new n s'
      | O =>
          if String.prefix old s
          then (new ++ str_replace_from old new (String.length old - 1) s')%string
          else String c (str_replace_from old new 0 s')
      end
  end.

Definition str_replace (old new s : string) : string :=
  str_replace_from old new 0 s.

(** [f'{i}'] for a natural number. *)
Definition str_of_nat (i : nat) : string := NilZero.string_of_uint (Nat.to_uint i).

(** [repr(s)] of a string whose characters are code points below 256: in
    single quotes, unless the string holds a single quote and no double
    quote; the quote and the backslash escaped; tab, newline and carriage
    return by their letters; every other character that is not printable
    as [\xNN]. *)
Definition squote : ascii := ascii_of_nat 39.
Definition dquote : ascii := ascii_of_nat 34.
Definition backslash : ascii := ascii_of_nat 92.

Definition hex_digit (n : nat) : ascii :=
  if (n <? 10)%nat then ascii_of_nat (48 + n) else ascii_of_nat (87 + n).

Definition is_printable (c : ascii) : bool :=
  let n := nat_of_ascii c in
  (32 <=? n)%nat && negb (n =? 127)%nat
  && negb ((128 <=? n)%nat && (n <=? 160)%nat) && negb (n =? 173)%nat.

Definition repr_char (quote c : ascii) : string :=
  let n := nat_of_ascii c in
  if Ascii.eqb c quote || Ascii.eqb c backslash
  then String backslash (String c EmptyString)
  else if (n =? 9)%nat then String backslash "t"
  else if (n =? 10)%nat then String backslash "n"
  else if (n =? 13)%nat then String backslash "r"
  else if is_printable c then String c EmptyString
  else String backslash
         (String "x"%char
            (String (hex_digit (n / 16))
               (String (hex_digit (n mod 16)) EmptyString))).

Fixpoint repr_chars (quote : ascii) (s : string) : string :=
  match s with
  | EmptyString => EmptyString
  | String c s' => (repr_char quote c ++ repr_chars quote s')%string
  end.

Definition py_repr_str (s : string) : string :=
  let quote := if str_has squote s && negb (str_has dquote s)
               then dquote else squote in
  String quote (repr_chars quote s ++ String quote EmptyString).

(** [f'{l}'] for a list of strings. *)
Definition py_str_list (l : list string) : string :=
  ("[" ++ str_join ", " (map py_repr_str l) ++ "]")%string.

(** ** Legacy parameter names (util.py, lines 183-217) *)

(** The table built by lines 188-204: four fixed entries, then four per
    layer for [i] in [range(10)]. *)
Definition add_layer_names (m : sdict string) (i : nat) : sdict string :=
  let n := str_of_nat i in
  let m := sset (n ++ " self connection intro")%string
                (n ++ "_self_connection_intro")%string m in
  let m := sset (n ++ " convolution")%string (n ++ "_convolution")%string m in
  let m := sset (n ++ " self interaction 2")%string
                (n ++ "_self_interaction_2")%string m in
  sset (n ++ " equivariant gate")%string (n ++ "_equivariant_gate")%string m.

Definition _old_module_name_mapping : sdict string :=
  fold_left add_layer_names (seq 0 10)
    [ ("EdgeEmbedding", "edge_embedding");
      ("reducing nn input to hidden", "reduce_input_to_hidden");
      ("reducing nn hidden to energy", "reduce_hidden_to_energy");
      ("rescale atomic energy", "rescale_atomic_energy") ].

Definition dot : ascii := "."%char.

(** [k.split('.')[0]] *)
Definition key_name (k : string) : string := hd EmptyString (str_split dot k).

(** ['.'.join(k.split('.')[1:])] *)
Definition remainder (k : string) : string :=
  str_join "." (tl (str_split dot k)).

(** The follower once lines 210-211 have replaced the misspelling. *)
Definition follower (k : string) : string :=
  let f := remainder k in
  if str_contains "denumerator" f
  then str_replace "denumerator" "denominator" f
  else f.

(** The key under which the loop body (lines 208-216) stores the value of
    the old key [k]. *)
Definition map_key (k : string) : string :=
  match sget (key_name k) _old_module_name_mapping with
  | Some new_name => (new_name ++ "." ++ follower k)%string
  | None => k
  end.

(** The loop body, lines 208-216, on the item [kv] of the old dictionary. *)
Definition remap_step {V} (new_model_state_dict : sdict V) (kv : string * V) : sdict V :=
  sset (map_key (fst kv)) (snd kv) new_model_state_dict.

Definition _map_old_model {V} (old_model_state_dict : sdict V) : sdict V :=
  fold_left remap_step old_model_state_dict [].

(** ** Checkpoint model loader (util.py, lines 220-282) *)

Inductive device : Type :=
| CPU
| CUDA (index : nat).

Section Loader.
Context {F : Type} {FO : FloatOps F}.

(** Python values as a checkpoint holds them. *)
Inductive pyval : Type :=
| VNone
| VBool (b : bool)
| VInt (z : Z)
| VFloat (x : F)
| VStr (s : string)
| VList (l : list pyval)
| VDict (d : list (string * pyval))
| VTensor (dev : device) (t : @tval F).

Definition config_t : Type := sdict pyval.

(** What the loader writes for the user: the [print] of line 249 and the two
    [warnings.warn(..., UserWarning)] of lines 263 and 278. *)
Inductive event : Type :=
| PrintDefaultUsed (k : string) (v : pyval)
| WarnWrongCutoff
| WarnUnusedKeys (not_used : list string).

(** The logging monad: the events written so far and the outcome. *)
Definition M (A : Type) : Type := (list event * result A)%type.

Definition mret {A} (a : A) : M A := ([], ok a).
Definition mraise {A} (e : exn) : M A := ([], raise e).
Definition emit (ev : event) : M unit := ([ev], ok tt).
Definition lift {A} (r : result A) : M A := ([], r).

Definition mbind {A B} (m : M A) (k : A -> M B) : M B :=
  match m with
  | (log, inl e) => (log, inl e)
  | (log, inr a) => let (log', r) := k a in (log ++ log', r)
  end.

Notation "x <~ m ;; k" := (mbind m (fun x => k))
  (at level 61, m at next level, right associativity).
Notation "' pat <~ m ;; k" := (mbind m (fun x => match x with pat => k end))
  (at level 61, pat pattern, m at next level, right associativity).

(** [v[k]] for a string [k]. *)
Definition subscript (v : pyval) (k : string) : result pyval :=
  match v with
  | VDict d => getitem d k
  | VTensor _ _ => raise (Unmodelled "a tensor indexed by a string")
  | VStr _ => raise (TypeError "string indices must be integers")
  | VList _ => raise (TypeError "list indices must be integers or slices")
  | _ => raise (TypeError "object is not subscriptable")
  end.

(** Truth value of a Python value ([not v] is its negation). *)
Definition truthy (v : pyval) : result bool :=
  match v with
  | VNone => ok false
  | VBool b => ok b
  | VInt z => ok (negb (z =? 0)%Z)
  | VFloat x => ok (negb (fis_zero x))
  | VStr s => ok (negb (String.eqb s ""))
  | VList l => ok (match l with [] => false | _ => true end)
  | VDict d => ok (match d with [] => false | _ => true end)
  | VTensor _ (TInt t) =>
      match data t with
      | [n] => ok (negb (n =? 0)%Z)
      | _ => raise (RuntimeError "Boolean value of Tensor with several values is ambiguous")
      end
  | VTensor _ (TFloat t) =>
      match data t with
      | [x] => ok (negb (fis_zero x))
      | _ => raise (RuntimeError "Boolean value of Tensor with several values is ambiguous")
      end
  end.

(** [v == s] for a string literal [s], as the condition of an [if]. *)
Definition eq_str (v : pyval) (s : string) : result bool :=
  match v with
  | VStr s' => ok (String.eqb s' s)
  | VTensor _ _ => raise (Unmodelled "a tensor compared with a string")
  | _ => ok false
  end.

(** [v.cpu()] when [v] is a tensor, [v] otherwise (lines 255-257). *)
Definition to_cpu (v : pyval) : pyval :=
  match v with
  | VTensor _ t => VTensor CPU t
  | _ => v
  end.

Definition tensors_to_cpu (config : config_t) : config_t :=
  map (fun kv => (fst kv, to_cpu (snd kv))) config.

(** [{**a, **b}] continued: the entries of [b] assigned onto [a]. *)
Definition dict_update {V} (a b : sdict V) : sdict V :=
  fold_left (fun acc kv => sset (fst kv) (snd kv) acc) b a.

(** The three default tables of [sevenn._const] (not under src/) are
    parameters; so are the collaborators: [torch.load], the model builder
    and the model's non-strict [load_state_dict], which returns the model
    it has updated with the missing and the unexpected keys. *)
Variable DEFAULT_E3_EQUIVARIANT_MODEL_CONFIG : config_t.
Variable DEFAULT_DATA_CONFIG : config_t.
Variable DEFAULT_TRAINING_CONFIG : config_t.
Variable torch_load : string -> result pyval.
Variable Model : Type.
Variable build_E3_equivariant_model : config_t -> result Model.
Variable load_state_dict :
  Model -> sdict pyval -> result (Model * list string * list string).

(** Lines 235-239. *)
Definition defaults : config_t :=
  dict_update
    (dict_update (dict_update [] DEFAULT_E3_EQUIVARIANT_MODEL_CONFIG)
       DEFAULT_DATA_CONFIG)
    DEFAULT_TRAINING_CONFIG.

(** Lines 247-250: the loop over [defaults.items()]. *)
Fixpoint fill_defaults (items : config_t) (config : config_t) : M config_t :=
  match items with
  | [] => mret config
  | (k, v) :: rest =>
      if smem k config then fill_defaults rest config
      else
        _ <~ emit (PrintDefaultUsed k v) ;;
        fill_defaults rest (sset k v config)
  end.

(** The condition of lines 259-262; [and] does not evaluate its second
    operand when the first is false. *)
Definition is_xplor_mace (config : config_t) : result bool :=
  cf <- getitem config KEY.CUTOFF_FUNCTION ;;
  name <- subscript cf KEY.CUTOFF_FUNCTION_NAME ;;
  b <- eq_str name "XPLOR" ;;
  if b then
    sct <- getitem config KEY.SELF_CONNECTION_TYPE ;;
    eq_str sct "MACE"
  else ok false.

(** Lines 259-270. *)
Definition correct_self_connection (config : config_t) : M config_t :=
  b <~ lift (is_xplor_mace config) ;;
  if b then
    _ <~ emit WarnWrongCutoff ;;
    mret (sset KEY.SELF_CONNECTION_TYPE (VStr "linear") config)
  else mret config.

(** Lines 244-270: the configuration the model is built from. *)
Definition resolve_config (config : pyval) : M config_t :=
  flag <~ lift (subscript config KEY.OPTIMIZE_BY_REDUCE) ;;
  b <~ lift (truthy flag) ;;
  if negb b then mraise (ValueError "This potential file is no longer supported")
  else
    match config with
    | VDict config =>
        config <~ fill_defaults defaults config ;;
        correct_self_connection (tensors_to_cpu config)
    | _ => mraise (Unmodelled "a configuration that is not a dict")
    end.

(** Lines 272-280: build the model and load its parameters, once more
    with the legacy names when keys are missing.  The assertion of line
    280 fails with the message [f'Missing keys: {missing}']. *)
Definition build_and_load (config : config_t) (model_state_dict : pyval) : M Model :=
  model <~ lift (build_E3_equivariant_model config) ;;
  match model_state_dict with
  | VDict sd =>
      '(model, missing, _) <~ lift (load_state_dict model sd) ;;
      '(model, missing) <~
        (match missing with
         | [] => mret (model, missing)
         | _ :: _ =>
             let updated := _map_old_model sd in
             '(model, missing, not_used) <~ lift (load_state_dict model updated) ;;
             _ <~ (match not_used with
                   | [] => mret tt
                   | _ :: _ => emit (WarnUnusedKeys not_used)
                   end) ;;
             mret (model, missing)
         end) ;;
      match missing with
      | [] => mret model
      | _ :: _ =>
          mraise (AssertionError ("Missing keys: " ++ py_str_list missing))
      end
  | _ => mraise (TypeError "Expected state_dict to be dict-like")
  end.

(** [isinstance(v, str) or isinstance(v, dict)] *)
Definition is_str_or_dict (v : pyval) : bool :=
  match v with
  | VStr _ | VDict _ => true
  | _ => false
  end.

(** The combination of lines 260-261, on a cutoff-function name and a
    self-connection type that are strings. *)
Definition is_known_bug (name sct : string) : bool :=
  String.eqb name "XPLOR" && String.eqb sct "MACE".

(** The value a key is to have once the defaults are merged under the
    checkpoint's configuration: the checkpoint's own when it has one, the
    default otherwise. *)
Definition merged_lookup (config : config_t) (k : string) : option pyval :=
  match sget k config with
  | Some v => Some v
  | None => sget k defaults
  end.

Definition model_from_checkpoint (checkpoint : pyval) : M (Model * config_t) :=
  checkpoint <~
    (match checkpoint with
     | VStr path => lift (torch_load path)
     | VDict _ => mret checkpoint
     | _ => mraise (ValueError "checkpoint must be either str or dict")
     end) ;;
  model_state_dict <~ lift (subscript checkpoint "model_state_dict") ;;
  config <~ lift (subscript checkpoint "config") ;;
  config <~ resolve_config config ;;
  model <~ build_and_load config model_state_dict ;;
  mret (model, config).
End Loader.

(** ** Irreps-output inference (util.py, lines 379-403) *)

(** A Python [str] object: its text, and whether it is the interned object
    of that text.  Interpreters intern the string literals of a program;
    two interned strings of one text are one object, and a string built at
    run time (read from a file, joined from parts) is a different object
    from the interned one of the same text. *)
Record pystr : Type := mkStr {
  interned : bool;
  text : string
}.

(** The object a literal in source code denotes. *)
Definition literal (s : string) : pystr := {| interned := true; text := s |}.

(** [x is 'lit']: identity with the literal's object. *)
Definition is_literal (x : pystr) (lit : string) : bool :=
  interned x && String.eqb (text x) lit.

(** [x in [...]]: equality with one of the literals. *)
Definition in_literals (x : pystr) (lits : list string) : bool :=
  existsb (String.eqb (text x)) lits.

(** An argument of type [Union[bool, int]]. *)
Inductive bool_or_int : Type :=
| PyBool (b : bool)
| PyInt (z : Z).

Definition int_value (x : bool_or_int) : Z :=
  match x with
  | PyBool b => if b then 1 else 0
  | PyInt z => z
  end.

(** [x is not False]: [False] is one object, and the integer 0 is not
    it. *)
Definition is_not_False (x : bool_or_int) : bool :=
  match x with
  | PyBool false => false
  | _ => true
  end.

(** The truth value of [x] as the condition of an [if]. *)
Definition truth (x : bool_or_int) : bool :=
  match x with
  | PyBool b => b
  | PyInt z => negb (z =? 0)%Z
  end.

(** Representation signatures of the equivariant-algebra library. *)
Module Irreps.

(** An irreducible block [(mul, (l, p))]. *)
Definition elem : Type := (Z * (Z * Z))%type.
Definition t : Type := list elem.

(** The constructor [Irreps(list)] of the equivariant-algebra library: it
    accepts blocks with a multiplicity [>= 0], a degree [>= 0] and a parity
    [1] or [-1]. *)
Definition valid_elem (e : elem) : bool :=
  let '(mul, (l, p)) := e in
  (0 <=? mul)%Z && (0 <=? l)%Z && ((p =? 1)%Z || (p =? -1)%Z).

Definition Irreps_new (l : list elem) : result t :=
  if forallb valid_elem l then ok l
  else raise (ValueError "Unable to interpret as an irrep").

End Irreps.

Section Infer.

(** [FullTensorProduct(x, y).irreps_out.simplify()], from the
    equivariant-algebra collaborator. *)
Variable full_tensor_product_simplified : Irreps.t -> Irreps.t -> Irreps.t.

(** The loop of lines 392-402. *)
Fixpoint filter_loop (irreps_out : Irreps.t) (drop_l : bool_or_int)
    (parity_mode : pystr) (fix_multiplicity : bool_or_int) : list Irreps.elem :=
  match irreps_out with
  | [] => []
  | (mul, (l, p)) :: rest =>
      let rest' := filter_loop rest drop_l parity_mode fix_multiplicity in
      if is_not_False drop_l && (int_value drop_l <? l)%Z then rest'
      else if is_literal parity_mode "even" && (p =? -1)%Z then rest'
      else if is_literal parity_mode "sph" && negb (p =? (-1) ^ l)%Z then rest'
      else if truth fix_multiplicity
           then (int_value fix_multiplicity, (l, p)) :: rest'
           else (mul, (l, p)) :: rest'
  end.

Definition infer_irreps_out (irreps_x irreps_operand : Irreps.t)
    (drop_l : bool_or_int) (parity_mode : pystr)
    (fix_multiplicity : bool_or_int) : result Irreps.t :=
  if negb (in_literals parity_mode ["full"; "even"; "sph"])
  then raise (AssertionError "")
  else
    let irreps_out := full_tensor_product_simplified irreps_x irreps_operand in
    Irreps.Irreps_new (filter_loop irreps_out drop_l parity_mode fix_multiplicity).
End Infer.

(** ** Squared error (util.py, lines 171-173) *)

Section SquaredError.
Context {F : Type} {FO : FloatOps F}.

(** Subtraction of floats, as [MSELoss] uses it. *)
Variable fsub : F -> F -> F.

(** [torch.nn.MSELoss(reduction='none')(pred, ref)]: the squared
    difference, elementwise, of two floating-point tensors of one shape.
    Integer tensors and operands of unequal shapes are left out. *)
Definition mse_none (pred ref : @tval F) : result (tensor F) :=
  match pred, ref with
  | TFloat p, TFloat r =>
      if shape_eqb (shape p) (shape r)
      then ok {| shape := shape p;
                 data := map2 (fun x y => fmul (fsub x y) (fsub x y))
                           (data p) (data r) |}
      else raise (Unmodelled "loss of tensors of unequal shapes")
  | _, _ => raise (Unmodelled "loss of integer tensors")
  end.

(** [torch.reshape(t, (-1, vdim))]: the number of elements has to be a
    multiple of [vdim], and [vdim] positive for the other dimension to be
    inferred. *)
Definition reshape_rows (t : tensor F) (vdim : Z) : result (tensor F) :=
  if (vdim <=? 0)%Z
  then raise (RuntimeError "the unspecified dimension cannot be inferred")
  else if (Z.of_nat (numel t) mod vdim =? 0)%Z
  then ok {| shape := [Z.to_nat (Z.of_nat (numel t) / vdim); Z.to_nat vdim];
             data := data t |}
  else raise (RuntimeError "shape is invalid for input size").

(** [t.sum(dim=1)] of a 2-dimensional tensor: one sum per row. *)
Definition sum_dim1 (t : tensor F) : result (tensor F) :=
  match shape t with
  | [n; m] =>
      ok {| shape := [n];
            data := map (fold_right fadd fzero)
                      (pieces (repeat 1%nat n) m (data t)) |}
  | _ => raise (Unmodelled "a sum over the second of other than two dimensions")
  end.

Definition squared_error (pred ref : @tval F) (vdim : Z) : result (@tval F) :=
  e <- mse_none pred ref ;;
  rows <- reshape_rows e vdim ;;
  s <- sum_dim1 rows ;;
  ok (TFloat s).
End SquaredError.

(** ** One-hot indices to chemical symbols (util.py, lines 176-180) *)

(** [str(z)] of a Python int. *)
Definition str_of_Z (z : Z) : string :=
  match z with
  | Z0 => "0"
  | Zpos p => str_of_nat (Pos.to_nat p)
  | Zneg p => ("-" ++ str_of_nat (Pos.to_nat p))%string
  end.

(** [l[i]] on a Python list: a negative index counts from the end. *)
Definition list_item {A} (l : list A) (i : Z) : result A :=
  let n := Z.of_nat (List.length l) in
  let j := if (i <? 0)%Z then (i + n)%Z else i in
  if (0 <=? j)%Z && (j <? n)%Z
  then match nth_error l (Z.to_nat j) with
       | Some x => ok x
       | None => raise IndexError
       end
  else raise IndexError.

Definition zdict (V : Type) : Type := dict Z V.

(** [d[k]] on a dictionary with integer keys. *)
Definition zgetitem {V} (d : zdict V) (k : Z) : result V :=
  match dict_get Z.eqb k d with
  | Some v => ok v
  | None => raise (KeyError (str_of_Z k))
  end.

(** [{v: k for k, v in type_map.items()}] *)
Definition reverse_map (type_map : zdict Z) : zdict Z :=
  fold_left (fun acc kv => dict_set Z.eqb (snd kv) (fst kv) acc) type_map [].

Section OnehotToChem.
(** [ase.data.chemical_symbols], the list of element symbols indexed by
    atomic number. *)
Variable chemical_symbols : list string.

(** The list comprehension of line 180. *)
Fixpoint symbols_of (type_map_rev : zdict Z) (one_hot_indicies : list Z)
    : result (list string) :=
  match one_hot_indicies with
  | [] => ok []
  | x :: rest =>
      z <- zgetitem type_map_rev x ;;
      s <- list_item chemical_symbols z ;;
      l <- symbols_of type_map_rev rest ;;
      ok (s :: l)
  end.

Definition onehot_to_chem (one_hot_indicies : list Z) (type_map : zdict Z)
    : result (list string) :=
  symbols_of (reverse_map type_map) one_hot_indicies.
End OnehotToChem.

(** ** Chemical species (util.py, lines 296-309) *)

(** Modelled from the spec: four more key constants of [sevenn._keys]
    (not under src/); only their being distinct strings matters. *)
Module SPECIES_KEY.
Definition CHEMICAL_SPECIES : string := "chemical_species".
Definition CHEMICAL_SPECIES_BY_ATOMIC_NUMBER : string :=
  "_chemical_species_by_atomic_number".
Definition NUM_SPECIES : string := "_number_of_species".
Definition TYPE_MAP : string := "_type_map".
End SPECIES_KEY.

(** [c.isspace()] for a character below 256: the characters of a string
    are its code points. *)
Definition is_space (c : ascii) : bool :=
  let n := nat_of_ascii c in
  ((9 <=? n)%nat && (n <=? 13)%nat) || ((28 <=? n)%nat && (n <=? 32)%nat)
  || (n =? 133)%nat || (n =? 160)%nat.

(** [s.lstrip()], [s.rstrip()] and [s.strip()] *)
Fixpoint str_lstrip (s : string) : string :=
  match s with
  | EmptyString => EmptyString
  | String c s' => if is_space c then str_lstrip s' else s
  end.

Fixpoint str_rstrip (s : string) : string :=
  match s with
  | EmptyString => EmptyString
  | String c s' =>
      match str_rstrip s' with
      | EmptyString => if is_space c then EmptyString else String c EmptyString
      | r => String c r
      end
  end.

Definition str_strip (s : string) : string := str_rstrip (str_lstrip s).

(** [sorted(l)] on strings: ascending in the order of the code points. *)
Fixpoint insert_sorted (x : string) (l : list string) : list string :=
  match l with
  | [] => [x]
  | y :: l' => if String.leb x y then x :: l else y :: insert_sorted x l'
  end.

Definition sorted (l : list string) : list string :=
  fold_right insert_sorted [] l.

(** The order [sorted] puts the strings in. *)
Definition str_le (a b : string) : Prop := String.leb a b = true.

Section ChemicalSpecies.
Context {F : Type}.

(** [ase.data.atomic_numbers], and the type mapper of
    [sevenn.nn.node_embedding] (not under src/), which is taken as it
    comes. *)
Variable atomic_numbers : sdict Z.
Variable get_type_mapper_from_specie : list string -> result (@pyval F).

(** [[atomic_numbers[x] for x in chemical_specie]] *)
Fixpoint numbers_of (chemical_specie : list string) : result (list Z) :=
  match chemical_specie with
  | [] => ok []
  | x :: rest =>
      z <- getitem atomic_numbers x ;;
      l <- numbers_of rest ;;
      ok (z :: l)
  end.

Definition chemical_species_preprocess (input_chem : list string)
    : result (@config_t F) :=
  let config := [] in
  let chemical_specie := sorted (map str_strip input_chem) in
  let config := sset SPECIES_KEY.CHEMICAL_SPECIES
                  (VList (map (@VStr F) chemical_specie)) config in
  numbers <- numbers_of chemical_specie ;;
  let config := sset SPECIES_KEY.CHEMICAL_SPECIES_BY_ATOMIC_NUMBER
                  (VList (map (@VInt F) numbers)) config in
  let config := sset SPECIES_KEY.NUM_SPECIES
                  (VInt (Z.of_nat (List.length chemical_specie))) config in
  type_map <- get_type_mapper_from_specie chemical_specie ;;
  ok (sset SPECIES_KEY.TYPE_MAP type_map config).
End ChemicalSpecies.

(** ** Error recorder from loss functions (util.py, lines 70-106) *)

Module LossFunction.
(** [type(loss_function)] and [type(criterion)], as lines 90-104 tell
    them apart: by the exact class. *)
Inductive loss_class : Type :=
| PerAtomEnergyLoss
| ForceLoss
| StressLoss
| OtherLoss.

Inductive criterion_class : Type :=
| MSELoss
| L1Loss
| OtherCriterion.

(** The attributes of a loss function the recorder reads. *)
Record t : Type := mk {
  class : loss_class;
  ref_key : string;
  pred_key : string;
  criterion : criterion_class;
  name : string
}.
End LossFunction.

Section ErrorRecorder.
Context {F : Type}.

(** [ERROR_TYPES] and the classes [RMSError], [MAError] and
    [ErrorRecorder] of [sevenn.error_recorder] (not under src/): the table
    of keyword arguments per quantity, the two metric constructors called
    with keyword arguments, and the recorder built from the metrics. *)
Variable ERROR_TYPES : sdict (sdict (@pyval F)).
Variable Metric Recorder : Type.
Variable RMSError MAError : sdict (@pyval F) -> result Metric.
Variable ErrorRecorder : list Metric -> Recorder.

(** The entry of [BASE] lines 90-95 select, [None] for the fresh [{}] of
    line 97. *)
Definition base_key (c : LossFunction.loss_class) : option string :=
  match c with
  | LossFunction.PerAtomEnergyLoss => Some "Energy"
  | LossFunction.ForceLoss => Some "Force"
  | LossFunction.StressLoss => Some "Stress"
  | LossFunction.OtherLoss => None
  end.

(** Lines 98-100 on the dictionary [base]. *)
Definition set_names (base : sdict (@pyval F)) (name ref_key pred_key : string)
    : sdict (@pyval F) :=
  sset "pred_key" (VStr pred_key)
    (sset "ref_key" (VStr ref_key) (sset "name" (VStr name) base)).

(** [base['name'] + '_RMSE'], line 102. *)
Definition add_suffix (v : @pyval F) : result (@pyval F) :=
  match v with
  | VStr s => ok (VStr (s ++ "_RMSE"))
  | _ => raise (TypeError "unsupported operand type(s) for +")
  end.

(** The loop of lines 83-105.  [BASE] is the deep copy of the table;
    [base] is one of its entries, not a copy: what lines 98-102 store in
    [base] is stored in [BASE]. *)
Fixpoint recorder_loop (loss_functions : list (LossFunction.t * @pyval F))
    (BASE : sdict (sdict (@pyval F))) (metrics : list Metric)
    : result (list Metric) :=
  match loss_functions with
  | [] => ok metrics
  | (loss_function, _) :: rest =>
      let key := base_key (LossFunction.class loss_function) in
      base <- match key with
              | Some k => getitem BASE k
              | None => ok []
              end ;;
      let base := set_names base (LossFunction.name loss_function)
                    (LossFunction.ref_key loss_function)
                    (LossFunction.pred_key loss_function) in
      let store (b : sdict (@pyval F)) :=
        match key with
        | Some k => sset k b BASE
        | None => BASE
        end in
      match LossFunction.criterion loss_function with
      | LossFunction.MSELoss =>
          old <- getitem base "name" ;;
          new <- add_suffix old ;;
          let base := sset "name" new base in
          m <- RMSError base ;;
          recorder_loop rest (store base) (metrics ++ [m])
      | LossFunction.L1Loss =>
          m <- MAError base ;;
          recorder_loop rest (store base) (metrics ++ [m])
      | LossFunction.OtherCriterion =>
          recorder_loop rest (store base) metrics
      end
  end.

Definition error_recorder_from_loss_functions
    (loss_functions : list (LossFunction.t * @pyval F)) : result Recorder :=
  metrics <- recorder_loop loss_functions ERROR_TYPES [] ;;
  ok (ErrorRecorder metrics).

(** The keyword arguments a loss function asks its metric to be built
    with, read off the table alone. *)
Definition metric_kwargs (loss_function : LossFunction.t)
    : result (sdict (@pyval F)) :=
  base <- match base_key (LossFunction.class loss_function) with
          | Some k => getitem ERROR_TYPES k
          | None => ok []
          end ;;
  ok (set_names base
        (match LossFunction.criterion loss_function with
         | LossFunction.MSELoss => (LossFunction.name loss_function ++ "_RMSE")%string
         | _ => LossFunction.name loss_function
         end)
        (LossFunction.ref_key loss_function)
        (LossFunction.pred_key loss_function)).

(** The metric of one loss function, if its criterion has one. *)
Definition metric_of (loss_function : LossFunction.t) : result (option Metric) :=
  kwargs <- metric_kwargs loss_function ;;
  match LossFunction.criterion loss_function with
  | LossFunction.MSELoss => m <- RMSError kwargs ;; ok (Some m)
  | LossFunction.L1Loss => m <- MAError kwargs ;; ok (Some m)
  | LossFunction.OtherCriterion => ok None
  end.

Fixpoint metrics_of (loss_functions : list (LossFunction.t * @pyval F))
    : result (list Metric) :=
  match loss_functions with
  | [] => ok []
  | (loss_function, _) :: rest =>
      m <- metric_of loss_function ;;
      l <- metrics_of rest ;;
      ok (match m with Some x => x :: l | None => l end)
  end.
End ErrorRecorder.

(** ** The deprecated loader (util.py, lines 333-376) *)

Section DeprecatedLoader.
Context {F : Type} {FO : FloatOps F}.
Variable DEFAULT_E3_EQUIVARIANT_MODEL_CONFIG : @config_t F.
Variable DEFAULT_DATA_CONFIG : @config_t F.
Variable DEFAULT_TRAINING_CONFIG : @config_t F.
Variable torch_load : string -> result (@pyval F).
Variable Model : Type.
Variable build_E3_equivariant_model : @config_t F -> result Model.
Variable load_state_dict :
  Model -> sdict (@pyval F) -> result (Model * list string * list string).

Definition load_model_from_checkpoint (checkpoint : @pyval F) : @M F Model :=
  mbind
    (match checkpoint with
     | VStr path => lift (torch_load path)
     | VDict _ => mret checkpoint
     | _ => mraise (ValueError "checkpoint must be either str or dict")
     end)
    (fun checkpoint =>
  mbind (lift (subscript checkpoint "model_state_dict")) (fun model_state_dict =>
  mbind (lift (subscript checkpoint "config")) (fun config =>
  match config with
  | VDict config =>
      mbind (fill_defaults
               (defaults DEFAULT_E3_EQUIVARIANT_MODEL_CONFIG DEFAULT_DATA_CONFIG
                  DEFAULT_TRAINING_CONFIG) config) (fun config =>
      let config := tensors_to_cpu config in
      mbind (lift (build_E3_equivariant_model config)) (fun model =>
      match model_state_dict with
      | VDict sd =>
          mbind (lift (load_state_dict model sd)) (fun r =>
          mret (fst (fst r)))
      | _ => mraise (TypeError "Expected state_dict to be dict-like")
      end))
  | _ => mraise (Unmodelled "a configuration that is not a dict")
  end))).
End DeprecatedLoader.

(** ** Element types (util.py, lines 312-330) *)

Module Dtype.
(** A [torch.dtype]: its name and whether it is a floating-point type. *)
Record t : Type := mk {
  name : string;
  is_floating_point : bool
}.

Definition eqb (a b : t) : bool :=
  String.eqb (name a) (name b)
  && Bool.eqb (is_floating_point a) (is_floating_point b).

Definition float32 : t := {| name := "float32"; is_floating_point := true |}.
Definition int64 : t := {| name := "int64"; is_floating_point := false |}.
End Dtype.

(** What [np.issubdtype] tells of the element type of an array: a
    subtype of [np.floating], of [np.integer], or of neither. *)
Inductive np_kind : Type :=
| NpFloating
| NpInteger
| NpOther.

Section DtypeCorrect.
(** The elements of an array or tensor, and the other Python objects,
    whatever they are. *)
Variable Elements Other : Type.

Record ndarray : Type := mkArray {
  np_dtype : np_kind;
  np_elements : Elements
}.

Record ttensor : Type := mkTT {
  dtype : Dtype.t;
  elements : Elements
}.

(** The values the function meets: an array, a tensor, a [bool] (an
    instance of [int]), an [int], a [float], [None], anything else. *)
Inductive dvalue : Type :=
| DArray (a : ndarray)
| DTensor (t : ttensor)
| DBool (b : bool)
| DInt (z : Z)
| DFloat (x : Elements)
| DNone
| DOther (o : Other).

(** The tensor engine: [torch.from_numpy], which refuses some element
    types; the conversion of elements from one type to another; the
    elements of a 0-dimensional tensor made of a Python number, which
    [torch.tensor] refuses to make when the number does not fit the type
    asked for. *)
Variable from_numpy : ndarray -> result ttensor.
Variable convert : Dtype.t -> Dtype.t -> Elements -> Elements.
Variable of_bool : bool -> Dtype.t -> Elements.
Variable of_int_scalar : Z -> Dtype.t -> result Elements.
Variable of_float_scalar : Elements -> Dtype.t -> result Elements.

(** [t.to(d)]: the tensor itself when it has the type [d] already. *)
Definition tensor_to (t : ttensor) (d : Dtype.t) : ttensor :=
  if Dtype.eqb (dtype t) d then t
  else {| dtype := d; elements := convert (dtype t) d (elements t) |}.

Definition dtype_correct (v : dvalue) (float_dtype int_dtype : Dtype.t)
    : result dvalue :=
  match v with
  | DArray a =>
      match np_dtype a with
      | NpFloating => t <- from_numpy a ;; ok (DTensor (tensor_to t float_dtype))
      | NpInteger => t <- from_numpy a ;; ok (DTensor (tensor_to t int_dtype))
      | NpOther => ok DNone
      end
  | DTensor t =>
      if Dtype.is_floating_point (dtype t)
      then ok (DTensor (tensor_to t float_dtype))
      else ok (DTensor (tensor_to t int_dtype))
  | DBool b =>
      ok (DTensor {| dtype := int_dtype; elements := of_bool b int_dtype |})
  | DInt z =>
      e <- of_int_scalar z int_dtype ;;
      ok (DTensor {| dtype := int_dtype; elements := e |})
  | DFloat x =>
      e <- of_float_scalar x float_dtype ;;
      ok (DTensor {| dtype := float_dtype; elements := e |})
  | DNone => ok DNone
  | DOther o => ok (DOther o)
  end.
End DtypeCorrect.

(** [labeled[label][loss_type]], when both keys are present. *)
Definition labeled_get {F : Type} (labeled : @labeled_t F) (label : string)
    (loss_type : hashable) : option (@tval F * @tval F) :=
  match sget label labeled with
  | Some inner => dict_get hashable_eqb loss_type inner
  | None => None
  end.

(** The relation the loop of lines 83-105 keeps between the table and its
    working copy: each entry of the copy is the entry of the table, with
    the three names stored in it or not. *)
Definition tracks {F : Type} (ERROR_TYPES BASE : sdict (sdict (@pyval F))) : Prop :=
  forall k,
    match sget k ERROR_TYPES with
    | None => sget k BASE = None
    | Some b0 =>
        exists b, sget k BASE = Some b
                  /\ (b = b0 \/ exists n r p, b = set_names b0 n r p)
    end.

(** Whether the criterion of a loss function has a metric (lines 101-104). *)
Definition has_metric (loss_function : LossFunction.t) : bool :=
  match LossFunction.criterion loss_function with
  | LossFunction.OtherCriterion => false
  | _ => true
  end.

(** ** Concrete inputs

    The inputs the evaluations and instances below run on, over the exact
    rationals. *)


(** Two structures of 3 and 5 atoms with their total energies. *)
Definition energy_output : @output_t xrat :=
  [ (KEY.NUM_ATOMS, OTensor (TInt {| shape := [2%nat]; data := [3%Z; 5%Z] |}));
    (KEY.PRED_TOTAL_ENERGY,
      OTensor (TFloat {| shape := [2%nat]; data := [Fin 6; Fin 10] |}));
    (KEY.ENERGY,
      OTensor (TFloat {| shape := [2%nat]; data := [Fin 9; Fin 20] |})) ].

(** Two labelled structures of 1 and 2 atoms with their forces. *)
Definition force_output : @output_t xrat :=
  [ (KEY.NUM_ATOMS, OTensor (TInt {| shape := [2%nat]; data := [1%Z; 2%Z] |}));
    (KEY.PRED_FORCE,
      OTensor (TFloat {| shape := [3%nat; 3%nat];
                         data := map (fun z => Fin (inject_Z z))
                                   [1; 2; 3; 4; 5; 6; 7; 8; 9]%Z |}));
    (KEY.FORCE,
      OTensor (TFloat {| shape := [3%nat; 3%nat];
                         data := map (fun z => Fin (inject_Z z))
                                   [9; 8; 7; 6; 5; 4; 3; 2; 1]%Z |}));
    (KEY.USER_LABEL, OLabels ["train"; "valid"]) ].

(** The two structures of [energy_output], both labelled ["train"]. *)
Definition shared_label_output : @output_t xrat :=
  energy_output ++ [ (KEY.USER_LABEL, OLabels ["train"; "train"]) ].

(** A batch of two structures of 3 and 5 atoms carrying predictions, with
    the two records its own [to_data_list()] returns. *)
Definition ramp (n : nat) : list xrat :=
  map (fun i => Fin (inject_Z (Z.of_nat i))) (seq 0 n).

Definition graph_batch : @batch xrat :=
  {| fields :=
       [ (KEY.NUM_ATOMS, OTensor (TInt {| shape := [2%nat]; data := [3%Z; 5%Z] |}));
         (KEY.ATOMIC_ENERGY,
           OTensor (TFloat {| shape := [8%nat; 1%nat]; data := ramp 8 |}));
         (KEY.PRED_TOTAL_ENERGY,
           OTensor (TFloat {| shape := [2%nat]; data := ramp 2 |}));
         (KEY.PRED_FORCE,
           OTensor (TFloat {| shape := [8%nat; 3%nat]; data := ramp 24 |}));
         (KEY.PRED_STRESS,
           OTensor (TFloat {| shape := [2%nat; 6%nat]; data := ramp 12 |})) ];
     to_data_list :=
       [ [ (KEY.NUM_ATOMS, OTensor (TInt {| shape := [1%nat]; data := [3%Z] |})) ];
         [ (KEY.NUM_ATOMS, OTensor (TInt {| shape := [1%nat]; data := [5%Z] |})) ] ] |}.

(** A state dictionary in the current naming scheme, and one in the legacy
    scheme. *)
Definition current_state_dict : sdict nat :=
  [ ("edge_embedding.basis.coeffs", 0%nat);
    ("0_convolution.weight_nn.layer0.weight", 1%nat);
    ("0_convolution.denominator", 2%nat);
    ("reduce_hidden_to_energy.linear.weight", 3%nat) ].

Definition legacy_state_dict : sdict nat :=
  [ ("EdgeEmbedding.basis.coeffs", 0%nat);
    ("0 convolution.weight_nn.layer0.weight", 1%nat);
    ("0 convolution.denumerator", 2%nat);
    ("reducing nn hidden to energy.linear.weight", 3%nat) ].

(** Small default tables standing for the three tables of
    [sevenn._const], a model builder whose models are the lists of their
    parameter names, and the non-strict parameter load of the tensor
    engine: the names the model needs and the mapping lacks are missing,
    the names the mapping holds and the model does not need are unused. *)
Definition sample_model_defaults : @config_t xrat :=
  [ ("cutoff", VFloat (Fin (9 # 2)));
    (KEY.OPTIMIZE_BY_REDUCE, VBool true);
    (KEY.CUTOFF_FUNCTION, VDict [ (KEY.CUTOFF_FUNCTION_NAME, VStr "poly_cut") ]);
    (KEY.SELF_CONNECTION_TYPE, VStr "nequip") ].

Definition sample_data_defaults : @config_t xrat := [ ("dtype", VStr "single") ].

Definition sample_training_defaults : @config_t xrat := [ ("epoch", VInt 300) ].

Definition no_torch_load (path : string) : result (@pyval xrat) :=
  raise (RuntimeError "no file").

Definition sample_build (config : @config_t xrat) : result (list string) :=
  ok [ "edge_embedding.basis.coeffs";
       "0_convolution.weight_nn.layer0.weight";
       "0_convolution.denominator";
       "reduce_hidden_to_energy.linear.weight" ].

Definition nonstrict_load {V} (model : list string) (state_dict : sdict V)
    : result (list string * list string * list string) :=
  ok (model,
      filter (fun k => negb (smem k state_dict)) model,
      filter (fun k => negb (existsb (String.eqb k) model)) (keys state_dict)).

Definition a_weight : @pyval xrat :=
  VTensor (CUDA 0) (TFloat {| shape := [1%nat]; data := [Fin 1] |}).

(** A checkpoint written before the renaming, with the cutoff function
    and self-connection type of the known bug. *)
Definition legacy_config : @config_t xrat :=
  [ (KEY.OPTIMIZE_BY_REDUCE, VBool true);
    (KEY.CUTOFF_FUNCTION, VDict [ (KEY.CUTOFF_FUNCTION_NAME, VStr "XPLOR") ]);
    (KEY.SELF_CONNECTION_TYPE, VStr "MACE") ].

Definition legacy_parameters : sdict (@pyval xrat) :=
  map (fun kv => (fst kv, a_weight)) legacy_state_dict.

Definition legacy_checkpoint : sdict (@pyval xrat) :=
  [ ("model_state_dict", VDict legacy_parameters);
    ("config", VDict legacy_config) ].

(** The same checkpoint with two of its four parameters only. *)
Definition partial_parameters : sdict (@pyval xrat) := firstn 2 legacy_parameters.

Definition partial_checkpoint : sdict (@pyval xrat) :=
  [ ("model_state_dict", VDict partial_parameters);
    ("config", VDict legacy_config) ].

(** The same checkpoint with the optimize-by-reduce flag false, and with
    no flag at all. *)
Definition obsolete_config : @config_t xrat :=
  [ (KEY.OPTIMIZE_BY_REDUCE, VBool false) ].

Definition obsolete_checkpoint : sdict (@pyval xrat) :=
  [ ("model_state_dict", VDict legacy_parameters);
    ("config", VDict obsolete_config) ].

Definition flagless_checkpoint : sdict (@pyval xrat) :=
  [ ("model_state_dict", VDict legacy_parameters);
    ("config", VDict []) ].

Definition sample_loader (checkpoint : @pyval xrat)
    : @M xrat (list string * @config_t xrat) :=
  model_from_checkpoint sample_model_defaults sample_data_defaults
    sample_training_defaults no_torch_load sample_build nonstrict_load checkpoint.

Definition legacy_resolution : @M xrat (@config_t xrat) :=
  Eval vm_compute in
    resolve_config sample_model_defaults sample_data_defaults
      sample_training_defaults (VDict legacy_config).

Definition legacy_resolved : @config_t xrat :=
  match snd legacy_resolution with
  | inr c => c
  | inl _ => []
  end.

(** A parity mode read at run time: equal to the literal, not the
    interned object. *)
Definition runtime_even : pystr := {| interned := false; text := "even" |}.
Definition runtime_sph : pystr := {| interned := false; text := "sph" |}.

(** The signatures 1x1o and 1x0e+1x1o, and a tensor-product collaborator
    answering with the blocks of their product: 0e, 1o, 1e and 2e. *)
Definition one_odd_vector : Irreps.t := [ (1%Z, (1%Z, (-1)%Z)) ].
Definition scalar_and_odd_vector : Irreps.t :=
  [ (1%Z, (0%Z, 1%Z)); (1%Z, (1%Z, (-1)%Z)) ].

Definition vector_products (x y : Irreps.t) : Irreps.t :=
  [ (1%Z, (0%Z, 1%Z)); (1%Z, (1%Z, (-1)%Z)); (1%Z, (1%Z, 1%Z)); (1%Z, (2%Z, 1%Z)) ].

(** A configuration with a tensor on an accelerator among its values. *)
Definition config_with_tensor : @config_t xrat :=
  [ (KEY.OPTIMIZE_BY_REDUCE, VBool true);
    ("shift", a_weight);
    (KEY.SELF_CONNECTION_TYPE, VStr "nequip") ].

Definition resolution_with_tensor : @M xrat (@config_t xrat) :=
  Eval vm_compute in
    resolve_config sample_model_defaults sample_data_defaults
      sample_training_defaults (VDict config_with_tensor).

Definition resolved_with_tensor : @config_t xrat :=
  match snd resolution_with_tensor with
  | inr c => c
  | inl _ => []
  end.

(** A checkpoint in the current naming scheme that also holds a parameter
    the model does not need. *)
Definition current_parameters : sdict (@pyval xrat) :=
  map (fun kv => (fst kv, a_weight)) current_state_dict
  ++ [ ("extra.weight", a_weight) ].

Definition current_checkpoint : sdict (@pyval xrat) :=
  [ ("model_state_dict", VDict current_parameters);
    ("config", VDict legacy_config) ].

Definition current_state_dict_names : list string := keys current_state_dict.

(** What the defaults add to the configuration of [obsolete_checkpoint]. *)
Definition obsolete_filling : @M xrat (@config_t xrat) :=
  Eval vm_compute in
    fill_defaults
      (defaults sample_model_defaults sample_data_defaults sample_training_defaults)
      obsolete_config.

Definition obsolete_filled : @config_t xrat :=
  match snd obsolete_filling with
  | inr c => c
  | inl _ => []
  end.

(** Three default tables that define the same keys. *)
Definition model_table : @config_t xrat :=
  [ ("cutoff", VInt 4); ("epoch", VInt 100); ("dtype", VStr "single") ].
Definition data_table : @config_t xrat :=
  [ ("dtype", VStr "double"); ("epoch", VInt 200) ].
Definition training_table : @config_t xrat := [ ("epoch", VInt 300) ].

(** Two legacy keys of one parameter, and a key already in the current
    scheme that a legacy key is mapped onto. *)
Definition colliding_state_dict : sdict nat :=
  [ ("0_convolution.denominator", 1%nat);
    ("EdgeEmbedding.basis.coeffs", 2%nat);
    ("0 convolution.denumerator", 3%nat) ].

(** A batch whose atom counts (3 and 4) do not add up to its 8 atoms. *)
Definition miscounted_batch : @batch xrat :=
  {| fields :=
       sset KEY.NUM_ATOMS
         (OTensor (TInt {| shape := [2%nat]; data := [3%Z; 4%Z] |}))
         (fields graph_batch);
     to_data_list := to_data_list graph_batch |}.

(** Two structures of 3 and 5 atoms with distinct labels, their energies
    and their stresses. *)
Definition labelled_output : @output_t xrat :=
  energy_output
  ++ [ (KEY.PRED_STRESS,
         OTensor (TFloat {| shape := [2%nat; 6%nat]; data := ramp 12 |}));
       (KEY.STRESS,
         OTensor (TFloat {| shape := [2%nat; 6%nat]; data := ramp 12 |}));
       (KEY.USER_LABEL, OLabels ["train"; "valid"]) ].

Definition labelled_results : @results_t xrat :=
  Eval vm_compute in
    match postprocess_output labelled_output
            [KLoss LossType.ENERGY; KLoss LossType.STRESS] with
    | inr r => r
    | inl _ => []
    end.

(** Subtraction on the exact rationals, and the predicted and reference
    forces of two atoms as flat arrays. *)
Definition xrat_sub (x y : xrat) : xrat :=
  match x, y with
  | Fin a, Fin b => Fin (a - b)
  | _, _ => NaN
  end.

Definition flat_pred : tensor xrat :=
  {| shape := [6%nat]; data := map (fun z => Fin (inject_Z z)) [1; 2; 3; 4; 5; 6]%Z |}.
Definition flat_ref : tensor xrat :=
  {| shape := [6%nat]; data := map (fun z => Fin (inject_Z z)) [1; 1; 1; 1; 1; 1]%Z |}.

(** The first symbols of [ase.data.chemical_symbols], where index 0 is the
    placeholder "X", the matching atomic numbers, and a type map from
    atomic number to one-hot index for hydrogen, carbon and oxygen. *)
Definition some_chemical_symbols : list string :=
  [ "X"; "H"; "He"; "Li"; "Be"; "B"; "C"; "N"; "O" ].

Definition some_atomic_numbers : sdict Z :=
  [ ("X", 0%Z); ("H", 1%Z); ("He", 2%Z); ("Li", 3%Z); ("Be", 4%Z);
    ("B", 5%Z); ("C", 6%Z); ("N", 7%Z); ("O", 8%Z) ].

Definition hco_type_map : zdict Z := [ (1%Z, 0%Z); (6%Z, 1%Z); (8%Z, 2%Z) ].

(** A type mapper standing for [get_type_mapper_from_specie]. *)
Definition no_type_mapper (species : list string) : result (@pyval xrat) :=
  ok VNone.

(** A table of keyword arguments per quantity, metrics that are their
    kind and keyword arguments, and three loss functions: two on the
    energy, one with a criterion that has no metric. *)
Definition sample_error_types : sdict (sdict (@pyval xrat)) :=
  [ ("Energy", [ ("name", VStr "Energy"); ("unit", VStr "eV/atom") ]);
    ("Force", [ ("name", VStr "Force"); ("unit", VStr "eV/A") ]) ].

Definition sample_metric : Type := (string * sdict (@pyval xrat))%type.

Definition sample_RMSError (kwargs : sdict (@pyval xrat)) : result sample_metric :=
  ok ("RMSError", kwargs).
Definition sample_MAError (kwargs : sdict (@pyval xrat)) : result sample_metric :=
  ok ("MAError", kwargs).

Definition sample_loss_functions : list (LossFunction.t * @pyval xrat) :=
  [ (LossFunction.mk LossFunction.PerAtomEnergyLoss "total_energy"
       "inferred_total_energy" LossFunction.MSELoss "Energy", VFloat (Fin 1));
    (LossFunction.mk LossFunction.ForceLoss "force_of_atoms" "inferred_force"
       LossFunction.OtherCriterion "Force", VFloat (Fin 1));
    (LossFunction.mk LossFunction.PerAtomEnergyLoss "total_energy"
       "inferred_total_energy" LossFunction.L1Loss "Energy", VFloat (Fin 1)) ].

(** A tensor engine on lists of rationals that refuses no array and
    leaves the elements as they are, and a double-precision tensor. *)
Definition plain_from_numpy (a : ndarray (list Q)) : result (ttensor (list Q)) :=
  ok {| dtype := match np_dtype a with
                 | NpFloating => {| Dtype.name := "float64";
                                    Dtype.is_floating_point := true |}
                 | _ => Dtype.int64
                 end;
        elements := np_elements a |}.

Definition plain_convert (a b : Dtype.t) (e : list Q) : list Q := e.

(** A Python int as a 0-dimensional tensor of 64-bit integers. *)
Definition int64_scalar (z : Z) (d : Dtype.t) : result (list Q) :=
  if ((- 2 ^ 63 <=? z) && (z <? 2 ^ 63))%Z then ok [inject_Z z]
  else raise (RuntimeError "value cannot be converted to type int64 without overflow").

Definition float64_array : ndarray (list Q) :=
  {| np_dtype := NpFloating; np_elements := [1 # 2; 3 # 4] |}.

Definition plain_dtype_correct (v : dvalue (list Q) unit)
    : result (dvalue (list Q) unit) :=
  dtype_correct plain_from_numpy plain_convert
    (fun b _ => [if b then 1 else 0]) int64_scalar (fun x _ => ok x)
    v Dtype.float32 Dtype.int64.







(** The legacy checkpoint's configuration, "XPLOR" with "MACE", with the
    optimize-by-reduce flag false. *)
Definition obsolete_xplor_config : @config_t xrat :=
  [ (KEY.OPTIMIZE_BY_REDUCE, VBool false);
    (KEY.CUTOFF_FUNCTION, VDict [ (KEY.CUTOFF_FUNCTION_NAME, VStr "XPLOR") ]);
    (KEY.SELF_CONNECTION_TYPE, VStr "MACE") ].

Definition obsolete_xplor_checkpoint : sdict (@pyval xrat) :=
  [ ("model_state_dict", VDict legacy_parameters);
    ("config", VDict obsolete_xplor_config) ].

(** * Properties *)

(** ** The accumulator *)

Section AverageNumberFacts.
Context {F : Type} {FO : FloatOps F}.
Import AverageNumber.

(** Exact arithmetic: the tensor engine's sum is the sum by [fadd], and
    [fadd] obeys the laws under which "the mean of all the values" does not
    depend on how the values were grouped into batches.  Floating-point
    addition, which rounds, obeys none of this. *)
Hypothesis tsum_exact : forall l : list F, tsum l = fold_right fadd fzero l.
Hypothesis fadd_assoc : forall a b c : F, fadd a (fadd b c) = fadd (fadd a b) c.
Hypothesis fadd_0_l : forall a : F, fadd fzero a = a.
Hypothesis fadd_0_r : forall a : F, fadd a fzero = a.



Lemma fold_update_count (bs : list (tensor F)) (acc : t) :
  _count (fold_left update bs acc)
  = (_count acc + Z.of_nat (List.length (ingested bs)))%Z.
Proof.
  revert acc; induction bs as [|b bs IH]; intros acc; simpl.
  - lia.
  - rewrite IH. unfold ingested; simpl. rewrite length_app.
    unfold numel. lia.
Qed.

End AverageNumberFacts.

Section AverageNumberRun.
Context {F : Type} {FO : FloatOps F}.
Import AverageNumber.


End AverageNumberRun.







(** ** Dictionaries *)

Section DictFacts.
Context {K V : Type} (eqb : K -> K -> bool).
Hypothesis eqb_spec : forall a b, eqb a b = true <-> a = b.

Lemma eqb_refl_of_spec (a : K) : eqb a a = true.
Proof. now apply eqb_spec. Qed.

Lemma eqb_false_of_spec (a b : K) : a <> b -> eqb a b = false.
Proof.
  intros H. destruct (eqb a b) eqn:E; trivial.
  apply eqb_spec in E. contradiction.
Qed.

Lemma dict_get_set_same (k : K) (v : V) (d : dict K V) :
  dict_get eqb k (dict_set eqb k v d) = Some v.
Proof.
  induction d as [|[k' v'] d IH]; simpl.
  - now rewrite eqb_refl_of_spec.
  - destruct (eqb k k') eqn:E; simpl; rewrite E; auto.
Qed.

Lemma dict_get_set_other (k k0 : K) (v : V) (d : dict K V) :
  k0 <> k -> dict_get eqb k0 (dict_set eqb k v d) = dict_get eqb k0 d.
Proof.
  intros Hne. induction d as [|[k' v'] d IH]; simpl.
  - now rewrite eqb_false_of_spec.
  - destruct (eqb k k') eqn:E; simpl.
    + apply eqb_spec in E; subst k'. now rewrite eqb_false_of_spec.
    + destruct (eqb k0 k'); auto.
Qed.

Lemma keys_dict_set (k : K) (v : V) (d : dict K V) :
  keys (dict_set eqb k v d)
  = if dict_mem eqb k d then keys d else keys d ++ [k].
Proof.
  unfold dict_mem, keys. induction d as [|[k' v'] d IH]; simpl; trivial.
  destruct (eqb k k') eqn:E; simpl; trivial.
  rewrite IH. now destruct (dict_get eqb k d).
Qed.

Lemma dict_get_None_iff (k : K) (d : dict K V) :
  dict_get eqb k d = None <-> ~ In k (keys d).
Proof.
  unfold keys. induction d as [|[k' v'] d IH]; simpl.
  - tauto.
  - destruct (eqb k k') eqn:E.
    + apply eqb_spec in E; subst. split; [discriminate | intros H; exfalso; auto].
    + rewrite IH. split.
      * intros H [H1|H1]; [subst; now rewrite eqb_refl_of_spec in E | auto].
      * tauto.
Qed.

Lemma dict_get_In (k : K) (v : V) (d : dict K V) :
  dict_get eqb k d = Some v -> In (k, v) d.
Proof.
  induction d as [|[k' v'] d IH]; simpl; [discriminate|].
  destruct (eqb k k') eqn:E.
  - apply eqb_spec in E; subst. intros [= ->]; now left.
  - intros H; right; auto.
Qed.

Lemma dict_set_absent (k : K) (v : V) (d : dict K V) :
  ~ In k (keys d) -> dict_set eqb k v d = d ++ [(k, v)].
Proof.
  unfold keys. induction d as [|[k' v'] d IH]; simpl; intros H; trivial.
  rewrite eqb_false_of_spec by (intros ->; auto).
  f_equal. apply IH. tauto.
Qed.
End DictFacts.

Lemma hashable_eqb_spec (a b : hashable) : hashable_eqb a b = true <-> a = b.
Proof.
  destruct a as [x|x], b as [y|y]; simpl.
  - destruct x, y; simpl; split; intros H; try reflexivity; try discriminate;
      inversion H.
  - split; discriminate.
  - split; discriminate.
  - rewrite String.eqb_eq. split; [now intros -> | now inversion 1].
Qed.

Lemma string_eqb_spec (a b : string) : String.eqb a b = true <-> a = b.
Proof. apply String.eqb_eq. Qed.

(** ** The output postprocessor *)

Section PostprocessFacts.
Context {F : Type} {FO : FloatOps F}.

Lemma nth_error_map2 {A B C} (f : A -> B -> C) (l1 : list A) (l2 : list B)
    (i : nat) (x : A) (y : B) :
  nth_error l1 i = Some x -> nth_error l2 i = Some y ->
  nth_error (map2 f l1 l2) i = Some (f x y).
Proof.
  revert l2 i; induction l1 as [|a l1 IH]; intros [|b l2] [|i]; simpl;
    try discriminate.
  - now intros [= ->] [= ->].
  - apply IH.
Qed.

Lemma length_map2 {A B C} (f : A -> B -> C) (l1 : list A) (l2 : list B) :
  List.length (map2 f l1 l2) = Nat.min (List.length l1) (List.length l2).
Proof.
  revert l2; induction l1 as [|a l1 IH]; intros [|b l2]; simpl; auto.
Qed.

Lemma shape_eqb_refl (s : list nat) : shape_eqb s s = true.
Proof. unfold shape_eqb. now destruct (list_eq_dec Nat.eq_dec s s). Qed.

Lemma postprocess_loop_app (output : @output_t F) (pre post : list hashable)
    (acc results : results_t) :
  postprocess_loop output pre acc = ok results ->
  postprocess_loop output (pre ++ post) acc = postprocess_loop output post results.
Proof.
  revert acc; induction pre as [|lt pre IH]; intros acc; simpl.
  - now intros [= ->].
  - destruct (postprocess_one output lt) as [e|entry]; simpl; [discriminate|].
    apply IH.
Qed.

(** Every key of the results is one of the requested loss types and a
    member of the enumeration. *)
Lemma postprocess_loop_keys (output : @output_t F) (lts : list hashable)
    (acc results : results_t) :
  postprocess_loop output lts acc = ok results ->
  forall k, In k (keys results) ->
    In k (keys acc) \/ (In k lts /\ exists l, k = KLoss l).
Proof.
  revert acc; induction lts as [|lt lts IH]; intros acc; simpl.
  - intros [= ->]; auto.
  - destruct (postprocess_one output lt) as [e|entry] eqn:E; simpl; [discriminate|].
    intros H k Hk. destruct (IH _ H k Hk) as [Hin|[Hin Hl]].
    + rewrite keys_dict_set in Hin.
      destruct (dict_mem hashable_eqb lt acc); auto.
      apply in_app_or in Hin as [Hin|[<-|[]]]; auto.
      right; split; auto.
      destruct lt as [l|s]; [eauto | discriminate].
    + right; split; auto.
Qed.

(** The entry stored for a requested loss type is the one the loop body
    computes for it. *)
Lemma postprocess_loop_get (output : @output_t F) (lts : list hashable)
    (acc results : results_t) (lt : hashable) :
  postprocess_loop output lts acc = ok results ->
  In lt lts ->
  exists entry, postprocess_one output lt = ok entry
                /\ dict_get hashable_eqb lt results = Some entry.
Proof.
  revert acc; induction lts as [|lt' lts IH]; intros acc; simpl; [tauto|].
  destruct (postprocess_one output lt') as [e|entry] eqn:E; simpl; [discriminate|].
  intros H Hin.
  destruct (in_dec hashable_eq_dec lt lts) as [Hl|Hl].
  - eapply IH; eauto.
  - destruct Hin as [->|Hin]; [|contradiction].
    exists entry; split; trivial.
    clear IH E. revert acc H.
    assert (G : forall lts acc results,
               ~ In lt lts ->
               postprocess_loop output lts acc = ok results ->
               dict_get hashable_eqb lt results = dict_get hashable_eqb lt acc).
    { clear. induction lts as [|a lts IH]; intros acc results Hn; simpl.
      - now intros [= ->].
      - destruct (postprocess_one output a) as [e|entry]; simpl; [discriminate|].
        intros H. rewrite (IH _ _ (fun X => Hn (or_intror X)) H).
        apply (dict_get_set_other _ hashable_eqb_spec).
        intros ->; apply Hn; now left. }
    intros acc H. rewrite (G _ _ _ Hl H).
    apply (dict_get_set_same _ hashable_eqb_spec).
Qed.
End PostprocessFacts.

Section EnergyFacts.
Context {F : Type} {FO : FloatOps F}.

(** C7.  With the ENERGY loss type, [postprocess_output] returns one entry
    of per-item dimensionality 1 whose predictions (references) are the
    predicted (reference) total energies divided elementwise by the
    per-structure atom counts, structure by structure in batch order. *)
Theorem postprocess_output_energy (output : @output_t F)
    (cnt : tensor Z) (e r : tensor F)
    (Hn : sget KEY.NUM_ATOMS output = Some (OTensor (TInt cnt)))
    (He : sget KEY.PRED_TOTAL_ENERGY output = Some (OTensor (TFloat e)))
    (Hr : sget KEY.ENERGY output = Some (OTensor (TFloat r)))
    (Hse : shape e = shape cnt) (Hsr : shape r = shape cnt) :
  exists pred ref : tensor F,
    postprocess_output output [KLoss LossType.ENERGY]
    = ok [(KLoss LossType.ENERGY, (TFloat pred, TFloat ref, 1%Z))]
    /\ shape pred = shape e /\ shape ref = shape r
    /\ (forall i x c, nth_error (data e) i = Some x ->
                      nth_error (data cnt) i = Some c ->
                      nth_error (data pred) i = Some (fdiv x (of_int c)))
    /\ (forall i x c, nth_error (data r) i = Some x ->
                      nth_error (data cnt) i = Some c ->
                      nth_error (data ref) i = Some (fdiv x (of_int c))).
Proof.
  exists {| shape := shape e; data := map2 fdiv (data e) (map of_int (data cnt)) |},
         {| shape := shape r; data := map2 fdiv (data r) (map of_int (data cnt)) |}.
  split; [|split; [reflexivity|split; [reflexivity|split]]].
  - unfold postprocess_output, postprocess_loop, postprocess_one, get_tensor, getitem.
    rewrite Hn, He, Hr; simpl. unfold torch_div; simpl.
    rewrite Hse, Hsr, shape_eqb_refl; simpl. reflexivity.
  - intros i x c Hx Hc; simpl. apply nth_error_map2; trivial.
    now rewrite nth_error_map, Hc.
  - intros i x c Hx Hc; simpl. apply nth_error_map2; trivial.
    now rewrite nth_error_map, Hc.
Qed.
End EnergyFacts.

(** The theorem on two structures of 3 and 5 atoms. *)
Lemma postprocess_output_energy_witness :
  exists pred ref : tensor xrat,
    postprocess_output energy_output [KLoss LossType.ENERGY]
    = ok [(KLoss LossType.ENERGY, (TFloat pred, TFloat ref, 1%Z))]
    /\ shape pred = [2%nat] /\ shape ref = [2%nat]
    /\ (forall i x c, nth_error [Fin 6; Fin 10] i = Some x ->
                      nth_error [3%Z; 5%Z] i = Some c ->
                      nth_error (data pred) i = Some (fdiv x (of_int c)))
    /\ (forall i x c, nth_error [Fin 9; Fin 20] i = Some x ->
                      nth_error [3%Z; 5%Z] i = Some c ->
                      nth_error (data ref) i = Some (fdiv x (of_int c))).
Proof.
  exact (@postprocess_output_energy xrat xrat_ops energy_output
           {| shape := [2%nat]; data := [3%Z; 5%Z] |}
           {| shape := [2%nat]; data := [Fin 6; Fin 10] |}
           {| shape := [2%nat]; data := [Fin 9; Fin 20] |}
           eq_refl eq_refl eq_refl eq_refl eq_refl).
Defined.

(** ** The label partition *)

Section LabelFacts.
Context {F : Type} {FO : FloatOps F}.

(** The results of [postprocess_output] have no entry under a string key,
    so the lookup of line 123 raises. *)
Lemma results_num_atoms_raises (output : @output_t F) (lts : list hashable)
    (results : results_t) (idx : nat) :
  postprocess_output output lts = ok results ->
  results_num_atoms results idx = raise (KeyError KEY.NUM_ATOMS).
Proof.
  intros H. unfold results_num_atoms.
  replace (dict_get hashable_eqb (KStr KEY.NUM_ATOMS) results) with (@None (@triple F));
    trivial.
  symmetry. apply (dict_get_None_iff _ hashable_eqb_spec). intros Hin.
  unfold postprocess_output in H.
  eapply postprocess_loop_keys in H; [|exact Hin].
  destruct H as [[]|[_ [l Hl]]]. discriminate.
Qed.

Lemma loss_loop_force_raises (results : @results_t F)
    (items : list (hashable * triple)) (label : string) (labels : list string)
    (labeled : labeled_t) (entry : triple) :
  (forall idx, results_num_atoms results idx = raise (KeyError KEY.NUM_ATOMS)) ->
  In (KLoss LossType.FORCE, entry) items ->
  exists e, loss_loop results items (label :: labels) labeled = raise e.
Proof.
  intros Hraise. revert labeled.
  induction items as [|[lt [[pred ref] vdim]] items IH]; intros labeled Hin;
    [destruct Hin|].
  cbn [loss_loop].
  destruct (label_loop results lt pred ref vdim (label :: labels) 0 0 labeled)
    as [e|labeled'] eqn:E; [now exists e|].
  destruct Hin as [Heq|Hin].
  - inversion Heq; subst. cbn in E. rewrite Hraise in E. discriminate.
  - cbn [rbind]. now apply IH.
Qed.

(** X5.  Whenever FORCE is among the requested loss types and the batch holds a
    structure, [postprocess_output_with_label] raises. *)
Lemma with_label_force_raises (output : @output_t F) (lts : list hashable)
    (label : string) (labels : list string) :
  In (KLoss LossType.FORCE) lts ->
  sget KEY.USER_LABEL output = Some (OLabels (label :: labels)) ->
  exists e, postprocess_output_with_label output lts = raise e.
Proof.
  intros Hin Hl. unfold postprocess_output_with_label.
  destruct (postprocess_output output lts) as [e|results] eqn:E; [now exists e|].
  cbn [rbind]. unfold get_labels, getitem. rewrite Hl. cbn [rbind ok].
  pose proof E as E'. unfold postprocess_output in E'.
  eapply postprocess_loop_get in E'; [|exact Hin].
  destruct E' as [entry [_ Hget]].
  eapply loss_loop_force_raises.
  - intros idx. eapply results_num_atoms_raises; eauto.
  - eapply (dict_get_In _ hashable_eqb_spec); eauto.
Qed.
End LabelFacts.

(** C1 (the code departs from it).  On a batch of two labelled structures
    the flat force arrays exist, yet the partition raises [KeyError]: line
    123 reads the atom counts from the results dictionary, which has loss
    types as its only keys.  On two structures sharing one label the
    partition of the energies returns, for that label, the slice of the
    last structure only: the first structure's slice is overwritten, so the
    slices returned do not tile the flat array. *)
Theorem with_label_does_not_tile :
  is_ok (postprocess_output force_output [KLoss LossType.FORCE]) = true
  /\ postprocess_output_with_label force_output [KLoss LossType.FORCE]
     = raise (KeyError KEY.NUM_ATOMS)
  /\ postprocess_output shared_label_output [KLoss LossType.ENERGY]
     = ok [(KLoss LossType.ENERGY,
            (TFloat {| shape := [2%nat]; data := [Fin (6 # 3); Fin (10 # 5)] |},
             TFloat {| shape := [2%nat]; data := [Fin (9 # 3); Fin (20 # 5)] |},
             1%Z))]
  /\ postprocess_output_with_label shared_label_output [KLoss LossType.ENERGY]
     = ok [("train",
            [(KLoss LossType.ENERGY,
              (TFloat {| shape := [1%nat]; data := [Fin (10 # 5)] |},
               TFloat {| shape := [1%nat]; data := [Fin (20 # 5)] |}))])].
Proof. repeat split; vm_compute; reflexivity. Qed.

(** ** The batch-to-list splitter *)

Section SplitFacts.
Context {F : Type} {FO : FloatOps F}.







End SplitFacts.

Section AtomGraphListFacts.
Context {F : Type} {FO : FloatOps F}.



Lemma sget_sset_same {V} (k : string) (v : V) (d : sdict V) :
  sget k (sset k v d) = Some v.
Proof. apply (dict_get_set_same _ string_eqb_spec). Qed.

Lemma sget_sset_other {V} (k k0 : string) (v : V) (d : sdict V) :
  k0 <> k -> sget k0 (sset k v d) = sget k0 d.
Proof. apply (dict_get_set_other _ string_eqb_spec). Qed.

End AtomGraphListFacts.


(** The shapes of the example of the specification: counts [3, 5] give
    force tensors of shapes [3, 3] and [5, 3], and stresses of shape
    [1, 6]. *)
Example to_atom_graph_list_shapes_3_5 :
  match to_atom_graph_list graph_batch with
  | inr records =>
      map (fun r => match sget KEY.PRED_FORCE r with
                    | Some (OTensor t) => tshape t
                    | _ => []
                    end) records
      = [[3%nat; 3%nat]; [5%nat; 3%nat]]
      /\ map (fun r => match sget KEY.PRED_STRESS r with
                       | Some (OTensor t) => tshape t
                       | _ => []
                       end) records
         = [[1%nat; 6%nat]; [1%nat; 6%nat]]
  | inl _ => False
  end.
Proof. vm_compute. split; reflexivity. Qed.

(** ** The legacy-name remapping *)

Section MapOldModelFacts.
Context {V : Type}.

Lemma map_old_model_fold (sd : sdict V) :
  _map_old_model sd = fold_left remap_step sd [].
Proof. reflexivity. Qed.

Lemma smem_In (k : string) (d : sdict V) : smem k d = true <-> In k (keys d).
Proof.
  unfold smem, dict_mem.
  pose proof (dict_get_None_iff (V:=V) _ string_eqb_spec k d) as H.
  destruct (dict_get String.eqb k d); split; intros G; trivial.
  - destruct (in_dec string_dec k (keys d)) as [Hin|Hn]; trivial.
    apply H in Hn. discriminate.
  - discriminate.
  - apply H in G; [contradiction | reflexivity].
Qed.

(** A key that is not a legacy module name is kept as it is: the else
    branch of line 216 stores the value under [k] itself. *)
Lemma map_key_not_legacy (k : string) :
  sget (key_name k) _old_module_name_mapping = None -> map_key k = k.
Proof. unfold map_key. now intros ->. Qed.

(** The keys of the remapped dictionary are the images of the old keys. *)
Lemma keys_fold_remap (sd acc : sdict V) (k' : string) :
  In k' (keys (fold_left remap_step sd acc))
  <-> In k' (keys acc) \/ exists k, In k (keys sd) /\ map_key k = k'.
Proof.
  revert acc; induction sd as [|[k v] sd IH]; intros acc; cbn [fold_left].
  - split; [auto | intros [H|(k & [] & _)]; trivial].
  - rewrite IH. change (remap_step acc (k, v)) with (sset (map_key k) v acc).
    unfold sset. rewrite keys_dict_set.
    fold (smem (V:=V) (map_key k) acc).
    destruct (smem (map_key k) acc) eqn:E.
    + apply smem_In in E. split.
      * intros [H|(k0 & H0 & H1)]; auto.
        right. exists k0. split; trivial. now right.
      * intros [H|(k0 & H0 & H1)]; auto.
        cbn in H0. destruct H0 as [H0|H0].
        -- left. now rewrite <- H1, <- H0.
        -- right. eauto.
    + split.
      * intros [H|(k0 & H0 & H1)].
        -- apply in_app_or in H as [H|[<-|[]]]; auto.
           right. exists k. split; trivial. now left.
        -- right. exists k0. split; trivial. now right.
      * intros [H|(k0 & H0 & H1)].
        -- left. apply in_or_app. now left.
        -- cbn in H0. destruct H0 as [H0|H0].
           ++ left. apply in_or_app. right. rewrite <- H1, <- H0. now left.
           ++ right. eauto.
Qed.

Lemma keys_map_old_model (sd : sdict V) (k' : string) :
  In k' (keys (_map_old_model sd)) <-> exists k, In k (keys sd) /\ map_key k = k'.
Proof.
  rewrite map_old_model_fold, keys_fold_remap. cbn. tauto.
Qed.

Lemma fold_remap_identity (sd acc : sdict V) :
  NoDup (keys acc ++ keys sd) ->
  (forall k, In k (keys sd) -> map_key k = k) ->
  fold_left remap_step sd acc = acc ++ sd.
Proof.
  revert acc; induction sd as [|[k v] sd IH]; intros acc Hnd Hid; cbn [fold_left].
  - now rewrite app_nil_r.
  - change (remap_step acc (k, v)) with (sset (map_key k) v acc).
    rewrite (Hid k) by now left.
    assert (Hk : ~ In k (keys acc)).
    { intros Hin. cbn in Hnd. apply NoDup_remove_2 in Hnd.
      apply Hnd, in_or_app. now left. }
    unfold sset. rewrite (dict_set_absent _ string_eqb_spec) by exact Hk.
    rewrite IH.
    + now rewrite <- app_assoc.
    + unfold keys in *. rewrite map_app. cbn. rewrite <- app_assoc. exact Hnd.
    + intros k0 H0. apply Hid. now right.
Qed.

Lemma str_split_not_nil (sep : ascii) (s : string) : str_split sep s <> [].
Proof.
  destruct s as [|c s]; cbn; [discriminate|].
  destruct (Ascii.eqb c sep); [discriminate|].
  destruct (str_split sep s); discriminate.
Qed.

Lemma str_join_cons (sep w : string) (parts : list string) :
  parts <> [] ->
  str_join sep (w :: parts) = (w ++ sep ++ str_join sep parts)%string.
Proof. destruct parts; [congruence | reflexivity]. Qed.

Lemma str_join_head (sep : string) (c : ascii) (w : string) (ws : list string) :
  str_join sep (String c w :: ws) = String c (str_join sep (w :: ws)).
Proof. destruct ws; reflexivity. Qed.

(** Splitting at the dots and joining with dots gives the string back. *)
Lemma str_join_split (s : string) : str_join "." (str_split dot s) = s.
Proof.
  induction s as [|c s IH]; cbn [str_split]; trivial.
  destruct (Ascii.eqb c dot) eqn:E.
  - apply Ascii.eqb_eq in E; subst c.
    rewrite str_join_cons by apply str_split_not_nil.
    now rewrite IH.
  - destruct (str_split dot s) as [|w ws] eqn:Es.
    + now apply str_split_not_nil in Es.
    + now rewrite str_join_head, IH.
Qed.

(** A prefix without a dot, followed by a dot, is the first component. *)
Lemma str_split_prefix (w f : string) :
  str_has dot w = false ->
  str_split dot (w ++ String dot f) = w :: str_split dot f.
Proof.
  induction w as [|c w IH]; intros H.
  - reflexivity.
  - cbn [str_has] in H. apply orb_false_iff in H as [Hc Hw].
    cbn [String.append str_split]. rewrite Hc, (IH Hw). reflexivity.
Qed.

Lemma legacy_names_have_no_dot (old new : string) :
  sget old _old_module_name_mapping = Some new -> str_has dot old = false.
Proof.
  intros H. apply (dict_get_In _ string_eqb_spec) in H.
  assert (Hall : forallb (fun kv => negb (str_has dot (fst kv)))
                   _old_module_name_mapping = true) by reflexivity.
  rewrite forallb_forall in Hall. specialize (Hall _ H).
  now apply negb_true_iff in Hall.
Qed.

(** What lines 207-214 do to a key under a legacy module name. *)
Lemma map_key_renames (old new f : string) :
  sget old _old_module_name_mapping = Some new ->
  map_key (old ++ "." ++ f)
  = (new ++ "."
     ++ (if str_contains "denumerator" f
         then str_replace "denumerator" "denominator" f
         else f))%string.
Proof.
  intros H.
  change (old ++ "." ++ f)%string with (old ++ String dot f)%string.
  unfold map_key.
  assert (Hname : key_name (old ++ String dot f) = old).
  { unfold key_name.
    now rewrite (str_split_prefix _ f (legacy_names_have_no_dot _ H)). }
  assert (Hrest : remainder (old ++ String dot f) = f).
  { unfold remainder.
    rewrite (str_split_prefix _ f (legacy_names_have_no_dot _ H)).
    cbn [tl]. apply str_join_split. }
  rewrite Hname, H. unfold follower. now rewrite Hrest.
Qed.

(** X12.  A key under a legacy module name is stored under the current name of
    that module, the rest of the key following it with the misspelling
    replaced (line 213). *)
Lemma map_key_legacy (old new f : string) :
  sget old _old_module_name_mapping = Some new ->
  map_key (old ++ "." ++ f)
  = (new ++ "."
     ++ (if str_contains "denumerator" f
         then str_replace "denumerator" "denominator" f
         else f))%string.
Proof.
  intros H. unfold map_key, key_name, follower, remainder.
  change (old ++ "." ++ f)%string with (old ++ String dot f)%string.
  rewrite (str_split_prefix _ f (legacy_names_have_no_dot _ H)).
  cbn [hd tl]. rewrite H, str_join_split. reflexivity.
Qed.

(** Four legacy names, one of them misspelt, and their current names. *)
Example map_old_model_legacy_names :
  _map_old_model legacy_state_dict = current_state_dict.
Proof. reflexivity. Qed.

(** C10.  A key whose first dotted component is not a legacy module name
    and whose remainder does not contain "denumerator" is mapped to itself;
    so a state dictionary all of whose keys are such keys, that is, one in
    the current naming scheme, is returned unchanged. *)
Theorem map_old_model_current_identity (sd : sdict V)
    (Hdict : NoDup (keys sd))
    (Hcurrent : forall k, In k (keys sd) ->
        sget (key_name k) _old_module_name_mapping = None
        /\ str_contains "denumerator" (remainder k) = false) :
  (forall k, In k (keys sd) -> map_key k = k)
  /\ _map_old_model sd = sd.
Proof.
  assert (Hid : forall k, In k (keys sd) -> map_key k = k).
  { intros k Hk. apply map_key_not_legacy. now apply Hcurrent. }
  split; trivial.
  rewrite map_old_model_fold. now apply (fold_remap_identity sd []).
Qed.
End MapOldModelFacts.

(** The theorem on a state dictionary in the current naming scheme. *)
Lemma map_old_model_current_identity_witness :
  (forall k, In k (keys current_state_dict) -> map_key k = k)
  /\ _map_old_model current_state_dict = current_state_dict.
Proof.
  apply (@map_old_model_current_identity nat current_state_dict).
  - repeat constructor; cbn; intuition discriminate.
  - intros k [<-|[<-|[<-|[<-|[]]]]]; split; reflexivity.
Defined.

(** ** The checkpoint loader *)

Section ConfigFacts.
Context {F : Type}.

Lemma mbind_pure {A B} (a : A) (k : A -> @M F B) :
  mbind ([], inr a) k = k a.
Proof. unfold mbind. now destruct (k a). Qed.

Lemma mbind_logged {A B} (log : list (@event F)) (a : A) (k : A -> @M F B) :
  mbind (log, inr a) k = (log ++ fst (k a), snd (k a)).
Proof. unfold mbind. now destruct (k a). Qed.

Lemma mbind_raised {A B} (log : list (@event F)) (e : exn) (k : A -> @M F B) :
  mbind (log, inl e) k = (log, inl e).
Proof. reflexivity. Qed.

Lemma sget_cons {V} (k k0 : string) (v0 : V) (d : sdict V) :
  sget k ((k0, v0) :: d) = if String.eqb k k0 then Some v0 else sget k d.
Proof. reflexivity. Qed.

Lemma smem_sget {V} (k : string) (d : sdict V) :
  smem k d = match sget k d with Some _ => true | None => false end.
Proof. reflexivity. Qed.

(** The default-filling loop never fails; it binds exactly the keys the
    configuration lacks, each to its default, never touches a key that is
    present, and prints one line per key it binds. *)
Lemma fill_defaults_spec (items config : @config_t F) :
  exists log config',
    fill_defaults items config = (log, ok config')
    /\ (forall k, sget k config'
                  = match sget k config with
                    | Some v => Some v
                    | None => sget k items
                    end)
    /\ (forall k v, In (PrintDefaultUsed k v) log
                    <-> sget k config = None /\ sget k items = Some v)
    /\ (forall ev, In ev log -> exists k v, ev = PrintDefaultUsed k v).
Proof.
  revert config; induction items as [|[k0 v0] items IH]; intros config.
  - exists [], config. cbn. repeat split; try tauto.
    + intros k. now destruct (sget k config).
    + intros [_ H]; discriminate.
  - cbn [fill_defaults]. rewrite smem_sget.
    destruct (sget k0 config) as [w|] eqn:E0.
    + destruct (IH config) as (log & config' & E & Hget & Hlog & Hev).
      exists log, config'. split; [exact E|]. split; [|split; [|exact Hev]].
      * intros k. rewrite Hget, sget_cons.
        destruct (sget k config) eqn:Ek; trivial.
        destruct (String.eqb k k0) eqn:Eq; trivial.
        apply String.eqb_eq in Eq; subst. congruence.
      * intros k v. rewrite Hlog, sget_cons.
        destruct (String.eqb k k0) eqn:Eq; [|tauto].
        apply String.eqb_eq in Eq; subst. rewrite E0.
        split; intros [H _]; discriminate.
    + destruct (IH (sset k0 v0 config)) as (log & config' & E & Hget & Hlog & Hev).
      exists (PrintDefaultUsed k0 v0 :: log), config'.
      split; [unfold mbind, emit; now rewrite E|].
      split; [|split].
      * intros k. rewrite Hget, sget_cons.
        destruct (String.eqb k k0) eqn:Eq.
        -- apply String.eqb_eq in Eq; subst.
           unfold sget, sset. rewrite (dict_get_set_same _ string_eqb_spec).
           unfold sget in E0. now rewrite E0.
        -- apply String.eqb_neq in Eq.
           unfold sget, sset. rewrite (dict_get_set_other _ string_eqb_spec) by exact Eq.
           reflexivity.
      * intros k v. cbn [In]. rewrite Hlog, sget_cons.
        destruct (String.eqb k k0) eqn:Eq.
        -- apply String.eqb_eq in Eq; subst.
           unfold sget at 1, sset. rewrite (dict_get_set_same _ string_eqb_spec).
           rewrite E0. split.
           ++ intros [H|[H _]]; [inversion H; auto | discriminate].
           ++ intros [_ H]. left. congruence.
        -- apply String.eqb_neq in Eq.
           unfold sget at 1, sset.
           rewrite (dict_get_set_other _ string_eqb_spec) by exact Eq.
           fold (sget k config). split.
           ++ intros [H|H]; [inversion H; congruence | exact H].
           ++ auto.
      * intros ev [<-|H]; eauto.
Qed.

Lemma sget_tensors_to_cpu (k : string) (config : @config_t F) :
  sget k (tensors_to_cpu config) = option_map to_cpu (sget k config).
Proof.
  induction config as [|[k0 v0] config IH]; cbn; trivial.
  unfold sget in IH. cbn. destruct (String.eqb k k0); auto.
Qed.

End ConfigFacts.

Section LoaderFacts.
Context {F : Type} {FO : FloatOps F}.
Variable D1 D2 D3 : @config_t F.
Variable torch_load : string -> result (@pyval F).
Variable Model : Type.
Variable build : @config_t F -> result Model.
Variable load : Model -> sdict (@pyval F) -> result (Model * list string * list string).

(** Lines 244-270 on a configuration whose optimize-by-reduce flag is
    true. *)
Lemma resolve_config_ok (cfg filled : @config_t F) (flag : pyval)
    (logf : list event) (b : bool) :
  sget KEY.OPTIMIZE_BY_REDUCE cfg = Some flag ->
  truthy flag = ok true ->
  fill_defaults (defaults D1 D2 D3) cfg = (logf, ok filled) ->
  is_xplor_mace (tensors_to_cpu filled) = ok b ->
  resolve_config D1 D2 D3 (VDict cfg)
  = (logf ++ (if b then [WarnWrongCutoff] else []),
     ok (if b
         then sset KEY.SELF_CONNECTION_TYPE (VStr "linear") (tensors_to_cpu filled)
         else tensors_to_cpu filled)).
Proof.
  intros Hflag Htrue Hfill Hx.
  unfold resolve_config, subscript, getitem. rewrite Hflag.
  unfold lift, ok. rewrite mbind_pure. unfold ok in Htrue. rewrite Htrue.
  rewrite mbind_pure. cbn [negb]. unfold ok in Hfill. rewrite Hfill.
  rewrite mbind_logged. unfold correct_self_connection, lift.
  unfold ok in Hx. rewrite Hx, mbind_pure.
  destruct b; reflexivity.
Qed.

(** The loader on an already-loaded checkpoint mapping: the resolved
    configuration, then the model built from it and loaded. *)
Lemma model_from_checkpoint_dict (ckpt : sdict (@pyval F)) (sdv config : @pyval F)
    (log1 log2 : list event) (cfg' : config_t) (r : result Model) :
  sget "model_state_dict" ckpt = Some sdv ->
  sget "config" ckpt = Some config ->
  resolve_config D1 D2 D3 config = (log1, ok cfg') ->
  build_and_load build load cfg' sdv = (log2, r) ->
  model_from_checkpoint D1 D2 D3 torch_load build load (VDict ckpt)
  = (log1 ++ log2, match r with inl e => inl e | inr m => ok (m, cfg') end).
Proof.
  intros Hsd Hcfg Hres Hbl. unfold model_from_checkpoint.
  unfold mret at 1. unfold ok. rewrite mbind_pure.
  unfold subscript, getitem. rewrite Hsd, Hcfg.
  unfold lift, ok. rewrite !mbind_pure.
  unfold ok in Hres. rewrite Hres, mbind_logged. f_equal.
  - f_equal. rewrite Hbl. destruct r as [e|m]; cbn; trivial. apply app_nil_r.
  - rewrite Hbl. now destruct r.
Qed.

(** Lines 272-280 when the first load reports missing keys: the legacy
    names are remapped and the load is tried once more; unused keys are
    warned about, keys still missing are fatal. *)
Lemma build_and_load_retry (cfg : config_t) (sd : sdict (@pyval F))
    (m m1 m2 : Model) (k1 : string) (miss1 u1 miss2 u2 : list string) :
  build cfg = ok m ->
  load m sd = ok (m1, k1 :: miss1, u1) ->
  load m1 (_map_old_model sd) = ok (m2, miss2, u2) ->
  build_and_load build load cfg (VDict sd)
  = (match u2 with [] => [] | _ :: _ => [WarnUnusedKeys u2] end,
     match miss2 with
     | [] => ok m2
     | _ :: _ => raise (AssertionError ("Missing keys: " ++ py_str_list miss2))
     end).
Proof.
  intros Hb H1 H2. unfold build_and_load, lift, ok in *. rewrite Hb.
  rewrite mbind_pure, H1, mbind_pure, H2, mbind_pure.
  destruct u2, miss2; reflexivity.
Qed.

Lemma build_and_load_direct (cfg : config_t) (sd : sdict (@pyval F))
    (m m1 : Model) (u1 : list string) :
  build cfg = ok m ->
  load m sd = ok (m1, [], u1) ->
  build_and_load build load cfg (VDict sd) = ([], ok m1).
Proof.
  intros Hb H1. unfold build_and_load, lift, ok in *. rewrite Hb.
  rewrite mbind_pure, H1, mbind_pure. reflexivity.
Qed.
End LoaderFacts.

Lemma filter_all {A} (f : A -> bool) (l : list A) :
  (forall x, In x l -> f x = true) -> filter f l = l.
Proof.
  induction l as [|a l IH]; cbn; intros H; trivial.
  rewrite (H a) by now left. f_equal. apply IH. intros x Hx. apply H. now right.
Qed.

Lemma filter_none {A} (f : A -> bool) (l : list A) :
  (forall x, In x l -> f x = false) -> filter f l = [].
Proof.
  induction l as [|a l IH]; cbn; intros H; trivial.
  rewrite (H a) by now left. apply IH. intros x Hx. apply H. now right.
Qed.

Section LegacyCheckpoint.
Context {F : Type} {FO : FloatOps F}.
Variable D1 D2 D3 : @config_t F.
Variable torch_load : string -> result (@pyval F).
Variable Model : Type.
Variable build : @config_t F -> result Model.
Variable load : Model -> sdict (@pyval F) -> result (Model * list string * list string).

(** The parameter names a model needs. *)
Variable required : Model -> list string.

(** The non-strict load of the tensor engine: it reports as missing the
    names the model needs and the mapping lacks, as unused the names the
    mapping holds and the model does not need, and leaves the model's
    names as they are. *)
Hypothesis load_nonstrict : forall m sd, exists m',
  load m sd
  = ok (m',
        filter (fun k => negb (smem k sd)) (required m),
        filter (fun k => negb (existsb (String.eqb k) (required m))) (keys sd))
  /\ required m' = required m.

(** C4, as amended.  Take a checkpoint whose configuration resolves (its
    optimize-by-reduce flag is true) and builds a model in the current
    naming scheme, and whose parameter mapping uses only legacy module
    names.  The first load reports missing keys, so the mapping is remapped
    and loaded once more.  When every name the model needs is the current
    form of a key of the mapping (the current name of the key's legacy
    module, then the rest of the key with "denumerator" corrected), the
    second load reports no missing key and the loader returns its model;
    when the second load still reports missing keys, the loader fails with
    the assertion of line 280, whose message lists them. *)
Theorem legacy_checkpoint_loads (ckpt : sdict (@pyval F)) (config : @pyval F)
    (sd : sdict (@pyval F)) (log : list event) (cfg' : config_t) (m : Model)
    (Hsd : sget "model_state_dict" ckpt = Some (VDict sd))
    (Hcfg : sget "config" ckpt = Some config)
    (Hres : resolve_config D1 D2 D3 config = (log, ok cfg'))
    (Hbuild : build cfg' = ok m)
    (Hlegacy : forall k, In k (keys sd) ->
        smem (key_name k) _old_module_name_mapping = true)
    (Hcurrent : forall r, In r (required m) ->
        sget (key_name r) _old_module_name_mapping = None)
    (Hne : required m <> []) :
  exists m1 miss1 u1 m2 miss2 u2,
    load m sd = ok (m1, miss1, u1) /\ miss1 <> []
    /\ load m1 (_map_old_model sd) = ok (m2, miss2, u2)
    /\ ((forall r, In r (required m) ->
           exists old new f,
             sget old _old_module_name_mapping = Some new
             /\ In (old ++ "." ++ f)%string (keys sd)
             /\ r = (new ++ "."
                     ++ (if str_contains "denumerator" f
                         then str_replace "denumerator" "denominator" f
                         else f))%string) ->
        miss2 = []
        /\ model_from_checkpoint D1 D2 D3 torch_load build load (VDict ckpt)
           = (log ++ match u2 with [] => [] | _ :: _ => [WarnUnusedKeys u2] end,
              ok (m2, cfg')))
    /\ (miss2 <> [] ->
        model_from_checkpoint D1 D2 D3 torch_load build load (VDict ckpt)
        = (log ++ match u2 with [] => [] | _ :: _ => [WarnUnusedKeys u2] end,
           raise (AssertionError ("Missing keys: " ++ py_str_list miss2)))).
Proof.
  destruct (load_nonstrict m sd) as (m1 & E1 & Hreq1).
  destruct (load_nonstrict m1 (_map_old_model sd)) as (m2 & E2 & Hreq2).
  rewrite Hreq1 in E2.
  assert (Hmiss1 : filter (fun k => negb (smem k sd)) (required m) = required m).
  { apply filter_all. intros r Hr.
    destruct (smem r sd) eqn:E; trivial.
    apply smem_In, Hlegacy in E. rewrite smem_sget, (Hcurrent r Hr) in E.
    discriminate. }
  rewrite Hmiss1 in E1.
  do 6 eexists. split; [exact E1|]. split; [exact Hne|]. split; [exact E2|].
  destruct (required m) as [|k1 rest] eqn:Ereq; [congruence|].
  split.
  - intros Hcover.
    assert (Hmiss2 : filter (fun k => negb (smem k (_map_old_model sd))) (k1 :: rest) = []).
    { apply filter_none. intros r Hr.
      destruct (Hcover r Hr) as (old & new & f & Hold & Hk & ->).
      replace (smem (new ++ "."
                     ++ (if str_contains "denumerator" f
                         then str_replace "denumerator" "denominator" f
                         else f))%string (_map_old_model sd)) with true; trivial.
      symmetry. apply smem_In, keys_map_old_model.
      exists (old ++ "." ++ f)%string. split; [exact Hk|].
      now apply map_key_renames. }
    split; [exact Hmiss2|].
    rewrite Hmiss2 in E2.
    eapply eq_trans;
      [ eapply model_from_checkpoint_dict;
        [eassumption | eassumption | eassumption
        | eapply build_and_load_retry; eassumption]
      | reflexivity ].
  - intros Hstill.
    destruct (filter (fun k => negb (smem k (_map_old_model sd))) (k1 :: rest))
      as [|k2 miss2] eqn:Emiss2; [congruence|].
    eapply eq_trans;
      [ eapply model_from_checkpoint_dict;
        [eassumption | eassumption | eassumption
        | eapply build_and_load_retry; eassumption]
      | reflexivity ].
Qed.
End LegacyCheckpoint.

(** The theorem on a checkpoint with four legacy parameter names, one of
    them misspelt, and a model that needs their four current names: the
    loader returns through the second load. *)
Lemma legacy_checkpoint_loads_witness :
  exists m2 log2,
    sample_loader (VDict legacy_checkpoint)
    = (fst legacy_resolution ++ log2, ok (m2, legacy_resolved)).
Proof.
  destruct (@legacy_checkpoint_loads xrat xrat_ops
              sample_model_defaults sample_data_defaults sample_training_defaults
              no_torch_load (list string) sample_build nonstrict_load
              (fun m => m)
              (fun m sd => ex_intro _ m (conj eq_refl eq_refl))
              legacy_checkpoint (VDict legacy_config) legacy_parameters
              (fst legacy_resolution) legacy_resolved
              [ "edge_embedding.basis.coeffs";
                "0_convolution.weight_nn.layer0.weight";
                "0_convolution.denominator";
                "reduce_hidden_to_energy.linear.weight" ]
              eq_refl eq_refl eq_refl eq_refl)
    as (m1 & miss1 & u1 & m2 & miss2 & u2 & _ & _ & _ & Hsucc & _).
  - intros k [<-|[<-|[<-|[<-|[]]]]]; reflexivity.
  - intros k [<-|[<-|[<-|[<-|[]]]]]; reflexivity.
  - discriminate.
  - exists m2. eexists. apply Hsucc.
    intros r [<-|[<-|[<-|[<-|[]]]]];
      [ exists "EdgeEmbedding", "edge_embedding", "basis.coeffs"
      | exists "0 convolution", "0_convolution", "weight_nn.layer0.weight"
      | exists "0 convolution", "0_convolution", "denumerator"
      | exists "reducing nn hidden to energy", "reduce_hidden_to_energy",
          "linear.weight" ];
      (split; [reflexivity | split; [cbn; tauto | reflexivity]]).
Defined.

(** C4 as stated fails: the parameter mapping of [obsolete_checkpoint]
    uses only legacy module names, and the loader refuses the checkpoint
    on lines 244-245, its optimize-by-reduce flag being false, before any
    parameter is loaded.  With a flag that is true, a mapping of legacy
    names that lacks a parameter of the model is refused as well, by the
    assertion of line 280. *)
Lemma legacy_checkpoint_can_fail :
  forallb (fun k => smem (key_name k) _old_module_name_mapping)
    (keys legacy_parameters) = true
  /\ sget "model_state_dict" obsolete_checkpoint = Some (VDict legacy_parameters)
  /\ sample_loader (VDict obsolete_checkpoint)
     = ([], raise (ValueError "This potential file is no longer supported"))
  /\ forallb (fun k => smem (key_name k) _old_module_name_mapping)
       (keys partial_parameters) = true
  /\ sample_loader (VDict partial_checkpoint)
     = (fst legacy_resolution,
        raise (AssertionError
                 "Missing keys: ['0_convolution.denominator', 'reduce_hidden_to_energy.linear.weight']")).
Proof. repeat split. Qed.

Section ConfigResolution.
Context {F : Type} {FO : FloatOps F}.
Variable D1 D2 D3 : @config_t F.
Variable torch_load : string -> result (@pyval F).
Variable Model : Type.
Variable build : @config_t F -> result Model.
Variable load : Model -> sdict (@pyval F) -> result (Model * list string * list string).

(** The configuration under resolution, its optimize-by-reduce flag set,
    and the two entries the correction of lines 259-270 reads, taken from
    the checkpoint or, failing that, from the defaults. *)
Variable cfg : @config_t F.
Variable flag : @pyval F.
Variable cf : sdict (@pyval F).
Variable name sct : string.
Hypothesis Hflag : sget KEY.OPTIMIZE_BY_REDUCE cfg = Some flag.
Hypothesis Htrue : truthy flag = ok true.
Hypothesis Hcf : merged_lookup D1 D2 D3 cfg KEY.CUTOFF_FUNCTION = Some (VDict cf).
Hypothesis Hname : sget KEY.CUTOFF_FUNCTION_NAME cf = Some (VStr name).
Hypothesis Hsct : merged_lookup D1 D2 D3 cfg KEY.SELF_CONNECTION_TYPE = Some (VStr sct).

Lemma resolve_config_merged :
  exists logf cfg',
    resolve_config D1 D2 D3 (VDict cfg)
    = (logf ++ (if is_known_bug name sct then [WarnWrongCutoff] else []), ok cfg')
    /\ (forall k, sget k cfg'
                  = if String.eqb k KEY.SELF_CONNECTION_TYPE && is_known_bug name sct
                    then Some (VStr "linear")
                    else option_map to_cpu (merged_lookup D1 D2 D3 cfg k))
    /\ (forall k v, In (PrintDefaultUsed k v) logf
                    <-> sget k cfg = None /\ sget k (defaults D1 D2 D3) = Some v)
    /\ (forall ev, In ev logf -> exists k v, ev = PrintDefaultUsed k v).
Proof.
  destruct (fill_defaults_spec (defaults D1 D2 D3) cfg)
    as (logf & filled & Efill & Hget & Hlog & Hev).
  assert (Hx : is_xplor_mace (tensors_to_cpu filled) = ok (is_known_bug name sct)).
  { unfold is_xplor_mace, getitem.
    rewrite !sget_tensors_to_cpu, !Hget.
    unfold merged_lookup in Hcf, Hsct. rewrite Hcf, Hsct. cbn [option_map to_cpu rbind ok].
    unfold subscript, getitem. rewrite Hname. cbn [rbind ok eq_str].
    unfold is_known_bug. now destruct (String.eqb name "XPLOR"). }
  exists logf. eexists. split; [eapply resolve_config_ok; eauto|].
  split; [|split; [exact Hlog | exact Hev]].
  intros k. destruct (is_known_bug name sct).
  - destruct (String.eqb k KEY.SELF_CONNECTION_TYPE) eqn:E; cbn [andb].
    + apply String.eqb_eq in E; subst. apply sget_sset_same.
    + apply String.eqb_neq in E. rewrite sget_sset_other by exact E.
      now rewrite sget_tensors_to_cpu, Hget.
  - rewrite andb_false_r. now rewrite sget_tensors_to_cpu, Hget.
Qed.

(** C2, as amended.  Let [K] be a default key the checkpoint's
    configuration lacks.  On a configuration whose optimize-by-reduce flag
    is true the resolution completes, prints the warning for [K], and binds
    [K] to its default (moved to the CPU when it is a tensor; ["linear"]
    when [K] is the self-connection type and the known-bug correction
    applies).  Every key the checkpoint has keeps the checkpoint's value
    under the same two provisos, whatever the defaults say.  The loader
    returns this configuration whenever the model builds and its
    parameters load. *)
Theorem missing_default_is_filled (ckpt : sdict (@pyval F)) (sdv : @pyval F)
    (K : string) (v : @pyval F)
    (Hsd : sget "model_state_dict" ckpt = Some sdv)
    (Hcfg : sget "config" ckpt = Some (VDict cfg))
    (HK : sget K (defaults D1 D2 D3) = Some v)
    (Hlack : sget K cfg = None) :
  exists log cfg',
    resolve_config D1 D2 D3 (VDict cfg) = (log, ok cfg')
    /\ In (PrintDefaultUsed K v) log
    /\ sget K cfg'
       = Some (if String.eqb K KEY.SELF_CONNECTION_TYPE && is_known_bug name sct
               then VStr "linear" else to_cpu v)
    /\ (forall k w, sget k cfg = Some w ->
          sget k cfg'
          = Some (if String.eqb k KEY.SELF_CONNECTION_TYPE && is_known_bug name sct
                  then VStr "linear" else to_cpu w))
    /\ (forall log2 m,
          build_and_load build load cfg' sdv = (log2, ok m) ->
          model_from_checkpoint D1 D2 D3 torch_load build load (VDict ckpt)
          = (log ++ log2, ok (m, cfg'))).
Proof.
  destruct resolve_config_merged as (logf & cfg' & Eres & Hget & Hlog & _).
  eexists; exists cfg'. split; [exact Eres|]. split; [|split; [|split]].
  - apply in_or_app. left. apply Hlog. auto.
  - rewrite Hget. unfold merged_lookup. rewrite Hlack, HK.
    now destruct (String.eqb K KEY.SELF_CONNECTION_TYPE && is_known_bug name sct).
  - intros k w Hk. rewrite Hget. unfold merged_lookup. rewrite Hk.
    now destruct (String.eqb k KEY.SELF_CONNECTION_TYPE && is_known_bug name sct).
  - intros log2 m Hbl.
    eapply eq_trans;
      [ eapply model_from_checkpoint_dict; eassumption | reflexivity ].
Qed.

(** C5, as amended.  On a configuration whose optimize-by-reduce flag is
    true: when the cutoff-function name is "XPLOR" and the self-connection
    type "MACE", the resolution warns the user and the resolved
    self-connection type is "linear"; in every other case it does not warn
    and the self-connection type is the one the configuration had.  The
    loader returns the resolved configuration whenever the model builds and
    its parameters load. *)
Theorem xplor_mace_is_downgraded (ckpt : sdict (@pyval F)) (sdv : @pyval F)
    (Hsd : sget "model_state_dict" ckpt = Some sdv)
    (Hcfg : sget "config" ckpt = Some (VDict cfg)) :
  exists log cfg',
    resolve_config D1 D2 D3 (VDict cfg) = (log, ok cfg')
    /\ (name = "XPLOR" /\ sct = "MACE" ->
        In WarnWrongCutoff log
        /\ sget KEY.SELF_CONNECTION_TYPE cfg' = Some (VStr "linear"))
    /\ (~ (name = "XPLOR" /\ sct = "MACE") ->
        ~ In WarnWrongCutoff log
        /\ sget KEY.SELF_CONNECTION_TYPE cfg' = Some (VStr sct))
    /\ (forall log2 m,
          build_and_load build load cfg' sdv = (log2, ok m) ->
          model_from_checkpoint D1 D2 D3 torch_load build load (VDict ckpt)
          = (log ++ log2, ok (m, cfg'))).
Proof.
  destruct resolve_config_merged as (logf & cfg' & Eres & Hget & _ & Hev).
  eexists; exists cfg'. split; [exact Eres|]. split; [|split].
  - intros [-> ->]. unfold is_known_bug in *. cbn in *. split.
    + apply in_or_app. right. now left.
    + now rewrite Hget.
  - intros Hnot.
    assert (Hc : is_known_bug name sct = false).
    { unfold is_known_bug. destruct (String.eqb name "XPLOR") eqn:E1; trivial.
      destruct (String.eqb sct "MACE") eqn:E2; trivial.
      apply String.eqb_eq in E1, E2. tauto. }
    rewrite Hc in *. split.
    + rewrite app_nil_r. intros Hin.
      destruct (Hev _ Hin) as (k & v & Hkv). discriminate.
    + rewrite Hget, andb_false_r, Hsct. reflexivity.
  - intros log2 m Hbl.
    eapply eq_trans;
      [ eapply model_from_checkpoint_dict; eassumption | reflexivity ].
Qed.
End ConfigResolution.

(** The theorem on the legacy checkpoint, whose configuration lacks the
    default key "cutoff". *)
Lemma missing_default_is_filled_witness :
  exists log cfg',
    In (PrintDefaultUsed "cutoff" (VFloat (Fin (9 # 2)))) log
    /\ sget "cutoff" cfg' = Some (VFloat (Fin (9 # 2)))
    /\ sget KEY.OPTIMIZE_BY_REDUCE cfg' = Some (VBool true)
    /\ exists m, sample_loader (VDict legacy_checkpoint) = (log ++ [], ok (m, cfg')).
Proof.
  destruct (@missing_default_is_filled xrat xrat_ops
              sample_model_defaults sample_data_defaults sample_training_defaults
              no_torch_load (list string) sample_build nonstrict_load
              legacy_config (VBool true)
              [ (KEY.CUTOFF_FUNCTION_NAME, VStr "XPLOR") ] "XPLOR" "MACE"
              eq_refl eq_refl eq_refl eq_refl eq_refl
              legacy_checkpoint (VDict legacy_parameters)
              "cutoff" (VFloat (Fin (9 # 2)))
              eq_refl eq_refl eq_refl eq_refl)
    as (log & cfg' & _ & Hin & HK & Hkeep & Hret).
  exists log, cfg'. split; [exact Hin|]. split; [exact HK|].
  split; [exact (Hkeep KEY.OPTIMIZE_BY_REDUCE (VBool true) eq_refl)|].
  eexists. apply Hret. reflexivity.
Defined.

(** C2 as stated fails: a configuration that lacks the default key
    "cutoff" and whose optimize-by-reduce flag is false is rejected by the
    guard of lines 244-245, and one that lacks the flag itself, a default
    key of this table, fails on that same line, before any default is
    filled. *)
Lemma missing_default_can_fail :
  sget "cutoff"
    (defaults sample_model_defaults sample_data_defaults sample_training_defaults)
  = Some (VFloat (Fin (9 # 2)))
  /\ sget KEY.OPTIMIZE_BY_REDUCE
       (defaults sample_model_defaults sample_data_defaults sample_training_defaults)
     = Some (VBool true)
  /\ sget "cutoff" obsolete_config = None
  /\ sample_loader (VDict obsolete_checkpoint)
     = ([], raise (ValueError "This potential file is no longer supported"))
  /\ sample_loader (VDict flagless_checkpoint)
     = ([], raise (KeyError KEY.OPTIMIZE_BY_REDUCE)).
Proof. repeat split. Qed.

(** The theorem on the legacy checkpoint, whose configuration combines
    "XPLOR" with "MACE". *)
Lemma xplor_mace_is_downgraded_witness :
  exists log cfg',
    In WarnWrongCutoff log
    /\ sget KEY.SELF_CONNECTION_TYPE cfg' = Some (VStr "linear")
    /\ exists m, sample_loader (VDict legacy_checkpoint) = (log ++ [], ok (m, cfg')).
Proof.
  destruct (@xplor_mace_is_downgraded xrat xrat_ops
              sample_model_defaults sample_data_defaults sample_training_defaults
              no_torch_load (list string) sample_build nonstrict_load
              legacy_config (VBool true)
              [ (KEY.CUTOFF_FUNCTION_NAME, VStr "XPLOR") ] "XPLOR" "MACE"
              eq_refl eq_refl eq_refl eq_refl eq_refl
              legacy_checkpoint (VDict legacy_parameters)
              eq_refl eq_refl)
    as (log & cfg' & _ & Hyes & _ & Hret).
  destruct (Hyes (conj eq_refl eq_refl)) as [Hwarn Hlin].
  exists log, cfg'. split; [exact Hwarn|]. split; [exact Hlin|].
  eexists. apply Hret. reflexivity.
Defined.

(** C5 as stated fails: a configuration that combines "XPLOR" with "MACE"
    and whose optimize-by-reduce flag is false is rejected by the guard of
    lines 244-245, which precedes the correction of lines 259-270: the
    loader warns of nothing and returns no configuration. *)
Lemma xplor_mace_can_fail :
  sget KEY.CUTOFF_FUNCTION obsolete_xplor_config
  = Some (VDict [ (KEY.CUTOFF_FUNCTION_NAME, VStr "XPLOR") ])
  /\ sget KEY.SELF_CONNECTION_TYPE obsolete_xplor_config = Some (VStr "MACE")
  /\ sample_loader (VDict obsolete_xplor_checkpoint)
     = ([], raise (ValueError "This potential file is no longer supported")).
Proof. repeat split. Qed.

(** ** Invalid arguments *)

(** C3.  An object that is not a member of the loss-type enumeration makes
    [postprocess_output] raise [ValueError] as soon as the loop reaches it,
    whatever follows it in the list; a parity mode equal to none of "full",
    "even" and "sph" makes [infer_irreps_out] raise on its first line (the
    [assert], hence [AssertionError]); a checkpoint argument that is
    neither a string nor a dictionary makes [model_from_checkpoint] raise
    [ValueError] before it does anything else.  None of the three is
    caught or tried again. *)
Theorem invalid_arguments_raise {F : Type} {FO : FloatOps F}
    (output : @output_t F) (pre rest : list hashable) (results : results_t)
    (s : string)
    (Hpre : postprocess_output output pre = ok results)
    (full_tensor_product_simplified : Irreps.t -> Irreps.t -> Irreps.t)
    (irreps_x irreps_operand : Irreps.t)
    (drop_l fix_multiplicity : bool_or_int) (parity_mode : pystr)
    (Hmode : in_literals parity_mode ["full"; "even"; "sph"] = false)
    (D1 D2 D3 : @config_t F) (torch_load : string -> result (@pyval F))
    (Model : Type) (build : @config_t F -> result Model)
    (load : Model -> sdict (@pyval F) -> result (Model * list string * list string))
    (checkpoint : @pyval F)
    (Hcheckpoint : is_str_or_dict checkpoint = false) :
  postprocess_output output (pre ++ KStr s :: rest)
  = raise (ValueError ("Unknown loss type: " ++ s)%string)
  /\ infer_irreps_out full_tensor_product_simplified irreps_x
       irreps_operand drop_l parity_mode fix_multiplicity
     = raise (AssertionError "")
  /\ model_from_checkpoint D1 D2 D3 torch_load build load checkpoint
     = ([], raise (ValueError "checkpoint must be either str or dict")).
Proof.
  split; [|split].
  - unfold postprocess_output in *.
    rewrite (postprocess_loop_app _ _ (KStr s :: rest) _ Hpre). reflexivity.
  - unfold infer_irreps_out. now rewrite Hmode.
  - destruct checkpoint; try discriminate; reflexivity.
Qed.

(** The theorem on the string "virial" among the loss types, the parity
    mode "odd" and the integer 3 as a checkpoint. *)
Lemma invalid_arguments_raise_witness :
  postprocess_output energy_output [KLoss LossType.ENERGY; KStr "virial"; KLoss LossType.FORCE]
  = raise (ValueError "Unknown loss type: virial")
  /\ infer_irreps_out vector_products one_odd_vector
       scalar_and_odd_vector (PyBool false)
       (literal "odd") (PyBool false)
     = raise (AssertionError "")
  /\ sample_loader (VInt 3)
     = ([], raise (ValueError "checkpoint must be either str or dict")).
Proof.
  exact (@invalid_arguments_raise xrat xrat_ops energy_output
           [KLoss LossType.ENERGY] [KLoss LossType.FORCE] _ "virial" eq_refl
           vector_products one_odd_vector scalar_and_odd_vector
           (PyBool false) (PyBool false)
           (literal "odd") eq_refl
           sample_model_defaults sample_data_defaults sample_training_defaults
           no_torch_load (list string) sample_build nonstrict_load
           (VInt 3) eq_refl).
Defined.

(** ** Irreps-output inference *)

Section InferFacts.
Variable full_tensor_product_simplified : Irreps.t -> Irreps.t -> Irreps.t.

(** What the loop of lines 392-402 guarantees: a block that it keeps comes
    from a block of the product with the same degree and parity, is within
    the degree bound when one is set, and passes the parity rule whose
    literal the parity mode is identical to. *)
Lemma filter_loop_sound (irreps_out : Irreps.t) (drop_l : bool_or_int)
    (parity_mode : pystr) (fix_multiplicity : bool_or_int) (mul l p : Z) :
  In (mul, (l, p)) (filter_loop irreps_out drop_l parity_mode fix_multiplicity) ->
  (exists mul0, In (mul0, (l, p)) irreps_out)
  /\ (is_not_False drop_l = true -> (l <= int_value drop_l)%Z)
  /\ (is_literal parity_mode "even" = true -> p <> (-1)%Z)
  /\ (is_literal parity_mode "sph" = true -> p = ((-1) ^ l)%Z).
Proof.
  induction irreps_out as [|[mul0 [l0 p0]] rest IH]; cbn [filter_loop]; [intros []|].
  assert (Hrest : In (mul, (l, p))
                    (filter_loop rest drop_l parity_mode fix_multiplicity) ->
                  (exists mul1, In (mul1, (l, p)) ((mul0, (l0, p0)) :: rest))
                  /\ (is_not_False drop_l = true -> (l <= int_value drop_l)%Z)
                  /\ (is_literal parity_mode "even" = true -> p <> (-1)%Z)
                  /\ (is_literal parity_mode "sph" = true -> p = ((-1) ^ l)%Z)).
  { intros H. destruct (IH H) as ((mul1 & H1) & H2). split; trivial.
    exists mul1. now right. }
  destruct (is_not_False drop_l && (int_value drop_l <? l0)%Z) eqn:Edrop; trivial.
  destruct (is_literal parity_mode "even" && (p0 =? -1)%Z) eqn:Eeven; trivial.
  destruct (is_literal parity_mode "sph" && negb (p0 =? (-1) ^ l0)%Z) eqn:Esph; trivial.
  assert (Hhead : forall m, (m, (l0, p0)) = (mul, (l, p)) ->
                  (exists mul1, In (mul1, (l, p)) ((mul0, (l0, p0)) :: rest))
                  /\ (is_not_False drop_l = true -> (l <= int_value drop_l)%Z)
                  /\ (is_literal parity_mode "even" = true -> p <> (-1)%Z)
                  /\ (is_literal parity_mode "sph" = true -> p = ((-1) ^ l)%Z)).
  { intros m [= _ <- <-]. split; [exists mul0; now left|]. repeat split.
    - intros Hd. rewrite Hd in Edrop. cbn in Edrop. apply Z.ltb_ge in Edrop. exact Edrop.
    - intros He. rewrite He in Eeven. cbn in Eeven. now apply Z.eqb_neq.
    - intros Hs. rewrite Hs in Esph. cbn in Esph.
      apply negb_false_iff in Esph. now apply Z.eqb_eq. }
  destruct (truth fix_multiplicity); intros [H|H]; eauto.
Qed.

(** X26.  The three filters hold of every block returned whenever the parity
    mode is the very object of the literal. *)
Lemma infer_irreps_out_filters (irreps_x irreps_operand res : Irreps.t)
    (drop_l : bool_or_int) (parity_mode : pystr)
    (fix_multiplicity : bool_or_int) (mul l p : Z) :
  infer_irreps_out full_tensor_product_simplified irreps_x irreps_operand
    drop_l parity_mode fix_multiplicity = ok res ->
  In (mul, (l, p)) res ->
  (is_not_False drop_l = true -> (l <= int_value drop_l)%Z)
  /\ (is_literal parity_mode "even" = true -> p <> (-1)%Z)
  /\ (is_literal parity_mode "sph" = true -> p = ((-1) ^ l)%Z).
Proof.
  unfold infer_irreps_out, Irreps.Irreps_new.
  destruct (negb (in_literals parity_mode ["full"; "even"; "sph"])); [discriminate|].
  destruct (forallb Irreps.valid_elem _); [|discriminate].
  intros [= <-] Hin. now apply filter_loop_sound in Hin.
Qed.
End InferFacts.

(** C6 (the code departs from it).  Lines 396 and 398 compare the parity
    mode with the literals by identity ([is]), line 386 by equality.  A
    parity mode that is equal to "even" (to "sph") without being the
    interned object of the literal passes the assertion and is then
    filtered by neither rule: the product of 1x1o with 1x0e+1x1o comes back
    whole, with its odd block 1o under "even" and its block 1e, whose
    parity is not (-1)^1, under "sph".  With the literals themselves the
    two rules apply. *)
Theorem parity_filter_misses_equal_strings :
  in_literals runtime_even ["full"; "even"; "sph"] = true
  /\ infer_irreps_out vector_products one_odd_vector scalar_and_odd_vector
       (PyBool false) runtime_even (PyBool false)
     = ok [ (1, (0, 1)); (1, (1, -1)); (1, (1, 1)); (1, (2, 1)) ]%Z
  /\ infer_irreps_out vector_products one_odd_vector scalar_and_odd_vector
       (PyBool false) runtime_sph (PyBool false)
     = ok [ (1, (0, 1)); (1, (1, -1)); (1, (1, 1)); (1, (2, 1)) ]%Z
  /\ infer_irreps_out vector_products one_odd_vector scalar_and_odd_vector
       (PyBool false) (literal "even") (PyBool false)
     = ok [ (1, (0, 1)); (1, (1, 1)); (1, (2, 1)) ]%Z
  /\ infer_irreps_out vector_products one_odd_vector scalar_and_odd_vector
       (PyBool false) (literal "sph") (PyBool false)
     = ok [ (1, (0, 1)); (1, (1, -1)); (1, (2, 1)) ]%Z.
Proof. repeat split. Qed.

(** * Further properties *)

(** ** The guard and the configuration of the loader *)

Section LoaderGuard.
Context {F : Type} {FO : FloatOps F}.
Variable D1 D2 D3 : @config_t F.
Variable torch_load : string -> result (@pyval F).
Variable Model : Type.
Variable build : @config_t F -> result Model.
Variable load : Model -> sdict (@pyval F) -> result (Model * list string * list string).

(** X16.  A checkpoint whose optimize-by-reduce flag is false is refused with
    [ValueError] before anything is printed, filled or built. *)
Theorem obsolete_flag_is_fatal (ckpt : sdict (@pyval F)) (sdv flag : @pyval F)
    (cfg : @config_t F)
    (Hsd : sget "model_state_dict" ckpt = Some sdv)
    (Hcfg : sget "config" ckpt = Some (VDict cfg))
    (Hflag : sget KEY.OPTIMIZE_BY_REDUCE cfg = Some flag)
    (Hfalse : truthy flag = ok false) :
  model_from_checkpoint D1 D2 D3 torch_load build load (VDict ckpt)
  = ([], raise (ValueError "This potential file is no longer supported")).
Proof.
  unfold model_from_checkpoint, mret at 1, ok. rewrite mbind_pure.
  unfold subscript at 1 2, getitem. rewrite Hsd, Hcfg.
  unfold lift, ok. rewrite !mbind_pure.
  unfold resolve_config, subscript, getitem. rewrite Hflag.
  unfold lift, ok. rewrite mbind_pure. unfold ok in Hfalse. rewrite Hfalse.
  rewrite mbind_pure. reflexivity.
Qed.

(** X17.  The flag is read before the defaults are merged: a configuration
    without it fails with [KeyError], whatever default the tables give
    it. *)
Theorem missing_flag_is_never_filled (ckpt : sdict (@pyval F)) (sdv : @pyval F)
    (cfg : @config_t F)
    (Hsd : sget "model_state_dict" ckpt = Some sdv)
    (Hcfg : sget "config" ckpt = Some (VDict cfg))
    (Hflag : sget KEY.OPTIMIZE_BY_REDUCE cfg = None) :
  model_from_checkpoint D1 D2 D3 torch_load build load (VDict ckpt)
  = ([], raise (KeyError KEY.OPTIMIZE_BY_REDUCE)).
Proof.
  unfold model_from_checkpoint, mret at 1, ok. rewrite mbind_pure.
  unfold subscript at 1 2, getitem. rewrite Hsd, Hcfg.
  unfold lift, ok. rewrite !mbind_pure.
  unfold resolve_config, subscript, getitem. rewrite Hflag.
  reflexivity.
Qed.

(** What a successful resolution consists of. *)
Lemma resolve_config_inv (config : @pyval F) (log : list event)
    (cfg' : @config_t F) :
  resolve_config D1 D2 D3 config = (log, ok cfg') ->
  exists cfg logf filled b,
    config = VDict cfg
    /\ fill_defaults (defaults D1 D2 D3) cfg = (logf, ok filled)
    /\ is_xplor_mace (tensors_to_cpu filled) = ok b
    /\ cfg' = (if b
               then sset KEY.SELF_CONNECTION_TYPE (VStr "linear") (tensors_to_cpu filled)
               else tensors_to_cpu filled).
Proof.
  unfold resolve_config. intros H.
  destruct (subscript config KEY.OPTIMIZE_BY_REDUCE) as [e|flag] eqn:E1;
    [discriminate H|].
  unfold lift in H. rewrite mbind_pure in H.
  destruct (truthy flag) as [e|t] eqn:E2; [discriminate H|].
  rewrite mbind_pure in H. destruct t; [|discriminate H]. cbn [negb] in H.
  destruct config as [| | | | | |cfg|]; try discriminate H.
  destruct (fill_defaults_spec (defaults D1 D2 D3) cfg)
    as (logf & filled & Efill & _).
  rewrite Efill in H. unfold ok in H. rewrite mbind_logged in H.
  unfold correct_self_connection, lift in H.
  destruct (is_xplor_mace (tensors_to_cpu filled)) as [e|b] eqn:E3;
    [discriminate H|].
  rewrite mbind_pure in H.
  exists cfg, logf, filled, b. repeat split; trivial.
  destruct b; cbn in H; now inversion H.
Qed.

(** X19.  No value of a resolved configuration is a tensor left on another
    device than the CPU. *)
Theorem resolved_tensors_are_on_cpu (config : @pyval F) (log : list event)
    (cfg' : @config_t F) (k : string) (dev : device) (t : @tval F)
    (Hres : resolve_config D1 D2 D3 config = (log, ok cfg'))
    (Hk : sget k cfg' = Some (VTensor dev t)) :
  dev = CPU.
Proof.
  destruct (resolve_config_inv _ Hres) as (cfg & logf & filled & b & _ & _ & _ & ->).
  assert (G : forall c, sget k (tensors_to_cpu c) = Some (VTensor dev t) -> dev = CPU).
  { intros c Hc. rewrite sget_tensors_to_cpu in Hc.
    destruct (sget k c) as [v|]; [|discriminate]. cbn in Hc.
    destruct v; cbn in Hc; inversion Hc; reflexivity. }
  destruct b; [|eauto].
  destruct (String.eqb k KEY.SELF_CONNECTION_TYPE) eqn:E.
  - apply String.eqb_eq in E; subst k. rewrite sget_sset_same in Hk. discriminate.
  - apply String.eqb_neq in E. rewrite sget_sset_other in Hk by exact E. eauto.
Qed.

(** X20.  When the first load reports no missing key the parameters are taken
    as they are: nothing is remapped and the keys the model does not use
    are passed over without a warning. *)
Theorem direct_load_is_silent (ckpt : sdict (@pyval F)) (config : @pyval F)
    (sd : sdict (@pyval F)) (log : list event) (cfg' : config_t)
    (m m1 : Model) (unused : list string)
    (Hsd : sget "model_state_dict" ckpt = Some (VDict sd))
    (Hcfg : sget "config" ckpt = Some config)
    (Hres : resolve_config D1 D2 D3 config = (log, ok cfg'))
    (Hbuild : build cfg' = ok m)
    (Hload : load m sd = ok (m1, [], unused)) :
  model_from_checkpoint D1 D2 D3 torch_load build load (VDict ckpt)
  = (log, ok (m1, cfg')).
Proof.
  eapply eq_trans;
    [ eapply model_from_checkpoint_dict;
      [eassumption | eassumption | eassumption
      | eapply build_and_load_direct; eassumption]
    | cbn; now rewrite app_nil_r ].
Qed.
End LoaderGuard.

Lemma obsolete_flag_is_fatal_witness :
  sample_loader (VDict obsolete_checkpoint)
  = ([], raise (ValueError "This potential file is no longer supported")).
Proof.
  exact (@obsolete_flag_is_fatal xrat xrat_ops sample_model_defaults
           sample_data_defaults sample_training_defaults no_torch_load
           (list string) sample_build nonstrict_load obsolete_checkpoint
           (VDict legacy_parameters) (VBool false) obsolete_config
           eq_refl eq_refl eq_refl eq_refl).
Defined.

Lemma missing_flag_is_never_filled_witness :
  sget KEY.OPTIMIZE_BY_REDUCE
    (defaults sample_model_defaults sample_data_defaults sample_training_defaults)
  = Some (VBool true)
  /\ sample_loader (VDict flagless_checkpoint)
     = ([], raise (KeyError KEY.OPTIMIZE_BY_REDUCE)).
Proof.
  split; [reflexivity|].
  exact (@missing_flag_is_never_filled xrat xrat_ops sample_model_defaults
           sample_data_defaults sample_training_defaults no_torch_load
           (list string) sample_build nonstrict_load flagless_checkpoint
           (VDict legacy_parameters) [] eq_refl eq_refl eq_refl).
Defined.

Lemma resolved_tensors_are_on_cpu_witness :
  sget "shift" config_with_tensor
  = Some (VTensor (CUDA 0) (TFloat {| shape := [1%nat]; data := [Fin 1] |}))
  /\ sget "shift" resolved_with_tensor
     = Some (VTensor CPU (TFloat {| shape := [1%nat]; data := [Fin 1] |}))
  /\ CPU = CPU.
Proof.
  split; [reflexivity|]. split; [reflexivity|].
  exact (@resolved_tensors_are_on_cpu xrat xrat_ops sample_model_defaults
           sample_data_defaults sample_training_defaults
           (VDict config_with_tensor) (fst resolution_with_tensor)
           resolved_with_tensor "shift" CPU
           (TFloat {| shape := [1%nat]; data := [Fin 1] |})
           eq_refl eq_refl).
Defined.

Lemma direct_load_is_silent_witness :
  sample_loader (VDict current_checkpoint)
  = (fst legacy_resolution, ok (current_state_dict_names, legacy_resolved)).
Proof.
  exact (@direct_load_is_silent xrat xrat_ops sample_model_defaults
           sample_data_defaults sample_training_defaults no_torch_load
           (list string) sample_build nonstrict_load current_checkpoint
           (VDict legacy_config) current_parameters (fst legacy_resolution)
           legacy_resolved current_state_dict_names current_state_dict_names
           ["extra.weight"] eq_refl eq_refl eq_refl eq_refl eq_refl).
Defined.

(** ** The deprecated loader and the merged defaults *)

Section DeprecatedLoaderFacts.
Context {F : Type} {FO : FloatOps F}.
Variable D1 D2 D3 : @config_t F.
Variable torch_load : string -> result (@pyval F).
Variable Model : Type.
Variable build : @config_t F -> result Model.
Variable load : Model -> sdict (@pyval F) -> result (Model * list string * list string).

(** X25.  The deprecated loader has neither the guard nor the second load:
    whatever the optimize-by-reduce flag, and whatever keys the single
    load reports missing or unused, it returns the model, printing the
    defaults it filled and nothing else. *)
Theorem deprecated_loader_accepts_anything (ckpt : sdict (@pyval F))
    (sd : sdict (@pyval F)) (cfg filled : @config_t F) (logf : list event)
    (m m1 : Model) (missing unused : list string)
    (Hsd : sget "model_state_dict" ckpt = Some (VDict sd))
    (Hcfg : sget "config" ckpt = Some (VDict cfg))
    (Hfill : fill_defaults (defaults D1 D2 D3) cfg = (logf, ok filled))
    (Hbuild : build (tensors_to_cpu filled) = ok m)
    (Hload : load m sd = ok (m1, missing, unused)) :
  load_model_from_checkpoint D1 D2 D3 torch_load build load (VDict ckpt)
  = (logf, ok m1).
Proof.
  unfold load_model_from_checkpoint, mret at 1, ok. rewrite mbind_pure.
  unfold subscript, getitem. rewrite Hsd, Hcfg.
  unfold lift, ok. rewrite !mbind_pure.
  unfold ok in Hfill. rewrite Hfill, mbind_logged.
  unfold ok in Hbuild. rewrite Hbuild, mbind_pure.
  unfold ok in Hload. rewrite Hload, mbind_pure.
  cbn. now rewrite app_nil_r.
Qed.
End DeprecatedLoaderFacts.

Lemma deprecated_loader_accepts_anything_witness :
  sget KEY.OPTIMIZE_BY_REDUCE obsolete_config = Some (VBool false)
  /\ load_model_from_checkpoint sample_model_defaults sample_data_defaults
       sample_training_defaults no_torch_load sample_build nonstrict_load
       (VDict obsolete_checkpoint)
     = (fst obsolete_filling, ok current_state_dict_names).
Proof.
  split; [reflexivity|].
  apply deprecated_loader_accepts_anything
    with (sd := legacy_parameters) (cfg := obsolete_config)
         (filled := obsolete_filled) (m := current_state_dict_names)
         (missing := current_state_dict_names)
         (unused := keys legacy_state_dict); reflexivity.
Defined.

Section DefaultsFacts.
Context {V : Type}.

Lemma sget_dict_update (b a : sdict V) (k : string) :
  NoDup (keys b) ->
  sget k (dict_update a b)
  = match sget k b with Some v => Some v | None => sget k a end.
Proof.
  unfold dict_update. revert a.
  induction b as [|[k0 v0] b IH]; intros a Hnd; [reflexivity|].
  cbn [fold_left fst snd]. cbn [keys map fst] in Hnd.
  inversion Hnd as [|? ? Hnotin Hnd']; subst.
  rewrite IH by exact Hnd'. rewrite sget_cons.
  destruct (String.eqb k k0) eqn:E.
  - apply String.eqb_eq in E; subst k0.
    assert (N : sget k b = None).
    { apply (dict_get_None_iff _ string_eqb_spec). exact Hnotin. }
    rewrite N. apply sget_sset_same.
  - apply String.eqb_neq in E.
    destruct (sget k b); [reflexivity|].
    apply sget_sset_other. congruence.
Qed.
End DefaultsFacts.

(** X18.  A key defined by several default tables takes the value of the
    training table, else of the data table, else of the model table. *)
Theorem defaults_precedence {F : Type} (D1 D2 D3 : @config_t F) (k : string)
    (H1 : NoDup (keys D1)) (H2 : NoDup (keys D2)) (H3 : NoDup (keys D3)) :
  sget k (defaults D1 D2 D3)
  = match sget k D3 with
    | Some v => Some v
    | None => match sget k D2 with
              | Some v => Some v
              | None => sget k D1
              end
    end.
Proof.
  unfold defaults.
  rewrite !sget_dict_update by assumption.
  destruct (sget k D3); [reflexivity|].
  destruct (sget k D2); [reflexivity|].
  destruct (sget k D1); reflexivity.
Qed.

Lemma defaults_precedence_witness :
  sget "epoch" (defaults model_table data_table training_table)
  = match sget "epoch" training_table with
    | Some v => Some v
    | None => match sget "epoch" data_table with
              | Some v => Some v
              | None => sget "epoch" model_table
              end
    end.
Proof.
  apply (@defaults_precedence xrat model_table data_table training_table "epoch").
  - repeat constructor; cbn; intuition discriminate.
  - repeat constructor; cbn; intuition discriminate.
  - repeat constructor; cbn; intuition discriminate.
Defined.

(** ** More on the legacy names *)

Section DictInvariant.
Context {K V : Type} (eqb : K -> K -> bool).
Hypothesis eqb_spec : forall a b, eqb a b = true <-> a = b.

(** Assignment keeps the keys of a dictionary distinct. *)
Lemma NoDup_keys_dict_set (k : K) (v : V) (d : dict K V) :
  NoDup (keys d) -> NoDup (keys (dict_set eqb k v d)).
Proof.
  intros Hnd. rewrite keys_dict_set.
  destruct (dict_mem eqb k d) eqn:E; trivial.
  assert (Hk : ~ In k (keys d)).
  { apply (dict_get_None_iff _ eqb_spec). unfold dict_mem in E.
    destruct (dict_get eqb k d); [discriminate | reflexivity]. }
  apply NoDup_app; [exact Hnd | repeat constructor; intros [] | ].
  intros a Ha [<-|[]]. contradiction.
Qed.
End DictInvariant.

Lemma find_snoc {A} (f : A -> bool) (l : list A) (x : A) :
  find f (l ++ [x])
  = match find f l with
    | Some y => Some y
    | None => if f x then Some x else None
    end.
Proof.
  induction l as [|a l IH]; cbn; [reflexivity|].
  destruct (f a); [reflexivity | exact IH].
Qed.

Section MapOldModelMore.
Context {V : Type}.

Lemma NoDup_keys_fold_remap (sd acc : sdict V) :
  NoDup (keys acc) -> NoDup (keys (fold_left remap_step sd acc)).
Proof.
  revert acc; induction sd as [|[k v] sd IH]; intros acc H; cbn [fold_left]; trivial.
  apply IH. unfold remap_step, sset.
  now apply (NoDup_keys_dict_set _ string_eqb_spec).
Qed.

Lemma sget_fold_remap (sd acc : sdict V) (k' : string) :
  sget k' (fold_left remap_step sd acc)
  = match find (fun kv => String.eqb (map_key (fst kv)) k') (rev sd) with
    | Some kv => Some (snd kv)
    | None => sget k' acc
    end.
Proof.
  revert acc; induction sd as [|[k v] sd IH]; intros acc; cbn [fold_left rev].
  - reflexivity.
  - rewrite IH, find_snoc. cbn [fst snd].
    destruct (find _ (rev sd)); [reflexivity|].
    change (remap_step acc (k, v)) with (sset (map_key k) v acc).
    destruct (String.eqb (map_key k) k') eqn:E.
    + apply String.eqb_eq in E; subst k'. apply sget_sset_same.
    + apply String.eqb_neq in E. apply sget_sset_other. congruence.
Qed.

(** X13.  The value found under a key of the remapped dictionary is the value
    of the last old item whose key is mapped to it, so that of two old
    keys with the same image the later one wins; a key that is the image
    of no old key is absent. *)
Theorem map_old_model_lookup (sd : sdict V) (k' : string) :
  sget k' (_map_old_model sd)
  = option_map snd
      (find (fun kv => String.eqb (map_key (fst kv)) k') (rev sd)).
Proof.
  rewrite map_old_model_fold, sget_fold_remap.
  destruct (find _ (rev sd)); reflexivity.
Qed.

Lemma current_names_are_not_legacy (old new : string) :
  sget old _old_module_name_mapping = Some new ->
  str_has dot new = false /\ sget new _old_module_name_mapping = None.
Proof.
  intros H. apply (dict_get_In _ string_eqb_spec) in H.
  assert (Hall : forallb (fun kv =>
                   negb (str_has dot (snd kv))
                   && negb (smem (snd kv) _old_module_name_mapping))
                   _old_module_name_mapping = true) by reflexivity.
  rewrite forallb_forall in Hall. specialize (Hall _ H). cbn [snd] in Hall.
  apply andb_true_iff in Hall as [H1 H2].
  apply negb_true_iff in H1. apply negb_true_iff in H2. split; trivial.
  unfold smem, dict_mem in H2. unfold sget.
  destruct (dict_get String.eqb new _old_module_name_mapping);
    [discriminate | reflexivity].
Qed.

(** A mapped key is a key of the current scheme. *)
Lemma map_key_idempotent (k : string) : map_key (map_key k) = map_key k.
Proof.
  destruct (sget (key_name k) _old_module_name_mapping) as [new|] eqn:E.
  - assert (Hk : map_key k = (new ++ String dot (follower k))%string).
    { unfold map_key. now rewrite E. }
    rewrite Hk. apply map_key_not_legacy.
    destruct (current_names_are_not_legacy _ E) as [Hdot Hnone].
    unfold key_name. rewrite (str_split_prefix _ _ Hdot). exact Hnone.
  - rewrite (map_key_not_legacy _ E). now apply map_key_not_legacy.
Qed.

(** X14.  Remapping is idempotent: a remapped dictionary is in the current
    scheme, and remapping it again returns it as it is. *)
Theorem map_old_model_idempotent (sd : sdict V) :
  _map_old_model (_map_old_model sd) = _map_old_model sd.
Proof.
  rewrite (map_old_model_fold (_map_old_model sd)).
  apply (fold_remap_identity (_map_old_model sd) []).
  - cbn. rewrite map_old_model_fold. apply NoDup_keys_fold_remap. constructor.
  - intros k Hk. apply keys_map_old_model in Hk as (k0 & _ & <-).
    apply map_key_idempotent.
Qed.

(** X15.  The remapped dictionary never has two items under one key and
    never more items than the old one. *)
Theorem map_old_model_size (sd : sdict V) :
  NoDup (keys (_map_old_model sd))
  /\ (List.length (_map_old_model sd) <= List.length sd)%nat.
Proof.
  assert (Hnd : NoDup (keys (_map_old_model sd))).
  { rewrite map_old_model_fold. apply NoDup_keys_fold_remap. constructor. }
  split; trivial.
  assert (Hincl : incl (keys (_map_old_model sd)) (map map_key (keys sd))).
  { intros k Hk. apply keys_map_old_model in Hk as (k0 & H0 & <-).
    now apply in_map. }
  pose proof (NoDup_incl_length Hnd Hincl) as L.
  unfold keys in L. now rewrite !length_map in L.
Qed.
End MapOldModelMore.

(** Two old keys with one image: the later value is kept, in the place of
    the first. *)
Example map_old_model_collision :
  _map_old_model colliding_state_dict
  = [ ("0_convolution.denominator", 3%nat);
      ("edge_embedding.basis.coeffs", 2%nat) ].
Proof. reflexivity. Qed.

(** The renaming on a key of a convolution layer with the misspelling. *)
Lemma map_key_legacy_witness :
  map_key "3 convolution.denumerator"
  = "3_convolution.denominator".
Proof.
  exact (map_key_legacy "3 convolution" "denumerator" eq_refl).
Defined.

(** The partition fails on the two labelled structures of [force_output]. *)
Lemma with_label_force_raises_witness :
  exists e,
    postprocess_output_with_label force_output [KLoss LossType.FORCE] = raise e.
Proof.
  apply (@with_label_force_raises xrat xrat_ops force_output
           [KLoss LossType.FORCE] "train" ["valid"]).
  - now left.
  - reflexivity.
Defined.

(** ** More on the output signature *)

Section InferMore.
Variable full_tensor_product_simplified : Irreps.t -> Irreps.t -> Irreps.t.

Lemma filter_loop_fixed (irreps_out : Irreps.t) (drop_l : bool_or_int)
    (parity_mode : pystr) (fix_multiplicity : bool_or_int) (mul l p : Z) :
  truth fix_multiplicity = true ->
  In (mul, (l, p)) (filter_loop irreps_out drop_l parity_mode fix_multiplicity) ->
  mul = int_value fix_multiplicity.
Proof.
  intros Hfix.
  induction irreps_out as [|[mul0 [l0 p0]] rest IH]; cbn [filter_loop]; [intros []|].
  rewrite Hfix.
  destruct (is_not_False drop_l && (int_value drop_l <? l0)%Z); trivial.
  destruct (is_literal parity_mode "even" && (p0 =? -1)%Z); trivial.
  destruct (is_literal parity_mode "sph" && negb (p0 =? (-1) ^ l0)%Z); trivial.
  intros [[= <- _ _]|H]; auto.
Qed.

(** X27.  A fixed multiplicity that counts as true replaces the multiplicity
    of every block returned: each has the multiplicity [fix_multiplicity],
    which is 1 when the argument is [True]. *)
Theorem fix_multiplicity_is_uniform (irreps_x irreps_operand res : Irreps.t)
    (drop_l : bool_or_int) (parity_mode : pystr)
    (fix_multiplicity : bool_or_int) (mul l p : Z)
    (Hres : infer_irreps_out full_tensor_product_simplified irreps_x
              irreps_operand drop_l parity_mode fix_multiplicity = ok res)
    (Hfix : truth fix_multiplicity = true)
    (Hin : In (mul, (l, p)) res) :
  mul = int_value fix_multiplicity.
Proof.
  unfold infer_irreps_out, Irreps.Irreps_new in Hres.
  destruct (negb (in_literals parity_mode ["full"; "even"; "sph"])); [discriminate|].
  destruct (forallb Irreps.valid_elem _); [|discriminate].
  injection Hres as <-. eapply filter_loop_fixed; eassumption.
Qed.

(** X28.  With the default arguments (no degree bound, mode "full", no fixed
    multiplicity) nothing is filtered: the signature returned is the
    simplified product itself, in its order.  Any string equal to "full"
    will do, and so will the integer 0 as the fixed multiplicity. *)
Theorem full_mode_returns_the_product (irreps_x irreps_operand : Irreps.t)
    (parity_mode : pystr) (fix_multiplicity : bool_or_int)
    (Hmode : text parity_mode = "full")
    (Hfix : truth fix_multiplicity = false)
    (Hvalid : forallb Irreps.valid_elem
                (full_tensor_product_simplified irreps_x irreps_operand) = true) :
  infer_irreps_out full_tensor_product_simplified irreps_x irreps_operand
    (PyBool false) parity_mode fix_multiplicity
  = ok (full_tensor_product_simplified irreps_x irreps_operand).
Proof.
  assert (Hid : forall prod,
            filter_loop prod (PyBool false) parity_mode fix_multiplicity = prod).
  { induction prod as [|[m [l p]] prod IH]; cbn [filter_loop]; [reflexivity|].
    rewrite Hfix, IH. unfold is_literal. rewrite Hmode.
    replace (String.eqb "full" "even") with false by reflexivity.
    replace (String.eqb "full" "sph") with false by reflexivity.
    rewrite !andb_false_r. reflexivity. }
  unfold infer_irreps_out, in_literals. rewrite Hmode, Hid.
  unfold Irreps.Irreps_new. rewrite Hvalid. reflexivity.
Qed.
End InferMore.

Lemma infer_irreps_out_filters_witness :
  (is_not_False (PyInt 1) = true -> (1 <= int_value (PyInt 1))%Z)
  /\ (is_literal (literal "sph") "even" = true -> (-1)%Z <> (-1)%Z)
  /\ (is_literal (literal "sph") "sph" = true -> (-1)%Z = ((-1) ^ 1)%Z).
Proof.
  apply (@infer_irreps_out_filters vector_products one_odd_vector
           scalar_and_odd_vector [ (1, (0, 1)); (1, (1, -1)) ]%Z
           (PyInt 1) (literal "sph") (PyBool false) 1%Z 1%Z (-1)%Z).
  - reflexivity.
  - right; left; reflexivity.
Defined.

Lemma fix_multiplicity_is_uniform_witness :
  infer_irreps_out vector_products one_odd_vector scalar_and_odd_vector
    (PyBool false) (literal "full") (PyBool true)
  = ok [ (1, (0, 1)); (1, (1, -1)); (1, (1, 1)); (1, (2, 1)) ]%Z
  /\ 1%Z = int_value (PyBool true).
Proof.
  split; [reflexivity|].
  apply (@fix_multiplicity_is_uniform vector_products one_odd_vector
           scalar_and_odd_vector
           [ (1, (0, 1)); (1, (1, -1)); (1, (1, 1)); (1, (2, 1)) ]%Z
           (PyBool false) (literal "full") (PyBool true) 1%Z 2%Z 1%Z).
  - reflexivity.
  - reflexivity.
  - right; right; right; left; reflexivity.
Defined.

Lemma full_mode_returns_the_product_witness :
  infer_irreps_out vector_products one_odd_vector scalar_and_odd_vector
    (PyBool false) {| interned := false; text := "full" |} (PyInt 0)
  = ok (vector_products one_odd_vector scalar_and_odd_vector).
Proof.
  apply (@full_mode_returns_the_product vector_products one_odd_vector
           scalar_and_odd_vector {| interned := false; text := "full" |} (PyInt 0));
    reflexivity.
Defined.

(** ** More on the batch splitter *)

Section SplitterMore.
Context {F : Type} {FO : FloatOps F}.

Lemma split_tensor_bad_sum {A} (t : tensor A) (sizes : list Z) (n : nat)
    (rest : list nat) :
  shape t = n :: rest ->
  fold_right Z.add 0%Z sizes <> Z.of_nat n ->
  exists msg, split_tensor t sizes = raise (RuntimeError msg).
Proof.
  intros Hs Hsum. unfold split_tensor. rewrite Hs.
  replace (fold_right Z.add 0%Z sizes =? Z.of_nat n)%Z with false
    by (symmetry; now apply Z.eqb_neq).
  rewrite andb_false_r. eauto.
Qed.

(** X2.  A batch whose per-structure atom counts do not add up to the number
    of rows of its atomic energies is not split: the splitter raises the
    tensor engine's [RuntimeError] and returns no record at all. *)
Theorem to_atom_graph_list_miscounted (b : @batch F) (k n : nat)
    (counts : list Z) (ae : @tval F) (rest : list nat)
    (Hcounts : sget KEY.NUM_ATOMS (fields b)
               = Some (OTensor (TInt {| shape := [k]; data := counts |})))
    (Hae : sget KEY.ATOMIC_ENERGY (fields b) = Some (OTensor ae))
    (Hshape : tshape ae = n :: rest)
    (Hsum : fold_right Z.add 0%Z counts <> Z.of_nat n) :
  exists msg, to_atom_graph_list b = raise (RuntimeError msg).
Proof.
  unfold to_atom_graph_list, get_tensor, getitem.
  rewrite Hcounts. cbn [rbind ok tolist_counts shape data]. rewrite Hae.
  cbn [rbind ok].
  destruct ae as [t|t]; cbn [tshape] in Hshape; cbn [torch_split];
    destruct (split_tensor_bad_sum t counts Hshape Hsum) as [msg ->];
    exists msg; reflexivity.
Qed.
End SplitterMore.

Lemma to_atom_graph_list_miscounted_witness :
  exists msg, to_atom_graph_list miscounted_batch = raise (RuntimeError msg).
Proof.
  apply (@to_atom_graph_list_miscounted xrat miscounted_batch 2%nat 8%nat
           [3%Z; 4%Z] (TFloat {| shape := [8%nat; 1%nat]; data := ramp 8 |})
           [1%nat]).
  - reflexivity.
  - reflexivity.
  - reflexivity.
  - cbn. lia.
Defined.

(** ** More on the output postprocessor and the label partition *)

Section PostprocessMore.
Context {F : Type} {FO : FloatOps F}.

Lemma postprocess_loop_NoDup (output : @output_t F) (lts : list hashable)
    (acc results : results_t) :
  postprocess_loop output lts acc = ok results ->
  NoDup (keys acc) -> NoDup (keys results).
Proof.
  revert acc; induction lts as [|lt lts IH]; intros acc; cbn [postprocess_loop].
  - now intros [= ->].
  - destruct (postprocess_one output lt) as [e|entry]; cbn [rbind]; [discriminate|].
    intros H Hnd. apply (IH _ H).
    now apply (NoDup_keys_dict_set _ hashable_eqb_spec).
Qed.

(** X7.  The results hold one entry per distinct loss type requested,
    however often it is requested: the keys are distinct, a loss type is a
    key exactly when it is requested, and its entry is the triple computed
    from the output for it. *)
Theorem postprocess_output_entries (output : @output_t F)
    (lts : list hashable) (results : results_t)
    (Hres : postprocess_output output lts = ok results) :
  NoDup (keys results)
  /\ (forall lt, In lt (keys results) <-> In lt lts)
  /\ (forall lt, In lt lts ->
        exists entry, postprocess_one output lt = ok entry
                      /\ dict_get hashable_eqb lt results = Some entry).
Proof.
  unfold postprocess_output in Hres. split; [|split].
  - eapply postprocess_loop_NoDup; [exact Hres | constructor].
  - intros lt; split; intros H.
    + pose proof Hres as Hk. eapply postprocess_loop_keys in Hk; [|exact H].
      destruct Hk as [[]|[Hin _]]. exact Hin.
    + pose proof Hres as Hg. eapply postprocess_loop_get in Hg; [|exact H].
      destruct Hg as (entry & _ & Hget).
      destruct (in_dec hashable_eq_dec lt (keys results)) as [Hin|Hn]; trivial.
      apply (dict_get_None_iff _ hashable_eqb_spec) in Hn. congruence.
  - intros lt H. eapply postprocess_loop_get; eassumption.
Qed.

Lemma tslice_defined (i j : Z) (t : @tval F) :
  tshape t <> [] -> exists p, tslice i j t = ok p.
Proof.
  destruct t as [x|x]; cbn [tshape tslice]; unfold slice_tensor;
    destruct (shape x); intros H; try congruence; eexists; reflexivity.
Qed.

(** The entries of the results have at least one dimension when the atom
    counts have. *)
Lemma postprocess_one_rank (output : @output_t F) (lt : hashable)
    (pred ref : @tval F) (vdim : Z) :
  (forall n, get_tensor output KEY.NUM_ATOMS = ok n -> tshape n <> []) ->
  postprocess_one output lt = ok (pred, ref, vdim) ->
  tshape pred <> [] /\ tshape ref <> [].
Proof.
  intros Hn.
  assert (Hflat : forall t : @tval F, tshape (reshape_flat t) <> []).
  { intros [x|x]; cbn; discriminate. }
  destruct lt as [[| |]|s]; cbn [postprocess_one].
  - destruct (get_tensor output KEY.NUM_ATOMS) as [e|n] eqn:En; [discriminate|].
    cbn [rbind].
    destruct (get_tensor output KEY.PRED_TOTAL_ENERGY) as [e|pe]; [discriminate|].
    cbn [rbind]. unfold torch_div at 1.
    destruct (shape_eqb (tshape pe) (tshape n)) eqn:E1; [|discriminate].
    cbn [rbind].
    destruct (get_tensor output KEY.ENERGY) as [e|re]; [discriminate|].
    cbn [rbind]. unfold torch_div.
    destruct (shape_eqb (tshape re) (tshape n)) eqn:E2; [|discriminate].
    cbn [rbind]. intros [= <- <- _]. cbn [tshape shape].
    unfold shape_eqb in E1, E2.
    destruct (list_eq_dec Nat.eq_dec (tshape pe) (tshape n)) as [->|]; [|discriminate].
    destruct (list_eq_dec Nat.eq_dec (tshape re) (tshape n)) as [->|]; [|discriminate].
    split; now apply Hn.
  - destruct (get_tensor output KEY.PRED_FORCE); [discriminate|]. cbn [rbind].
    destruct (get_tensor output KEY.FORCE); [discriminate|]. cbn [rbind].
    intros [= <- <- _]. split; apply Hflat.
  - destruct (get_tensor output KEY.PRED_STRESS); [discriminate|]. cbn [rbind].
    destruct (get_tensor output KEY.STRESS); [discriminate|]. cbn [rbind].
    intros [= <- <- _]. split; cbn; discriminate.
  - discriminate.
Qed.
End PostprocessMore.

Section LabelMore.
Context {F : Type} {FO : FloatOps F}.

Lemma labeled_get_sset (labeled : @labeled_t F) (label label0 : string)
    (inner : dict hashable (@tval F * @tval F)) (lt lt0 : hashable)
    (pr : @tval F * @tval F) :
  sget label labeled = Some inner ->
  labeled_get (sset label (dict_set hashable_eqb lt pr inner) labeled) label0 lt0
  = if String.eqb label0 label && hashable_eqb lt0 lt
    then Some pr
    else labeled_get labeled label0 lt0.
Proof.
  intros Hin. unfold labeled_get.
  destruct (String.eqb label0 label) eqn:El.
  - apply String.eqb_eq in El; subst label0. rewrite sget_sset_same, Hin.
    destruct (hashable_eqb lt0 lt) eqn:Et; cbn [andb].
    + apply hashable_eqb_spec in Et; subst lt0.
      apply (dict_get_set_same _ hashable_eqb_spec).
    + apply (dict_get_set_other _ hashable_eqb_spec).
      intros ->. rewrite (eqb_refl_of_spec _ hashable_eqb_spec) in Et. discriminate.
  - apply String.eqb_neq in El. rewrite sget_sset_other by exact El. reflexivity.
Qed.

Lemma keys_sset_present {V} (k : string) (v v0 : V) (d : sdict V) :
  sget k d = Some v0 -> keys (sset k v d) = keys d.
Proof.
  intros H. unfold sset. rewrite keys_dict_set. unfold dict_mem.
  unfold sget in H. now rewrite H.
Qed.

(** The loop over the structures for a loss type other than FORCE, on
    labels that are keys of the partition. *)
Lemma label_loop_spec (results : @results_t F) (lt : hashable)
    (pred ref : @tval F) (vdim : Z) :
  lt <> KLoss LossType.FORCE ->
  tshape pred <> [] -> tshape ref <> [] ->
  forall (labels : list string) (idx : nat) (i_from : Z) (labeled : labeled_t),
  (forall l, In l labels -> In l (keys labeled)) ->
  exists labeled',
    label_loop results lt pred ref vdim labels idx i_from labeled = ok labeled'
    /\ keys labeled' = keys labeled
    /\ (forall label lt0, lt0 <> lt ->
          labeled_get labeled' label lt0 = labeled_get labeled label lt0)
    /\ (forall label lt0, ~ In label labels ->
          labeled_get labeled' label lt0 = labeled_get labeled label lt0)
    /\ (NoDup labels ->
        forall j label, nth_error labels j = Some label ->
          exists p r,
            labeled_get labeled' label lt = Some (p, r)
            /\ tslice (i_from + Z.of_nat j * vdim)
                      (i_from + (Z.of_nat j + 1) * vdim) pred = ok p
            /\ tslice (i_from + Z.of_nat j * vdim)
                      (i_from + (Z.of_nat j + 1) * vdim) ref = ok r).
Proof.
  intros Hlt Hp Hr.
  induction labels as [|label rest IH]; intros idx i_from labeled Hkeys.
  - exists labeled. cbn [label_loop]. repeat split; trivial.
    intros _ [|j] label H; discriminate H.
  - cbn [label_loop].
    assert (Hto : match lt with
                  | KLoss LossType.FORCE =>
                      n <- results_num_atoms results idx ;;
                      ok (i_from + vdim * n)%Z
                  | _ => ok (i_from + vdim)%Z
                  end = ok (i_from + vdim)%Z).
    { destruct lt as [[| |]|s]; trivial. congruence. }
    rewrite Hto. cbn [rbind ok].
    destruct (tslice_defined i_from (i_from + vdim) pred Hp) as [p Ep].
    destruct (tslice_defined i_from (i_from + vdim) ref Hr) as [r Er].
    unfold ok in Ep, Er. rewrite Ep, Er. cbn [rbind].
    assert (Hin : In label (keys labeled)) by (apply Hkeys; now left).
    destruct (sget label labeled) as [inner|] eqn:Einner.
    2:{ apply (dict_get_None_iff _ string_eqb_spec) in Einner. contradiction. }
    unfold getitem. rewrite Einner. cbn [rbind ok].
    set (labeled1 := sset label (dict_set hashable_eqb lt (p, r) inner) labeled).
    assert (Hk1 : keys labeled1 = keys labeled)
      by (eapply keys_sset_present; exact Einner).
    destruct (IH (S idx) (i_from + vdim)%Z labeled1)
      as (labeled' & E & Hk & Hother & Hout & Hnd).
    { intros l Hl. rewrite Hk1. apply Hkeys. now right. }
    exists labeled'. split; [exact E|]. split; [congruence|]. split; [|split].
    + intros label0 lt0 Hne. rewrite (Hother _ _ Hne). unfold labeled1.
      rewrite labeled_get_sset by exact Einner.
      replace (hashable_eqb lt0 lt) with false
        by (symmetry; now apply (eqb_false_of_spec _ hashable_eqb_spec)).
      now rewrite andb_false_r.
    + intros label0 lt0 Hnot.
      rewrite Hout by (intros H; apply Hnot; now right).
      unfold labeled1. rewrite labeled_get_sset by exact Einner.
      replace (String.eqb label0 label) with false; [reflexivity|].
      symmetry. apply String.eqb_neq. intros ->. apply Hnot. now left.
    + intros Hnodup j label0 Hj. inversion Hnodup as [|? ? Hnotin Hnodup']; subst.
      destruct j as [|j]; cbn [nth_error] in Hj.
      * injection Hj as <-. exists p, r.
        replace (i_from + Z.of_nat 0 * vdim)%Z with i_from by lia.
        replace (i_from + (Z.of_nat 0 + 1) * vdim)%Z with (i_from + vdim)%Z by lia.
        repeat split; trivial.
        rewrite (Hout _ lt Hnotin). unfold labeled1.
        rewrite labeled_get_sset by exact Einner.
        now rewrite String.eqb_refl, (eqb_refl_of_spec _ hashable_eqb_spec).
      * destruct (Hnd Hnodup' j label0 Hj) as (p' & r' & G & Gp & Gr).
        exists p', r'.
        replace (i_from + Z.of_nat (S j) * vdim)%Z
          with (i_from + vdim + Z.of_nat j * vdim)%Z by lia.
        replace (i_from + (Z.of_nat (S j) + 1) * vdim)%Z
          with (i_from + vdim + (Z.of_nat j + 1) * vdim)%Z by lia.
        repeat split; trivial.
Qed.

(** The loop over the loss types: the slices stored for one loss type are
    not touched while the later ones are processed. *)
Lemma loss_loop_spec (results : @results_t F) (labels : list string) :
  NoDup labels ->
  forall (items : list (hashable * triple)) (labeled : labeled_t),
  NoDup (keys items) ->
  (forall lt pred ref vdim, In (lt, (pred, ref, vdim)) items ->
     lt <> KLoss LossType.FORCE /\ tshape pred <> [] /\ tshape ref <> []) ->
  (forall l, In l labels -> In l (keys labeled)) ->
  exists labeled',
    loss_loop results items labels labeled = ok labeled'
    /\ keys labeled' = keys labeled
    /\ (forall label lt0, ~ In lt0 (keys items) ->
          labeled_get labeled' label lt0 = labeled_get labeled label lt0)
    /\ (forall lt pred ref vdim j label,
          In (lt, (pred, ref, vdim)) items ->
          nth_error labels j = Some label ->
          exists p r,
            labeled_get labeled' label lt = Some (p, r)
            /\ tslice (Z.of_nat j * vdim) ((Z.of_nat j + 1) * vdim) pred = ok p
            /\ tslice (Z.of_nat j * vdim) ((Z.of_nat j + 1) * vdim) ref = ok r).
Proof.
  intros Hnodup.
  induction items as [|[lt [[pred ref] vdim]] items IH]; intros labeled Hnd Hok Hkeys.
  - exists labeled. cbn [loss_loop]. repeat split; trivial.
    intros ? ? ? ? ? ? [].
  - cbn [loss_loop]. cbn [keys map fst] in Hnd.
    inversion Hnd as [|? ? Hnotin Hnd']; subst.
    destruct (Hok lt pred ref vdim (or_introl eq_refl)) as (Hlt & Hp & Hr).
    destruct (@label_loop_spec results lt pred ref vdim Hlt Hp Hr labels 0%nat 0%Z labeled Hkeys)
      as (labeled1 & E1 & Hk1 & Hother1 & _ & Hslices1).
    unfold ok in E1. rewrite E1. cbn [rbind].
    destruct (IH labeled1 Hnd') as (labeled' & E & Hk & Hout & Hslices).
    { intros lt0 p0 r0 v0 H0. apply (Hok lt0 p0 r0 v0). now right. }
    { intros l Hl. rewrite Hk1. now apply Hkeys. }
    exists labeled'. split; [exact E|]. split; [congruence|]. split.
    + intros label lt0 Hnot. rewrite Hout.
      * apply Hother1. intros ->. apply Hnot. now left.
      * intros H. apply Hnot. now right.
    + intros lt0 pred0 ref0 vdim0 j label [Heq|Hin] Hj.
      * injection Heq as <- <- <- <-.
        destruct (Hslices1 Hnodup j label Hj) as (p & r & G & Gp & Gr).
        exists p, r. rewrite (Hout _ _ Hnotin). cbn [Z.add] in Gp, Gr.
        repeat split; trivial.
      * eapply Hslices; eassumption.
Qed.

Lemma keys_empty_labeled {V} (e : V) (labels : list string) (acc : sdict V)
    (l : string) :
  In l labels \/ In l (keys acc) ->
  In l (keys (fold_left (fun acc k => sset k e acc) labels acc)).
Proof.
  revert acc; induction labels as [|k labels IH]; intros acc; cbn [fold_left].
  - intros [[]|H]; exact H.
  - intros H. apply IH.
    assert (Hk : forall x, In x (keys acc) \/ x = k -> In x (keys (sset k e acc))).
    { intros x Hx. unfold sset. rewrite keys_dict_set.
      destruct (dict_mem String.eqb k acc) eqn:Em.
      - destruct Hx as [Hx| ->]; trivial.
        destruct (in_dec string_dec k (keys acc)) as [Hi|Hno]; trivial.
        assert (N : dict_get String.eqb k acc = None)
          by (apply (dict_get_None_iff _ string_eqb_spec); exact Hno).
        unfold dict_mem in Em. rewrite N in Em. discriminate.
      - apply in_or_app. destruct Hx as [Hx| ->]; [now left | right; now left]. }
    destruct H as [[<-|H]|H]; auto.
Qed.

(** X6.  For loss types other than FORCE and structures with pairwise
    distinct labels the partition succeeds, and the structure at position
    [j] of the batch has, under its label and each loss type of the
    results, the slices [pred[j*vdim:(j+1)*vdim]] and
    [ref[j*vdim:(j+1)*vdim]] of the flat arrays: the cursor advances by
    [vdim] per structure and restarts at 0 for every loss type. *)
Theorem with_label_distinct_labels (output : @output_t F)
    (lts : list hashable) (results : results_t) (labels : list string)
    (Hres : postprocess_output output lts = ok results)
    (Hlabels : sget KEY.USER_LABEL output = Some (OLabels labels))
    (Hdistinct : NoDup labels)
    (Hforce : ~ In (KLoss LossType.FORCE) lts)
    (Hbatch : forall n, get_tensor output KEY.NUM_ATOMS = ok n -> tshape n <> []) :
  exists labeled,
    postprocess_output_with_label output lts = ok labeled
    /\ forall lt pred ref vdim j label,
         dict_get hashable_eqb lt results = Some (pred, ref, vdim) ->
         nth_error labels j = Some label ->
         exists p r,
           labeled_get labeled label lt = Some (p, r)
           /\ tslice (Z.of_nat j * vdim) ((Z.of_nat j + 1) * vdim) pred = ok p
           /\ tslice (Z.of_nat j * vdim) ((Z.of_nat j + 1) * vdim) ref = ok r.
Proof.
  assert (Hnd : NoDup (keys results)).
  { eapply postprocess_loop_NoDup; [exact Hres | constructor]. }
  assert (Hkeys : forall lt, In lt (keys results) -> In lt lts).
  { intros lt H. pose proof Hres as Hk. unfold postprocess_output in Hk.
    eapply postprocess_loop_keys in Hk; [|exact H].
    destruct Hk as [[]|[Hin _]]. exact Hin. }
  assert (Hentries : forall lt, In lt lts ->
            exists entry, postprocess_one output lt = ok entry
                          /\ dict_get hashable_eqb lt results = Some entry).
  { intros lt H. eapply postprocess_loop_get; eassumption. }
  unfold postprocess_output_with_label.
  unfold ok in Hres. rewrite Hres. cbn [rbind].
  unfold get_labels, getitem. rewrite Hlabels. cbn [rbind ok].
  destruct (loss_loop_spec results Hdistinct results (empty_labeled labels) Hnd)
    as (labeled & E & _ & _ & Hslices).
  - intros lt pred ref vdim Hin.
    assert (Hk : In lt (keys results)).
    { unfold keys. change lt with (fst (lt, (pred, ref, vdim))). now apply in_map. }
    apply Hkeys in Hk. split; [intros ->; contradiction|].
    destruct (Hentries _ Hk) as (entry & Hone & Hget).
    assert (Hsame : dict_get hashable_eqb lt results = Some (pred, ref, vdim)).
    { clear - Hnd Hin. induction results as [|[k v] res IH]; [destruct Hin|].
      cbn [keys map fst] in Hnd. inversion Hnd as [|? ? Hnotin Hnd']; subst.
      cbn [dict_get]. destruct Hin as [[= -> ->]|Hin].
      - now rewrite (eqb_refl_of_spec _ hashable_eqb_spec).
      - replace (hashable_eqb lt k) with false; [now apply IH|].
        symmetry. apply (eqb_false_of_spec _ hashable_eqb_spec). intros ->.
        apply Hnotin. unfold keys.
        change k with (fst (k, (pred, ref, vdim))). now apply in_map. }
    rewrite Hsame in Hget. injection Hget as <-.
    eapply postprocess_one_rank; eassumption.
  - intros l Hl. unfold empty_labeled. apply keys_empty_labeled. now left.
  - exists labeled. split; [exact E|].
    intros lt pred ref vdim j label Hget Hj.
    eapply Hslices; [|exact Hj].
    now apply (dict_get_In _ hashable_eqb_spec).
Qed.
End LabelMore.

Lemma postprocess_output_entries_witness :
  NoDup (keys labelled_results)
  /\ (forall lt, In lt (keys labelled_results)
                 <-> In lt [KLoss LossType.ENERGY; KLoss LossType.STRESS;
                            KLoss LossType.ENERGY])
  /\ (forall lt, In lt [KLoss LossType.ENERGY; KLoss LossType.STRESS;
                        KLoss LossType.ENERGY] ->
        exists entry, postprocess_one labelled_output lt = ok entry
                      /\ dict_get hashable_eqb lt labelled_results = Some entry).
Proof.
  apply (@postprocess_output_entries xrat xrat_ops labelled_output
           [KLoss LossType.ENERGY; KLoss LossType.STRESS; KLoss LossType.ENERGY]
           labelled_results).
  reflexivity.
Defined.

Lemma with_label_distinct_labels_witness :
  exists labeled,
    postprocess_output_with_label labelled_output
      [KLoss LossType.ENERGY; KLoss LossType.STRESS] = ok labeled
    /\ forall lt pred ref vdim j label,
         dict_get hashable_eqb lt labelled_results = Some (pred, ref, vdim) ->
         nth_error ["train"; "valid"] j = Some label ->
         exists p r,
           labeled_get labeled label lt = Some (p, r)
           /\ tslice (Z.of_nat j * vdim) ((Z.of_nat j + 1) * vdim) pred = ok p
           /\ tslice (Z.of_nat j * vdim) ((Z.of_nat j + 1) * vdim) ref = ok r.
Proof.
  apply (@with_label_distinct_labels xrat xrat_ops labelled_output
           [KLoss LossType.ENERGY; KLoss LossType.STRESS] labelled_results
           ["train"; "valid"]).
  - reflexivity.
  - reflexivity.
  - repeat constructor; cbn; intuition discriminate.
  - cbn; intuition discriminate.
  - intros n Hn. vm_compute in Hn. injection Hn as <-. discriminate.
Defined.

(** The partition of [labelled_output]: the stress of the second
    structure is the second half of the flat stress, in kbar. *)
Example with_label_distinct_labels_stress :
  match postprocess_output_with_label labelled_output
          [KLoss LossType.ENERGY; KLoss LossType.STRESS] with
  | inr labeled =>
      option_map (fun pr => as_floats (fst pr))
        (labeled_get labeled "valid" (KLoss LossType.STRESS))
  | inl _ => None
  end
  = Some (map (fun x => fmul x TO_KB) (skipn 6 (ramp 12))).
Proof. vm_compute. reflexivity. Qed.

(** ** The squared error *)


Section Map2Facts.
Context {A B C : Type} (f : A -> B -> C).


End Map2Facts.

Section SquaredErrorFacts.
Context {F : Type} {FO : FloatOps F}.
Variable fsub : F -> F -> F.


(** X9.  When the number of elements is not a multiple of [vdim], or [vdim]
    is not positive, the squared error is the tensor engine's
    [RuntimeError]: no item is silently cut or padded. *)
Theorem squared_error_ragged (p r : tensor F) (vdim : Z)
    (Hshape : shape p = shape r)
    (Hlen : List.length (data r) = List.length (data p))
    (Hbad : (vdim <= 0)%Z \/ (Z.of_nat (List.length (data p)) mod vdim)%Z <> 0%Z) :
  exists msg,
    squared_error fsub (TFloat p) (TFloat r) vdim = raise (RuntimeError msg).
Proof.
  unfold squared_error, mse_none. rewrite Hshape, shape_eqb_refl. cbn [rbind ok].
  unfold reshape_rows, numel. cbn [data].
  rewrite length_map2, Hlen, Nat.min_id.
  destruct (vdim <=? 0)%Z eqn:E; [eexists; reflexivity|].
  apply Z.leb_gt in E. destruct Hbad as [Hbad|Hbad]; [lia|].
  replace (Z.of_nat (List.length (data p)) mod vdim =? 0)%Z with false
    by (symmetry; now apply Z.eqb_neq).
  eexists; reflexivity.
Qed.
End SquaredErrorFacts.


Lemma squared_error_ragged_witness :
  exists msg,
    squared_error xrat_sub (TFloat flat_pred) (TFloat flat_ref) 4
    = raise (RuntimeError msg).
Proof.
  apply (@squared_error_ragged xrat xrat_ops xrat_sub flat_pred flat_ref 4%Z).
  - reflexivity.
  - reflexivity.
  - right. cbn. lia.
Defined.

(** ** One-hot indices and chemical species *)

Lemma find_unique {A B} (eqb : B -> B -> bool)
    (eqb_spec : forall a b, eqb a b = true <-> a = b)
    (l : list (A * B)) (a : A) (b : B) :
  NoDup (map snd l) -> In (a, b) l ->
  find (fun kv => eqb (snd kv) b) l = Some (a, b).
Proof.
  induction l as [|[a0 b0] l IH]; intros Hnd Hin; [destruct Hin|].
  cbn [map snd] in Hnd. inversion Hnd as [|? ? Hnotin Hnd']; subst.
  cbn [find snd]. destruct Hin as [[= -> ->]|Hin].
  - now rewrite (proj2 (eqb_spec b b) eq_refl).
  - destruct (eqb b0 b) eqn:E.
    + apply eqb_spec in E; subst b0. exfalso. apply Hnotin.
      change b with (snd (a, b)). now apply in_map.
    + now apply IH.
Qed.

Lemma find_none {A} (f : A -> bool) (l : list A) :
  (forall x, In x l -> f x = false) -> find f l = None.
Proof.
  induction l as [|a l IH]; intros H; [reflexivity|].
  cbn [find]. rewrite (H a) by now left. apply IH. intros x Hx. apply H. now right.
Qed.

Lemma Z_eqb_spec (a b : Z) : Z.eqb a b = true <-> a = b.
Proof. apply Z.eqb_eq. Qed.

(** The reversed map sends a one-hot index to the last atomic number the
    type map gives it to. *)
Lemma dict_get_reverse (type_map acc : zdict Z) (x : Z) :
  dict_get Z.eqb x
    (fold_left (fun acc kv => dict_set Z.eqb (snd kv) (fst kv) acc) type_map acc)
  = match find (fun kv => Z.eqb (snd kv) x) (rev type_map) with
    | Some kv => Some (fst kv)
    | None => dict_get Z.eqb x acc
    end.
Proof.
  revert acc; induction type_map as [|[z x0] tm IH]; intros acc; cbn [fold_left rev].
  - reflexivity.
  - rewrite IH, find_snoc. cbn [fst snd].
    destruct (find _ (rev tm)); [reflexivity|].
    destruct (Z.eqb x0 x) eqn:E.
    + apply Z.eqb_eq in E; subst x0. apply (dict_get_set_same _ Z_eqb_spec).
    + apply Z.eqb_neq in E. apply (dict_get_set_other _ Z_eqb_spec). congruence.
Qed.

Section OnehotFacts.
Variable chemical_symbols : list string.

(** X10.  Round trip through an injective type map: the one-hot indices the
    type map gives to a sequence of atomic numbers are turned back into the
    symbols of those atomic numbers, in order. *)
Theorem onehot_to_chem_round_trip (type_map : zdict Z) (zs xs : list Z)
    (syms : list string)
    (Hinj : NoDup (map snd type_map))
    (Hmap : Forall2 (fun z x => dict_get Z.eqb z type_map = Some x) zs xs)
    (Hsym : Forall2 (fun z s => list_item chemical_symbols z = ok s) zs syms) :
  onehot_to_chem chemical_symbols xs type_map = ok syms.
Proof.
  unfold onehot_to_chem. revert syms Hsym.
  induction Hmap as [|z x zs xs Hzx Hmap IH]; intros syms Hsym.
  - inversion Hsym; subst. reflexivity.
  - inversion Hsym as [|? s ? syms' Hs Hsym']; subst.
    cbn [symbols_of]. unfold zgetitem, reverse_map.
    rewrite dict_get_reverse.
    rewrite (find_unique Z.eqb Z_eqb_spec (rev type_map) z x).
    + cbn [fst rbind ok]. unfold ok in Hs. rewrite Hs. cbn [rbind].
      fold (reverse_map type_map). rewrite (IH _ Hsym'). reflexivity.
    + rewrite map_rev. now apply NoDup_rev.
    + apply -> in_rev. now apply (dict_get_In _ Z_eqb_spec).
Qed.

(** X11.  A one-hot index that the type map gives to no atomic number makes
    the whole conversion fail: no list is returned, not even for the
    indices before it. *)
Theorem onehot_to_chem_unmapped (type_map : zdict Z) (xs : list Z) (x : Z)
    (Hin : In x xs)
    (Hunmapped : ~ In x (map snd type_map)) :
  exists e, onehot_to_chem chemical_symbols xs type_map = raise e.
Proof.
  unfold onehot_to_chem.
  assert (Hnone : dict_get Z.eqb x (reverse_map type_map) = None).
  { unfold reverse_map. rewrite dict_get_reverse, find_none; [reflexivity|].
    intros [z x0] Hx. cbn [snd]. apply Z.eqb_neq. intros ->.
    apply Hunmapped. apply in_rev in Hx.
    change x with (snd (z, x)). now apply in_map. }
  induction xs as [|x0 xs IH]; [destruct Hin|].
  cbn [symbols_of].
  destruct (zgetitem (reverse_map type_map) x0) as [e|z] eqn:Ez;
    [exists e; reflexivity|].
  cbn [rbind].
  destruct (list_item chemical_symbols z) as [e|s]; [exists e; reflexivity|].
  cbn [rbind].
  destruct Hin as [->|Hin].
  - unfold zgetitem in Ez. rewrite Hnone in Ez. discriminate.
  - destruct (IH Hin) as [e He]. exists e. unfold raise in He. rewrite He. reflexivity.
Qed.
End OnehotFacts.

Lemma onehot_to_chem_round_trip_witness :
  onehot_to_chem some_chemical_symbols [2; 0; 0; 1]%Z hco_type_map
  = ok ["O"; "H"; "H"; "C"].
Proof.
  apply (@onehot_to_chem_round_trip some_chemical_symbols hco_type_map
           [8; 1; 1; 6]%Z [2; 0; 0; 1]%Z ["O"; "H"; "H"; "C"]).
  - repeat constructor; cbn; intuition discriminate.
  - repeat constructor.
  - repeat constructor.
Defined.

Lemma onehot_to_chem_unmapped_witness :
  exists e, onehot_to_chem some_chemical_symbols [0; 3]%Z hco_type_map = raise e.
Proof.
  apply (@onehot_to_chem_unmapped some_chemical_symbols hco_type_map [0; 3]%Z 3%Z).
  - right; left; reflexivity.
  - cbn. intuition discriminate.
Defined.

Section SortedFacts.

Lemma insert_sorted_perm (x : string) (l : list string) :
  Permutation (insert_sorted x l) (x :: l).
Proof.
  induction l as [|y l IH]; cbn [insert_sorted]; [reflexivity|].
  destruct (String.leb x y); [reflexivity|].
  rewrite IH. apply perm_swap.
Qed.

Lemma sorted_perm (l : list string) : Permutation (sorted l) l.
Proof.
  induction l as [|x l IH]; cbn [sorted fold_right]; [reflexivity|].
  fold (sorted l). rewrite insert_sorted_perm. now constructor.
Qed.

Lemma insert_sorted_HdRel (a x : string) (l : list string) :
  str_le a x -> HdRel str_le a l -> HdRel str_le a (insert_sorted x l).
Proof.
  intros Hax H. destruct l as [|y l]; cbn [insert_sorted]; [now constructor|].
  destruct (String.leb x y); constructor; trivial.
  now inversion H.
Qed.

Lemma insert_sorted_Sorted (x : string) (l : list string) :
  Sorted str_le l -> Sorted str_le (insert_sorted x l).
Proof.
  induction l as [|y l IH]; intros H; cbn [insert_sorted].
  - repeat constructor.
  - inversion H as [|? ? Hs Hhd]; subst.
    destruct (String.leb x y) eqn:E.
    + constructor; [exact H | constructor; exact E].
    + constructor; [now apply IH|].
      apply insert_sorted_HdRel; trivial.
      unfold str_le. destruct (String.leb_total x y) as [H1|H1]; congruence.
Qed.

Lemma sorted_Sorted (l : list string) : Sorted str_le (sorted l).
Proof.
  induction l as [|x l IH]; cbn [sorted fold_right]; [constructor|].
  now apply insert_sorted_Sorted.
Qed.
End SortedFacts.

Section ChemicalSpeciesFacts.
Context {F : Type}.
Variable atomic_numbers : sdict Z.
Variable get_type_mapper_from_specie : list string -> result (@pyval F).

Lemma numbers_of_spec (species : list string) (numbers : list Z) :
  numbers_of atomic_numbers species = ok numbers ->
  Forall2 (fun s z => sget s atomic_numbers = Some z) species numbers.
Proof.
  revert numbers; induction species as [|s species IH]; intros numbers;
    cbn [numbers_of].
  - intros [= <-]. constructor.
  - unfold getitem. destruct (sget s atomic_numbers) as [z|] eqn:E; [|discriminate].
    cbn [rbind ok].
    destruct (numbers_of atomic_numbers species) as [e|l]; [discriminate|].
    cbn [rbind]. intros [= <-]. constructor; auto.
Qed.

Lemma numbers_of_unknown (species : list string) (x : string) :
  In x species -> sget x atomic_numbers = None ->
  exists k, numbers_of atomic_numbers species = raise (KeyError k)
            /\ In k species /\ sget k atomic_numbers = None.
Proof.
  induction species as [|s species IH]; intros Hin Hx; [destruct Hin|].
  cbn [numbers_of]. unfold getitem.
  destruct (sget s atomic_numbers) as [z|] eqn:E.
  - cbn [rbind ok]. destruct Hin as [->|Hin]; [congruence|].
    destruct (IH Hin Hx) as (k & Hk & Hink & Hnone).
    exists k. unfold raise in Hk. rewrite Hk. repeat split; trivial. now right.
  - exists s. repeat split; trivial. now left.
Qed.

(** X21.  The configuration of the chemical species: the species are the
    stripped input symbols in ascending order, duplicates kept; their
    number is the number of input symbols; the atomic numbers are those of
    the species, position by position; the type map is the one the type
    mapper gives for the sorted species. *)
Theorem chemical_species_preprocess_sorted (input_chem : list string)
    (config : @config_t F)
    (Hok : chemical_species_preprocess atomic_numbers get_type_mapper_from_specie
             input_chem = ok config) :
  exists species numbers type_map,
    Sorted str_le species
    /\ Permutation species (map str_strip input_chem)
    /\ Forall2 (fun s z => sget s atomic_numbers = Some z) species numbers
    /\ get_type_mapper_from_specie species = ok type_map
    /\ config = [ (SPECIES_KEY.CHEMICAL_SPECIES, VList (map (@VStr F) species));
                  (SPECIES_KEY.CHEMICAL_SPECIES_BY_ATOMIC_NUMBER,
                    VList (map (@VInt F) numbers));
                  (SPECIES_KEY.NUM_SPECIES,
                    VInt (Z.of_nat (List.length input_chem)));
                  (SPECIES_KEY.TYPE_MAP, type_map) ].
Proof.
  unfold chemical_species_preprocess in Hok.
  set (species := sorted (map str_strip input_chem)) in *.
  destruct (numbers_of atomic_numbers species) as [e|numbers] eqn:En; [discriminate|].
  cbn [rbind] in Hok.
  destruct (get_type_mapper_from_specie species) as [e|type_map] eqn:Et;
    [discriminate|].
  cbn [rbind] in Hok. injection Hok as <-.
  exists species, numbers, type_map.
  split; [apply sorted_Sorted|].
  split; [apply sorted_perm|].
  split; [now apply numbers_of_spec|].
  split; [exact Et|].
  assert (Hlen : List.length species = List.length input_chem).
  { unfold species.
    rewrite (Permutation_length (sorted_perm (map str_strip input_chem))).
    apply length_map. }
  rewrite Hlen. reflexivity.
Qed.

(** X22.  A symbol that, once stripped, has no atomic number makes the
    preprocessing fail with [KeyError] on such a symbol, before the type
    mapper is called. *)
Theorem chemical_species_preprocess_unknown (input_chem : list string)
    (x : string)
    (Hin : In x input_chem)
    (Hunknown : sget (str_strip x) atomic_numbers = None) :
  exists k,
    chemical_species_preprocess atomic_numbers get_type_mapper_from_specie
      input_chem = raise (KeyError k)
    /\ In k (map str_strip input_chem)
    /\ sget k atomic_numbers = None.
Proof.
  unfold chemical_species_preprocess.
  set (species := sorted (map str_strip input_chem)).
  assert (Hs : In (str_strip x) species).
  { apply (Permutation_in _ (Permutation_sym (sorted_perm _))). now apply in_map. }
  destruct (numbers_of_unknown species _ Hs Hunknown) as (k & Hk & Hink & Hnone).
  exists k. unfold raise in Hk. rewrite Hk. repeat split; trivial.
  apply (Permutation_in _ (sorted_perm _)). exact Hink.
Qed.
End ChemicalSpeciesFacts.

Lemma chemical_species_preprocess_sorted_witness :
  exists species numbers type_map,
    Sorted str_le species
    /\ Permutation species (map str_strip [" O"; "H "; "C"; "H"])
    /\ Forall2 (fun s z => sget s some_atomic_numbers = Some z) species numbers
    /\ no_type_mapper species = ok type_map
    /\ [ (SPECIES_KEY.CHEMICAL_SPECIES, VList (map (@VStr xrat) ["C"; "H"; "H"; "O"]));
         (SPECIES_KEY.CHEMICAL_SPECIES_BY_ATOMIC_NUMBER,
           VList (map (@VInt xrat) [6; 1; 1; 8]%Z));
         (SPECIES_KEY.NUM_SPECIES, VInt 4);
         (SPECIES_KEY.TYPE_MAP, VNone) ]
       = [ (SPECIES_KEY.CHEMICAL_SPECIES, VList (map (@VStr xrat) species));
           (SPECIES_KEY.CHEMICAL_SPECIES_BY_ATOMIC_NUMBER,
             VList (map (@VInt xrat) numbers));
           (SPECIES_KEY.NUM_SPECIES,
             VInt (Z.of_nat (List.length [" O"; "H "; "C"; "H"])));
           (SPECIES_KEY.TYPE_MAP, type_map) ].
Proof.
  apply (@chemical_species_preprocess_sorted xrat some_atomic_numbers
           no_type_mapper [" O"; "H "; "C"; "H"]).
  reflexivity.
Defined.

Lemma chemical_species_preprocess_unknown_witness :
  exists k,
    chemical_species_preprocess some_atomic_numbers no_type_mapper
      ["H"; " Xx "] = raise (KeyError k)
    /\ In k (map str_strip ["H"; " Xx "])
    /\ sget k some_atomic_numbers = None.
Proof.
  apply (@chemical_species_preprocess_unknown xrat some_atomic_numbers
           no_type_mapper ["H"; " Xx "] " Xx ").
  - right; left; reflexivity.
  - reflexivity.
Defined.

(** ** The error recorder *)

Section SsetFacts.
Context {V : Type}.

Lemma sset_sset_same (k : string) (v v' : V) (d : sdict V) :
  sset k v (sset k v' d) = sset k v d.
Proof.
  unfold sset. induction d as [|[k0 v0] d IH]; cbn [dict_set].
  - now rewrite String.eqb_refl.
  - destruct (String.eqb k k0) eqn:E; cbn [dict_set]; rewrite E; [reflexivity|].
    now rewrite IH.
Qed.

Lemma sset_comm_present (k k' : string) (v v' : V) (d : sdict V) :
  k <> k' -> In k (keys d) ->
  sset k v (sset k' v' d) = sset k' v' (sset k v d).
Proof.
  intros Hne. unfold sset. induction d as [|[k0 v0] d IH]; intros Hin; [destruct Hin|].
  cbn [dict_set].
  destruct (String.eqb k k0) eqn:E; destruct (String.eqb k' k0) eqn:E';
    cbn [dict_set]; rewrite ?E, ?E'; trivial.
  - apply String.eqb_eq in E. apply String.eqb_eq in E'. congruence.
  - f_equal. apply IH. cbn in Hin. destruct Hin as [Hin|Hin]; trivial.
    apply String.eqb_neq in E. congruence.
Qed.

Lemma In_keys_sset (k k' : string) (v : V) (d : sdict V) :
  k = k' \/ In k (keys d) -> In k (keys (sset k' v d)).
Proof.
  unfold sset. rewrite keys_dict_set.
  destruct (dict_mem String.eqb k' d) eqn:E.
  - intros [->|H]; trivial.
    destruct (in_dec string_dec k' (keys d)) as [Hi|Hno]; trivial.
    assert (N : dict_get String.eqb k' d = None)
      by (apply (dict_get_None_iff _ string_eqb_spec); exact Hno).
    unfold dict_mem in E. rewrite N in E. discriminate.
  - intros [->|H]; apply in_or_app; [right; now left | now left].
Qed.
End SsetFacts.

Section SetNamesFacts.
Context {F : Type}.

Lemma set_names_rename (d : sdict (@pyval F)) (x : @pyval F) (n r p : string) :
  sset "name" x (set_names d n r p)
  = sset "pred_key" (VStr p) (sset "ref_key" (VStr r) (sset "name" x d)).
Proof.
  unfold set_names.
  rewrite (sset_comm_present (k:="name") (k':="pred_key")).
  - rewrite (sset_comm_present (k:="name") (k':="ref_key")).
    + now rewrite sset_sset_same.
    + discriminate.
    + apply In_keys_sset. now left.
  - discriminate.
  - apply In_keys_sset. right. apply In_keys_sset. now left.
Qed.

(** Storing the three names again overwrites the ones stored before. *)
Lemma set_names_overwrite (d : sdict (@pyval F)) (n r p n' r' p' : string) :
  set_names (set_names d n' r' p') n r p = set_names d n r p.
Proof.
  unfold set_names at 1. rewrite set_names_rename.
  rewrite (sset_comm_present (k:="ref_key") (k':="pred_key")).
  - now rewrite !sset_sset_same.
  - discriminate.
  - apply In_keys_sset. now left.
Qed.

Lemma sget_name_set_names (d : sdict (@pyval F)) (n r p : string) :
  sget "name" (set_names d n r p) = Some (VStr n).
Proof.
  unfold set_names.
  rewrite !sget_sset_other by discriminate. apply sget_sset_same.
Qed.
End SetNamesFacts.

Section ErrorRecorderFacts.
Context {F : Type}.
Variable ERROR_TYPES : sdict (sdict (@pyval F)).
Variable Metric Recorder : Type.
Variable RMSError MAError : sdict (@pyval F) -> result Metric.
Variable ErrorRecorder : list Metric -> Recorder.

Lemma tracks_refl : tracks ERROR_TYPES ERROR_TYPES.
Proof.
  intros k. destruct (sget k ERROR_TYPES) as [b0|]; [|reflexivity].
  exists b0. auto.
Qed.

Lemma tracks_store (BASE : sdict (sdict (@pyval F))) (k : string)
    (b0 : sdict (@pyval F)) (n r p : string) :
  tracks ERROR_TYPES BASE ->
  sget k ERROR_TYPES = Some b0 ->
  tracks ERROR_TYPES (sset k (set_names b0 n r p) BASE).
Proof.
  intros Ht Hk k'. specialize (Ht k').
  destruct (String.eqb k' k) eqn:E.
  - apply String.eqb_eq in E; subst k'. rewrite Hk.
    exists (set_names b0 n r p). rewrite sget_sset_same. split; trivial.
    right. eauto.
  - apply String.eqb_neq in E. rewrite sget_sset_other by exact E. exact Ht.
Qed.

Lemma rbind_app_assoc (m : result (list Metric)) (acc : list Metric) (x : Metric) :
  (l <- m ;; ok ((acc ++ [x]) ++ l)) = (l <- m ;; ok (acc ++ x :: l)).
Proof. destruct m as [e|l]; cbn; [reflexivity|]. now rewrite <- app_assoc. Qed.

(** The loop on the working copy builds the metrics the table alone
    determines. *)
Lemma recorder_loop_refines (loss_functions : list (LossFunction.t * @pyval F)) :
  forall (BASE : sdict (sdict (@pyval F))) (acc : list Metric),
  tracks ERROR_TYPES BASE ->
  recorder_loop RMSError MAError loss_functions BASE acc
  = (l <- metrics_of ERROR_TYPES RMSError MAError loss_functions ;; ok (acc ++ l)).
Proof.
  induction loss_functions as [|[lf w] rest IH]; intros BASE acc Ht.
  - cbn. now rewrite app_nil_r.
  - cbn [recorder_loop metrics_of]. unfold metric_of, metric_kwargs.
    destruct lf as [cls rk pk crit nm]. cbn [LossFunction.class LossFunction.ref_key
      LossFunction.pred_key LossFunction.criterion LossFunction.name].
    assert (Hbase :
      (exists e,
         match base_key cls with Some k => getitem BASE k | None => ok [] end = raise e
         /\ match base_key cls with Some k => getitem ERROR_TYPES k | None => ok [] end
            = raise e)
      \/ (exists b b0,
         match base_key cls with Some k => getitem BASE k | None => ok [] end = ok b
         /\ match base_key cls with Some k => getitem ERROR_TYPES k | None => ok [] end
            = ok b0
         /\ (forall n r p, set_names b n r p = set_names b0 n r p)
         /\ (forall n r p,
               tracks ERROR_TYPES
                 match base_key cls with
                 | Some k => sset k (set_names b0 n r p) BASE
                 | None => BASE
                 end))).
    { destruct (base_key cls) as [k|].
      - pose proof (Ht k) as Hk. unfold getitem.
        destruct (sget k ERROR_TYPES) as [b0|] eqn:E0.
        + destruct Hk as (b & Hb & Hrel). rewrite Hb. right. exists b, b0.
          repeat split; trivial.
          * intros n r p. destruct Hrel as [->|(n' & r' & p' & ->)]; trivial.
            apply set_names_overwrite.
          * intros n r p. now apply tracks_store.
        + rewrite Hk. left. eauto.
      - right. exists [], []. repeat split; trivial. }
    destruct Hbase as [(e & -> & ->)|(b & b0 & -> & -> & Hsame & Htr)];
      [reflexivity|].
    cbn [rbind ok]. rewrite Hsame.
    destruct crit.
    + unfold getitem. rewrite sget_name_set_names. cbn [rbind ok add_suffix].
      rewrite set_names_rename. fold (set_names b0 (nm ++ "_RMSE") rk pk).
      destruct (RMSError (set_names b0 (nm ++ "_RMSE") rk pk)) as [e|m];
        [reflexivity|].
      cbn [rbind ok].
      rewrite IH.
      * destruct (metrics_of ERROR_TYPES RMSError MAError rest) as [e|l];
          cbn; [reflexivity|]. now rewrite <- app_assoc.
      * specialize (Htr (nm ++ "_RMSE")%string rk pk).
        destruct (base_key cls); exact Htr.
    + destruct (MAError (set_names b0 nm rk pk)) as [e|m]; [reflexivity|].
      cbn [rbind ok].
      rewrite IH.
      * destruct (metrics_of ERROR_TYPES RMSError MAError rest) as [e|l];
          cbn; [reflexivity|]. now rewrite <- app_assoc.
      * specialize (Htr nm rk pk). destruct (base_key cls); exact Htr.
    + cbn [rbind ok]. rewrite IH.
      * destruct (metrics_of ERROR_TYPES RMSError MAError rest) as [e|l];
          reflexivity.
      * specialize (Htr nm rk pk). destruct (base_key cls); exact Htr.
Qed.

(** X3.  What a loss function stores in the shared working copy of the
    table never reaches the metric of a later loss function: the recorder
    is built from the metrics that the table alone determines, each from
    the table's entry for the class of its loss function (an empty
    dictionary for another class) with the name, with "_RMSE" appended
    under the MSE criterion, the reference key and the prediction key of
    the loss function stored in it; the errors are the same too. *)
Theorem error_recorder_is_history_free
    (loss_functions : list (LossFunction.t * @pyval F)) :
  error_recorder_from_loss_functions ERROR_TYPES RMSError MAError ErrorRecorder
    loss_functions
  = (metrics <- metrics_of ERROR_TYPES RMSError MAError loss_functions ;;
     ok (ErrorRecorder metrics)).
Proof.
  unfold error_recorder_from_loss_functions.
  rewrite (recorder_loop_refines loss_functions [] tracks_refl).
  destruct (metrics_of ERROR_TYPES RMSError MAError loss_functions); reflexivity.
Qed.

Lemma metrics_of_length (loss_functions : list (LossFunction.t * @pyval F))
    (metrics : list Metric) :
  metrics_of ERROR_TYPES RMSError MAError loss_functions = ok metrics ->
  List.length metrics
  = List.length (filter (fun lw => has_metric (fst lw)) loss_functions).
Proof.
  revert metrics; induction loss_functions as [|[lf w] rest IH]; intros metrics;
    cbn [metrics_of filter fst].
  - now intros [= <-].
  - destruct (metric_of ERROR_TYPES RMSError MAError lf) as [e|m] eqn:Em;
      [discriminate|].
    cbn [rbind].
    destruct (metrics_of ERROR_TYPES RMSError MAError rest) as [e|l];
      [discriminate|].
    cbn [rbind]. intros [= <-]. specialize (IH l eq_refl).
    unfold metric_of in Em. unfold has_metric.
    destruct (metric_kwargs ERROR_TYPES lf) as [e|kw]; [discriminate|].
    cbn [rbind] in Em.
    destruct (LossFunction.criterion lf).
    + destruct (RMSError kw); [discriminate|]. injection Em as <-.
      cbn [List.length]. now rewrite IH.
    + destruct (MAError kw); [discriminate|]. injection Em as <-.
      cbn [List.length]. now rewrite IH.
    + injection Em as <-. exact IH.
Qed.

(** X4.  The loop appends one metric for each loss function whose criterion
    is the MSE or the L1 loss and none for any other: a loss function with
    another criterion is passed over without an error. *)
Theorem recorder_loop_counts (loss_functions : list (LossFunction.t * @pyval F))
    (metrics : list Metric)
    (Hok : recorder_loop RMSError MAError loss_functions ERROR_TYPES [] = ok metrics) :
  List.length metrics
  = List.length (filter (fun lw => has_metric (fst lw)) loss_functions).
Proof.
  rewrite (recorder_loop_refines loss_functions [] tracks_refl) in Hok.
  destruct (metrics_of ERROR_TYPES RMSError MAError loss_functions) as [e|l] eqn:E;
    [discriminate|].
  cbn in Hok. injection Hok as <-. now apply metrics_of_length.
Qed.
End ErrorRecorderFacts.

(** The recorder of [sample_loss_functions]: the second energy metric is
    named "Energy", not "Energy_RMSE", although the first one stored that
    name in the shared entry. *)
Example error_recorder_sample :
  error_recorder_from_loss_functions sample_error_types sample_RMSError
    sample_MAError (fun ms => ms) sample_loss_functions
  = ok [ ("RMSError",
           [ ("name", VStr "Energy_RMSE"); ("unit", VStr "eV/atom");
             ("ref_key", VStr "total_energy");
             ("pred_key", VStr "inferred_total_energy") ]);
         ("MAError",
           [ ("name", VStr "Energy"); ("unit", VStr "eV/atom");
             ("ref_key", VStr "total_energy");
             ("pred_key", VStr "inferred_total_energy") ]) ].
Proof. reflexivity. Qed.

Lemma recorder_loop_counts_witness :
  List.length
    [ ("RMSError",
        [ ("name", VStr "Energy_RMSE"); ("unit", @VStr xrat "eV/atom");
          ("ref_key", VStr "total_energy");
          ("pred_key", VStr "inferred_total_energy") ]);
      ("MAError",
        [ ("name", VStr "Energy"); ("unit", VStr "eV/atom");
          ("ref_key", VStr "total_energy");
          ("pred_key", VStr "inferred_total_energy") ]) ]
  = List.length (filter (fun lw => has_metric (fst lw)) sample_loss_functions).
Proof.
  apply (@recorder_loop_counts xrat sample_error_types sample_metric
           sample_RMSError sample_MAError sample_loss_functions).
  reflexivity.
Defined.

(** ** The dtype correction *)

Lemma Dtype_eqb_eq (a b : Dtype.t) : Dtype.eqb a b = true <-> a = b.
Proof.
  destruct a as [n f], b as [n' f']. unfold Dtype.eqb. cbn.
  rewrite andb_true_iff, String.eqb_eq, Bool.eqb_true_iff.
  split; [intros [-> ->]; reflexivity | intros [= -> ->]; auto].
Qed.

Section DtypeCorrectFacts.
Variable Elements Other : Type.
Variable from_numpy : ndarray Elements -> result (ttensor Elements).
Variable convert : Dtype.t -> Dtype.t -> Elements -> Elements.
Variable of_bool : bool -> Dtype.t -> Elements.
Variable of_int_scalar : Z -> Dtype.t -> result Elements.
Variable of_float_scalar : Elements -> Dtype.t -> result Elements.

Lemma dtype_tensor_to (t : ttensor Elements) (d : Dtype.t) :
  dtype (tensor_to convert t d) = d.
Proof.
  unfold tensor_to. destruct (Dtype.eqb (dtype t) d) eqn:E; [|reflexivity].
  now apply Dtype_eqb_eq.
Qed.

Lemma tensor_to_same (t : ttensor Elements) :
  tensor_to convert t (dtype t) = t.
Proof.
  unfold tensor_to.
  now rewrite (proj2 (Dtype_eqb_eq (dtype t) (dtype t)) eq_refl).
Qed.

(** What the correction returns is a tensor of the floating-point type or
    of the integer type asked for, or no tensor. *)
Lemma dtype_correct_result (v v' : dvalue Elements Other)
    (float_dtype int_dtype : Dtype.t) :
  dtype_correct from_numpy convert of_bool of_int_scalar of_float_scalar
    v float_dtype int_dtype = ok v' ->
  (exists t, v' = DTensor Other t
             /\ (dtype t = float_dtype \/ dtype t = int_dtype)
             /\ (Dtype.is_floating_point float_dtype = true ->
                 Dtype.is_floating_point int_dtype = false ->
                 tensor_to convert t
                   (if Dtype.is_floating_point (dtype t)
                    then float_dtype else int_dtype) = t))
  \/ v' = DNone Elements Other
  \/ (exists o, v = DOther Elements o /\ v' = v).
Proof.
  assert (Hto : forall t d,
            d = float_dtype \/ d = int_dtype ->
            Dtype.is_floating_point float_dtype = true ->
            Dtype.is_floating_point int_dtype = false ->
            tensor_to convert (tensor_to convert t d)
              (if Dtype.is_floating_point (dtype (tensor_to convert t d))
               then float_dtype else int_dtype) = tensor_to convert t d).
  { intros t d Hd Hf Hi. rewrite dtype_tensor_to.
    destruct Hd as [->| ->]; rewrite ?Hf, ?Hi;
      rewrite <- (dtype_tensor_to t) at 2; apply tensor_to_same. }
  assert (Hnew : forall d e,
            d = float_dtype \/ d = int_dtype ->
            Dtype.is_floating_point float_dtype = true ->
            Dtype.is_floating_point int_dtype = false ->
            tensor_to convert {| dtype := d; elements := e |}
              (if Dtype.is_floating_point d then float_dtype else int_dtype)
            = {| dtype := d; elements := e |}).
  { intros d e Hd Hf Hi.
    destruct Hd as [->| ->]; rewrite ?Hf, ?Hi;
      apply (tensor_to_same {| dtype := _; elements := e |}). }
  destruct v as [a|t|b|z|x| |o]; cbn [dtype_correct].
  - destruct (np_dtype a).
    + destruct (from_numpy a) as [e|t]; [discriminate|]. cbn [rbind].
      intros [= <-]. left. eexists; split; [reflexivity|].
      split; [rewrite dtype_tensor_to; auto | intros; apply Hto; auto].
    + destruct (from_numpy a) as [e|t]; [discriminate|]. cbn [rbind].
      intros [= <-]. left. eexists; split; [reflexivity|].
      split; [rewrite dtype_tensor_to; auto | intros; apply Hto; auto].
    + intros [= <-]. auto.
  - destruct (Dtype.is_floating_point (dtype t)); intros [= <-]; left;
      (eexists; split; [reflexivity|]);
      (split; [rewrite dtype_tensor_to; auto | intros; apply Hto; auto]).
  - intros [= <-]. left. eexists; split; [reflexivity|].
    split; [cbn [dtype]; auto | intros; apply Hnew; auto].
  - destruct (of_int_scalar z int_dtype) as [e|e]; [discriminate|]. cbn [rbind].
    intros [= <-]. left. eexists; split; [reflexivity|].
    split; [cbn [dtype]; auto | intros; apply Hnew; auto].
  - destruct (of_float_scalar x float_dtype) as [e|e]; [discriminate|].
    cbn [rbind].
    intros [= <-]. left. eexists; split; [reflexivity|].
    split; [cbn [dtype]; auto | intros; apply Hnew; auto].
  - intros [= <-]. auto.
  - intros [= <-]. right; right. eauto.
Qed.

(** X23.  The correction is idempotent when the floating-point type asked
    for is one and the integer type is not: correcting a corrected value
    returns it as it is, the same tensor and no new conversion. *)
Theorem dtype_correct_idempotent (v v' : dvalue Elements Other)
    (float_dtype int_dtype : Dtype.t)
    (Hfloat : Dtype.is_floating_point float_dtype = true)
    (Hint : Dtype.is_floating_point int_dtype = false)
    (Hok : dtype_correct from_numpy convert of_bool of_int_scalar of_float_scalar
             v float_dtype int_dtype = ok v') :
  dtype_correct from_numpy convert of_bool of_int_scalar of_float_scalar
    v' float_dtype int_dtype = ok v'.
Proof.
  destruct (dtype_correct_result _ _ _ Hok)
    as [(t & -> & _ & Hsame)|[->|(o & -> & ->)]]; try reflexivity.
  cbn [dtype_correct]. specialize (Hsame Hfloat Hint).
  destruct (Dtype.is_floating_point (dtype t)); now rewrite Hsame.
Qed.

(** X24.  The value is lost, [None] being returned in its place, exactly for
    [None] itself and for an array whose elements are neither
    floating-point numbers nor integers: no branch returns for such an
    array. *)
Theorem dtype_correct_none (v : dvalue Elements Other)
    (float_dtype int_dtype : Dtype.t) :
  dtype_correct from_numpy convert of_bool of_int_scalar of_float_scalar
    v float_dtype int_dtype = ok (DNone Elements Other)
  <-> v = DNone Elements Other
      \/ exists a, v = DArray Other a /\ np_dtype a = NpOther.
Proof.
  split.
  - destruct v as [a|t|b|z|x| |o]; cbn [dtype_correct]; try discriminate; auto.
    + destruct (np_dtype a) eqn:E.
      * destruct (from_numpy a); discriminate.
      * destruct (from_numpy a); discriminate.
      * intros _. right. eauto.
    + destruct (Dtype.is_floating_point (dtype t)); discriminate.
    + destruct (of_int_scalar z int_dtype); discriminate.
    + destruct (of_float_scalar x float_dtype); discriminate.
  - intros [->|(a & -> & Ha)]; cbn [dtype_correct]; [reflexivity|].
    now rewrite Ha.
Qed.
End DtypeCorrectFacts.

Lemma dtype_correct_idempotent_witness :
  plain_dtype_correct (DArray unit float64_array)
  = ok (DTensor unit {| dtype := Dtype.float32; elements := [1 # 2; 3 # 4] |})
  /\ plain_dtype_correct
       (DTensor unit {| dtype := Dtype.float32; elements := [1 # 2; 3 # 4] |})
     = ok (DTensor unit {| dtype := Dtype.float32; elements := [1 # 2; 3 # 4] |}).
Proof.
  split; [reflexivity|].
  apply (@dtype_correct_idempotent (list Q) unit plain_from_numpy plain_convert
           (fun b _ => [if b then 1 else 0]) int64_scalar
           (fun x _ => ok x) (DArray unit float64_array)); reflexivity.
Defined.

(** ** The accumulator without exact arithmetic *)

Section AverageNumberMore.
Context {F : Type} {FO : FloatOps F}.
Import AverageNumber.

(** X1.  Whatever the float arithmetic, [get] never divides by zero: the
    count is the number of values ingested, and [get] returns [nan] when
    it is 0 and the sum divided by it otherwise. *)
Theorem AverageNumber_get_never_raises (batches : list (tensor F)) :
  _count (run batches) = Z.of_nat (List.length (ingested batches))
  /\ get (run batches)
     = ok (match ingested batches with
           | [] => nan
           | _ :: _ =>
               fdiv (_sum (run batches))
                 (of_int (Z.of_nat (List.length (ingested batches))))
           end).
Proof.
  assert (Hc : _count (run batches) = Z.of_nat (List.length (ingested batches))).
  { unfold run. rewrite fold_update_count. reflexivity. }
  split; [exact Hc|].
  unfold get, py_truediv. rewrite Hc.
  destruct (ingested batches) as [|v vs]; [reflexivity|].
  cbn [List.length].
  replace (Z.of_nat (S (List.length vs)) =? 0)%Z with false
    by (symmetry; apply Z.eqb_neq; lia).
  reflexivity.
Qed.
End AverageNumberMore.
